(** * The Document node of the DOM core (src/dom/Document.ts)

    A shallow embedding of the [Document] class.  Nodes are JavaScript objects
    with identity and mutable fields, so they live in a store and are named by
    references; every method is a function in a small state-and-exception
    monad over that store.  The first part of the file holds the definitions,
    the second part the lemmas and theorems about them. *)

From Stdlib Require Import String Ascii Lia.
From stdpp Require Import base option list strings.

Local Open Scope string_scope.
Local Open Scope list_scope.

#[local] Set Warnings "-register-all".

(** * Part I: definitions *)

(** ** Strings *)

Module JSString.

(** [s.startsWith(p)]. *)
Fixpoint startsWith (s p : string) {struct p} : bool :=
  match p, s with
  | EmptyString, _ => true
  | String _ _, EmptyString => false
  | String a p', String b s' => if Ascii.eqb a b then startsWith s' p' else false
  end.

(** [s.includes(sub)]: [sub] occurs somewhere in [s]. *)
Fixpoint includes (s sub : string) : bool :=
  startsWith s sub ||
  match s with
  | EmptyString => false
  | String _ s' => includes s' sub
  end.

(** A string used as a condition is false exactly when it is empty; [null]
    is false as well. *)
Definition truthy (s : option string) : bool :=
  match s with
  | None | Some EmptyString => false
  | Some (String _ _) => true
  end.

End JSString.

(** ** Utility.XMLSpec *)

Module XMLSpec.

Definition between (lo hi : nat) (c : ascii) : bool :=
  (lo <=? nat_of_ascii c)%nat && (nat_of_ascii c <=? hi)%nat.

(** Modelled from the spec: [Utility.XMLSpec] is not among the sources.  The
    name grammar is the Name production, [NameStartChar NameChar*]: letters,
    ['_'] and [':'] may start a name; digits, ['-'] and ['.'] may follow.
    Strings are sequences of 8-bit code units, so the character classes are
    the part of the production below U+0100. *)
Definition NameStartChar (c : ascii) : bool :=
  between 58 58 c       (* ':' *)
  || between 65 90 c    (* A-Z *)
  || between 95 95 c    (* '_' *)
  || between 97 122 c   (* a-z *)
  || between 192 214 c || between 216 246 c || between 248 255 c.

Definition NameChar (c : ascii) : bool :=
  NameStartChar c
  || between 45 46 c    (* '-' '.' *)
  || between 48 57 c    (* 0-9 *)
  || between 183 183 c.

Fixpoint allNameChar (s : string) : bool :=
  match s with
  | EmptyString => true
  | String c s' => NameChar c && allNameChar s'
  end.

(** [s.match(XMLSpec.Name)] is not null.  The expression is anchored at both
    ends, so the whole string has to be a name. *)
Definition Name (s : string) : bool :=
  match s with
  | EmptyString => false
  | String c s' => NameStartChar c && allNameChar s'
  end.

End XMLSpec.

(** ** The data model: node objects in a store *)

(** The [nodeType] tags, [Node.Element] ... [Node.DocumentFragment]. *)
Inductive NodeType :=
| Element | Attr | Text | CDATASection | ProcessingInstruction | Comment
| Document | DocumentType | DocumentFragment.

#[global] Instance NodeType_eq_dec : EqDecision NodeType.
Proof. solve_decision. Defined.

(** The class an object was constructed from, which [instanceof] tests. *)
Inductive NodeClass :=
| ElementC | AttrC | TextC | CDATASectionC | ProcessingInstructionC | CommentC
| DocumentC | DocumentTypeC | DocumentFragmentC | ShadowRootC.

#[global] Instance NodeClass_eq_dec : EqDecision NodeClass.
Proof. solve_decision. Defined.

(** The [nodeType] getter of each class.  Modelled from the spec:
    [ShadowRoot.ts] is not among the sources; a shadow root is the root-shadow
    variant of a document fragment and reports the fragment's tag. *)
Definition nodeType (c : NodeClass) : NodeType :=
  match c with
  | ElementC => Element
  | AttrC => Attr
  | TextC => Text
  | CDATASectionC => CDATASection
  | ProcessingInstructionC => ProcessingInstruction
  | CommentC => Comment
  | DocumentC => Document
  | DocumentTypeC => DocumentType
  | DocumentFragmentC | ShadowRootC => DocumentFragment
  end.

(** A reference to a node object: its address in the store. *)
Abbreviation Ref := nat.

(** The variant-specific payload of a node. *)
Inductive Payload :=
| ElementData (namespace prefix : option string) (localName : string)
| AttrData (namespace prefix : option string) (localName value : string)
| CharacterData (data : string)
| ProcessingInstructionData (target data : string)
| NoData.

#[global] Instance Payload_eq_dec : EqDecision Payload.
Proof. solve_decision. Defined.

(** The fields every node object carries.  [attributes] is the attribute
    list of an element; it is empty for the other classes. *)
Record NodeObj := mkNode {
  cls : NodeClass;
  _parentNode : option Ref;
  _ownerDocument : option Ref;
  childNodes : list Ref;
  attributes : list Ref;
  payload : Payload
}.

Abbreviation Store := (list NodeObj).

(** Field assignments. *)
Definition set_parentNode (p : option Ref) (o : NodeObj) : NodeObj :=
  mkNode (cls o) p (_ownerDocument o) (childNodes o) (attributes o) (payload o).

Definition set_ownerDocument (d : option Ref) (o : NodeObj) : NodeObj :=
  mkNode (cls o) (_parentNode o) d (childNodes o) (attributes o) (payload o).

Definition set_childNodes (l : list Ref) (o : NodeObj) : NodeObj :=
  mkNode (cls o) (_parentNode o) (_ownerDocument o) l (attributes o) (payload o).

Definition set_attributes (l : list Ref) (o : NodeObj) : NodeObj :=
  mkNode (cls o) (_parentNode o) (_ownerDocument o) (childNodes o) l (payload o).

(** ** Exceptions and the monad *)

Inductive DOMException :=
| InvalidCharacterError | HierarchyRequestError | NotFoundError | NotSupportedError.

(** What a [throw] statement can throw in this class: a DOMException, or a
    plain string (the stub methods throw the empty string). *)
Inductive Thrown :=
| DOMError (e : DOMException)
| ThrownString (s : string).

(** How a call ends.  [OutOfFuel] and [Stuck] are not behaviours of the
    program: the first marks a recursion cut off by the fuel of the model, the
    second a field access through an address that holds no object. *)
Inductive Outcome (A : Type) :=
| Ret (a : A)
| Throw (e : Thrown)
| OutOfFuel
| Stuck.

Arguments Ret {A} a.
Arguments Throw {A} e.
Arguments OutOfFuel {A}.
Arguments Stuck {A}.

(** A computation reads and writes the store; what it wrote before a throw
    stays written. *)
Definition M (A : Type) : Type := Store -> Outcome A * Store.

Definition ret {A} (a : A) : M A := fun s => (Ret a, s).

Definition throw {A} (e : Thrown) : M A := fun s => (Throw e, s).

Definition bind {A B} (m : M A) (k : A -> M B) : M B :=
  fun s =>
    match m s with
    | (Ret a, s') => k a s'
    | (Throw e, s') => (Throw e, s')
    | (OutOfFuel, s') => (OutOfFuel, s')
    | (Stuck, s') => (Stuck, s')
    end.

Declare Scope dom_scope.
Delimit Scope dom_scope with dom.
Notation "x <- c1 ;; c2" := (bind c1 (fun x => c2))
  (at level 100, c1 at next level, right associativity) : dom_scope.
Notation "c1 ;;; c2" := (bind c1 (fun _ => c2))
  (at level 100, right associativity) : dom_scope.
Local Open Scope dom_scope.

(** Reading and writing an object. *)
Definition getObj (n : Ref) : M NodeObj :=
  fun s => match s !! n with
           | Some o => (Ret o, s)
           | None => (Stuck, s)
           end.

Definition modifyObj (n : Ref) (f : NodeObj -> NodeObj) : M unit :=
  fun s => match s !! n with
           | Some o => (Ret tt, <[n := f o]> s)
           | None => (Stuck, s)
           end.

(** [new C(...)]: the object is placed at the next free address. *)
Definition alloc (o : NodeObj) : M Ref :=
  fun s => (Ret (length s), s ++ [o]).

(** [for (const x of l) body(x)]. *)
Fixpoint forEach {A} (l : list A) (body : A -> M unit) : M unit :=
  match l with
  | [] => ret tt
  | x :: l' => body x ;;; forEach l' body
  end.

(** ** Constructors of the node classes

    Modelled from the spec: the class files other than [Document.ts] are not
    among the sources.  A constructor stores its arguments; the new node is
    detached (null parent, no children) and owned by the document it was
    given.  [new Document()] calls [super(null)]. *)

Definition new_Document : M Ref :=
  alloc (mkNode DocumentC None None [] [] NoData).

Definition new_Element (ownerDocument : Ref) (localName : string)
    (namespace prefix : option string) : M Ref :=
  alloc (mkNode ElementC None (Some ownerDocument) [] []
           (ElementData namespace prefix localName)).

(** The [ownerElement] argument is null at every call site of this class and
    is not stored. *)
Definition new_Attr (ownerDocument : Ref) (localName : string)
    (namespace prefix : option string) (value : string) : M Ref :=
  alloc (mkNode AttrC None (Some ownerDocument) [] []
           (AttrData namespace prefix localName value)).

Definition new_DocumentFragment (ownerDocument : Ref) : M Ref :=
  alloc (mkNode DocumentFragmentC None (Some ownerDocument) [] [] NoData).

Definition new_Text (ownerDocument : Ref) (data : string) : M Ref :=
  alloc (mkNode TextC None (Some ownerDocument) [] [] (CharacterData data)).

Definition new_CDATASection (ownerDocument : Ref) (data : string) : M Ref :=
  alloc (mkNode CDATASectionC None (Some ownerDocument) [] [] (CharacterData data)).

Definition new_Comment (ownerDocument : Ref) (data : string) : M Ref :=
  alloc (mkNode CommentC None (Some ownerDocument) [] [] (CharacterData data)).

Definition new_ProcessingInstruction (ownerDocument : Ref) (target data : string) : M Ref :=
  alloc (mkNode ProcessingInstructionC None (Some ownerDocument) [] []
           (ProcessingInstructionData target data)).

(** ** Node: the tree operations the Document class calls

    Modelled from the spec: [Node.ts] and the [Utility.Tree] helpers are not
    among the sources.  The definitions follow the mutation and clone
    algorithms of the specification (sections 4.2 and 4.5). *)

Module Node.

Definition outOfFuel {A} : M A := fun s => (OutOfFuel, s).

(** [node] is [n] or an ancestor of [n]: follow the parent links upwards. *)
Fixpoint isInclusiveAncestor (fuel : nat) (node n : Ref) : M bool :=
  if decide (node = n) then ret true
  else
    o <- getObj n ;;
    match _parentNode o with
    | None => ret false
    | Some p =>
        match fuel with
        | O => outOfFuel
        | S f => isInclusiveAncestor f node p
        end
    end.

(** Does the child list hold a node with tag [t]? *)
Fixpoint hasChildOfType (t : NodeType) (children : list Ref) : M bool :=
  match children with
  | [] => ret false
  | c :: rest =>
      co <- getObj c ;;
      if decide (nodeType (cls co) = t) then ret true else hasChildOfType t rest
  end.

Section WithTable.

(** Which variants a parent other than a Document accepts as children.  The
    specification fixes the row of the Document only; the other rows of the
    table are a parameter. *)
Variable permittedElsewhere : NodeType -> NodeType -> bool.

Definition permittedChild (parent child : NodeType) : bool :=
  match parent with
  | Document =>
      match child with
      | Element | ProcessingInstruction | Comment | DocumentType => true
      | _ => false
      end
  | _ => permittedElsewhere parent child
  end.

(** Pre-insertion validity, for an insertion at the end of the child list
    (no reference child). *)
Definition ensurePreInsertionValidity (fuel : nat) (node parent : Ref) : M unit :=
  cyclic <- isInclusiveAncestor fuel node parent ;;
  if (cyclic : bool) then throw (DOMError HierarchyRequestError)
  else
    po <- getObj parent ;;
    no <- getObj node ;;
    if negb (permittedChild (nodeType (cls po)) (nodeType (cls no)))
    then throw (DOMError HierarchyRequestError)
    else if decide (nodeType (cls po) = Document) then
      if decide (nodeType (cls no) = Element) then
        has <- hasChildOfType Element (childNodes po) ;;
        if (has : bool) then throw (DOMError HierarchyRequestError) else ret tt
      else if decide (nodeType (cls no) = DocumentType) then
        has <- hasChildOfType DocumentType (childNodes po) ;;
        if (has : bool) then throw (DOMError HierarchyRequestError) else ret tt
      else ret tt
    else ret tt.

(** Unlink [node] from [parent]: it leaves the child list (and with it the
    sibling chain) and its parent becomes null.  The owner document stays. *)
Definition unlink (parent node : Ref) : M unit :=
  modifyObj parent (fun po =>
    set_childNodes (filter (fun c => c <> node) (childNodes po)) po) ;;;
  modifyObj node (set_parentNode None).

(** [this.removeChild(oldChild)]: NotFoundError unless [oldChild] is a child
    of [this], that is, unless its parent is [this]. *)
Definition removeChild (this oldChild : Ref) : M Ref :=
  co <- getObj oldChild ;;
  if decide (_parentNode co = Some this)
  then unlink this oldChild ;;; ret oldChild
  else throw (DOMError NotFoundError).

(** Link [node] as the last child of [parent]. *)
Definition linkLast (parent node : Ref) : M unit :=
  modifyObj node (set_parentNode (Some parent)) ;;;
  modifyObj parent (fun po => set_childNodes (childNodes po ++ [node]) po).

(** [this.appendChild(node)], which is [insertBefore(node, null)]: validate,
    detach [node] from its current parent, then link it; a DocumentFragment
    hands over its children in order and ends up empty. *)
Definition appendChild (fuel : nat) (this node : Ref) : M Ref :=
  ensurePreInsertionValidity fuel node this ;;;
  no <- getObj node ;;
  match _parentNode no with
  | Some p => unlink p node
  | None => ret tt
  end ;;;
  (if decide (nodeType (cls no) = DocumentFragment) then
     forEach (childNodes no) (fun c => linkLast this c) ;;;
     modifyObj node (set_childNodes [])
   else linkLast this node) ;;;
  ret node.

(** [cloneNode(deep)] of the classes other than Document: a new node of the
    same class, owned by the same document, with null parent and the same
    payload; an element gets a copy of each attribute; with [deep], each
    child is cloned in document order and the clone appended.
    [cloneChild] is the dynamically dispatched [child.cloneNode]. *)
Definition cloneAttr (clone attr : Ref) : M unit :=
  ao <- getObj attr ;;
  attr' <- alloc (mkNode (cls ao) None (_ownerDocument ao) [] [] (payload ao)) ;;
  modifyObj clone (fun co => set_attributes (attributes co ++ [attr']) co).

Definition cloneNode_with (cloneChild : Ref -> bool -> M Ref)
    (fuel : nat) (this : Ref) (deep : bool) : M Ref :=
  o <- getObj this ;;
  clonedSelf <- alloc (mkNode (cls o) None (_ownerDocument o) [] [] (payload o)) ;;
  forEach (attributes o) (cloneAttr clonedSelf) ;;;
  (if deep then
     forEach (childNodes o) (fun child =>
       clonedChild <- cloneChild child deep ;;
       appendChild fuel clonedSelf clonedChild ;;; ret tt)
   else ret tt) ;;;
  ret clonedSelf.

End WithTable.

(** [Utility.Tree.forEachDescendant(node, { self, shadow: false }, callback)]:
    calls [callback] on every node of the subtree of [node] in document
    order, the node itself included when [self] is set.  Nodes carry no
    shadow tree in this model, which is what [shadow: false] asks for. *)
Fixpoint forEachDescendant (fuel : nat) (node : Ref) (self : bool)
    (callback : Ref -> M unit) : M unit :=
  match fuel with
  | O => outOfFuel
  | S f =>
      (if self then callback node else ret tt) ;;;
      o <- getObj node ;;
      forEach (childNodes o) (fun c => forEachDescendant f c true callback)
  end.

(** The owner-document reassignment of one visited node: the node, and the
    attributes of an element. *)
Definition reassignOwner (document : Ref) (child : Ref) : M unit :=
  modifyObj child (set_ownerDocument (Some document)) ;;;
  co <- getObj child ;;
  if decide (nodeType (cls co) = Element) then
    forEach (attributes co) (fun attr =>
      modifyObj attr (set_ownerDocument (Some document)))
  else ret tt.

(** [Utility.Tree.Mutation.adoptNode(node, document)]: detach [node] if it
    has a parent; if its owner document differs from [document], walk the
    subtree (self, descendants, element attributes) reassigning the owner. *)
Definition Mutation_adoptNode (fuel : nat) (node document : Ref) : M unit :=
  no <- getObj node ;;
  let oldDocument := _ownerDocument no in
  match _parentNode no with
  | Some p => removeChild p node ;;; ret tt
  | None => ret tt
  end ;;;
  if decide (oldDocument = Some document) then ret tt
  else forEachDescendant fuel node true (reassignOwner document).

End Node.

(** ** Document (src/dom/Document.ts) *)

Module Document.

(** [get doctype()]: the first child whose tag is DocumentType. *)
Fixpoint doctype_loop (children : list Ref) : M (option Ref) :=
  match children with
  | [] => ret None
  | child :: rest =>
      co <- getObj child ;;
      if decide (nodeType (cls co) = DocumentType) then ret (Some child)
      else doctype_loop rest
  end.

Definition doctype (this : Ref) : M (option Ref) :=
  o <- getObj this ;;
  doctype_loop (childNodes o).

(** [get documentElement()]: the first child whose tag is Element. *)
Fixpoint documentElement_loop (children : list Ref) : M (option Ref) :=
  match children with
  | [] => ret None
  | child :: rest =>
      co <- getObj child ;;
      if decide (nodeType (cls co) = Element) then ret (Some child)
      else documentElement_loop rest
  end.

Definition documentElement (this : Ref) : M (option Ref) :=
  o <- getObj this ;;
  documentElement_loop (childNodes o).

Definition getElementById (this : Ref) (elementId : string) : M (option Ref) :=
  ret None.

Definition createElement (this : Ref) (localName : string) : M Ref :=
  if negb (XMLSpec.Name localName)
  then throw (DOMError InvalidCharacterError)
  else new_Element this localName None None.

Definition createDocumentFragment (this : Ref) : M Ref :=
  new_DocumentFragment this.

Definition createTextNode (this : Ref) (data : string) : M Ref :=
  new_Text this data.

Definition createCDATASection (this : Ref) (data : string) : M Ref :=
  if JSString.includes data "]]>"
  then throw (DOMError InvalidCharacterError)
  else new_CDATASection this data.

Definition createComment (this : Ref) (data : string) : M Ref :=
  new_Comment this data.

Definition createProcessingInstruction (this : Ref) (target data : string) : M Ref :=
  if negb (XMLSpec.Name target)
  then throw (DOMError InvalidCharacterError)
  else if JSString.includes data "?>"
  then throw (DOMError InvalidCharacterError)
  else new_ProcessingInstruction this target data.

Definition createAttribute (this : Ref) (localName : string) : M Ref :=
  if negb (XMLSpec.Name localName)
  then throw (DOMError InvalidCharacterError)
  else new_Attr this localName None None EmptyString.

(** The unsupported surface.  The result type [never] has no values. *)
Definition createEvent (this : Ref) (eventInterface : string) : M Empty_set :=
  throw (DOMError NotSupportedError).

Definition createRange (this : Ref) : M Empty_set :=
  throw (DOMError NotSupportedError).

Definition createNodeIterator (this : Ref) (root : Ref) (whatToShow : nat)
    (filter : option Ref) : M Empty_set :=
  throw (DOMError NotSupportedError).

Definition createTreeWalker (this : Ref) (root : Ref) (whatToShow : nat)
    (filter : option Ref) : M Empty_set :=
  throw (DOMError NotSupportedError).

Definition querySelector (this : Ref) (selectors : string) : M (option Ref) :=
  throw (ThrownString EmptyString).

Definition querySelectorAll (this : Ref) (selectors : string) : M (list Ref) :=
  throw (ThrownString EmptyString).

Section Methods.

(** The table of permitted children, see [Node.permittedChild]. *)
Variable permittedElsewhere : NodeType -> NodeType -> bool.

(** [Element.ts] is not among the sources: the two namespace lookups of an
    element are parameters. *)
Variable Element_lookupPrefix : Ref -> option string -> M (option string).
Variable Element_lookupNamespaceURI : Ref -> option string -> M (option string).

(** [cloneNode(deep)], with [cloneChild] the dispatched [child.cloneNode]. *)
Definition cloneNode_with (cloneChild : Ref -> bool -> M Ref)
    (fuel : nat) (this : Ref) (deep : bool) : M Ref :=
  clonedSelf <- new_Document ;;
  (if deep then
     o <- getObj this ;;
     forEach (childNodes o) (fun child =>
       clonedChild <- cloneChild child deep ;;
       Node.appendChild permittedElsewhere fuel clonedSelf clonedChild ;;; ret tt)
   else ret tt) ;;;
  ret clonedSelf.

(** [node.cloneNode(deep)] on a node of any class: the method of the class
    of the object runs. *)
Fixpoint Node_cloneNode (fuel : nat) (node : Ref) (deep : bool) : M Ref :=
  match fuel with
  | O => Node.outOfFuel
  | S f =>
      o <- getObj node ;;
      if decide (cls o = DocumentC)
      then cloneNode_with (Node_cloneNode f) f node deep
      else Node.cloneNode_with permittedElsewhere (Node_cloneNode f) f node deep
  end.

Definition cloneNode (fuel : nat) (this : Ref) (deep : bool) : M Ref :=
  cloneNode_with (Node_cloneNode fuel) fuel this deep.

Definition importNode (fuel : nat) (this node : Ref) (deep : bool) : M Ref :=
  no <- getObj node ;;
  if decide (nodeType (cls no) = Document)
  then throw (DOMError NotSupportedError)
  else if decide (cls no = ShadowRootC)
  then throw (DOMError NotSupportedError)
  else
    clonedNode <- Node_cloneNode fuel node deep ;;
    Node.forEachDescendant fuel clonedNode true (fun child =>
      modifyObj child (set_ownerDocument (Some this)) ;;;
      co <- getObj child ;;
      if decide (nodeType (cls co) = Element) then
        forEach (attributes co) (fun attr =>
          modifyObj attr (set_ownerDocument (Some this)))
      else ret tt) ;;;
    ret clonedNode.

Definition adoptNode (fuel : nat) (this node : Ref) : M Ref :=
  no <- getObj node ;;
  if decide (nodeType (cls no) = Document)
  then throw (DOMError NotSupportedError)
  else if decide (cls no = ShadowRootC)
  then throw (DOMError HierarchyRequestError)
  else
    Node.Mutation_adoptNode fuel node this ;;;
    ret node.

(** [this.documentElement.m(...)] after the test [if (this.documentElement)]:
    the getter runs a second time. *)
Definition onDocumentElement {A} (this : Ref) (m : Ref -> M A) : M A :=
  de <- documentElement this ;;
  match de with
  | Some e => m e
  | None => fun s => (Stuck, s)
  end.

Definition lookupPrefix (this : Ref) (namespace : option string) : M (option string) :=
  if negb (JSString.truthy namespace) then ret None
  else
    de <- documentElement this ;;
    match de with
    | Some _ => onDocumentElement this (fun e => Element_lookupPrefix e namespace)
    | None => ret None
    end.

Definition lookupNamespaceURI (this : Ref) (prefix : option string) : M (option string) :=
  let prefix := if negb (JSString.truthy prefix) then None else prefix in
  de <- documentElement this ;;
  match de with
  | Some _ => onDocumentElement this (fun e => Element_lookupNamespaceURI e prefix)
  | None => ret None
  end.

End Methods.

(** *** The other members of the class *)

(** [new HTMLCollection(root, filter)].  Modelled from the spec:
    [HTMLCollection.ts] is not among the sources; the constructor keeps the
    root and the filter it is given. *)
Record HTMLCollection := new_HTMLCollection {
  collection_root : Ref;
  collection_filter : NodeObj -> bool
}.

(** The [localName] and [namespaceURI] getters of an element: what the
    constructor stored. *)
Definition Element_localName (ele : NodeObj) : string :=
  match payload ele with
  | ElementData _ _ l => l
  | _ => EmptyString
  end.

Definition Element_namespaceURI (ele : NodeObj) : option string :=
  match payload ele with
  | ElementData ns _ _ => ns
  | _ => None
  end.

(** [x === s] for [x : string | null] and a string [s]. *)
Definition strictEqual (x : option string) (s : string) : bool :=
  match x with
  | Some x' => String.eqb x' s
  | None => false
  end.

(** The result of [Utility.Namespace.extractNames]. *)
Record Names := mkNames {
  names_namespace : option string;
  names_prefix : option string;
  names_localName : string
}.

(** A helper that returns or throws without touching the store. *)
Definition liftThrown {A} (r : Thrown + A) : M A :=
  match r with
  | inl e => throw e
  | inr a => ret a
  end.

(** The members that are declared and not implemented. *)
Definition children (this : Ref) : M HTMLCollection :=
  throw (ThrownString EmptyString).

Definition firstElementChild (this : Ref) : M (option Ref) :=
  throw (ThrownString EmptyString).

Definition lastElementChild (this : Ref) : M (option Ref) :=
  throw (ThrownString EmptyString).

Definition childElementCount (this : Ref) : M nat :=
  throw (ThrownString EmptyString).

Definition prepend (this : Ref) (nodes : list (Ref + string)) : M unit :=
  throw (ThrownString EmptyString).

Definition append (this : Ref) (nodes : list (Ref + string)) : M unit :=
  throw (ThrownString EmptyString).

Definition convertNodesIntoNode (this : Ref) (nodes : list (Ref + string))
    (document : Ref) : M Ref :=
  throw (ThrownString EmptyString).

(** The loop of the filter of [getElementsByClassName]: the flag starts
    true and the first class name that is missing clears it and ends the
    loop. *)
Fixpoint allClassesFound_loop (contains : string -> bool) (arr : list string)
    (allClassesFound : bool) : bool :=
  match arr with
  | [] => allClassesFound
  | className :: rest =>
      if negb (contains className) then false
      else allClassesFound_loop contains rest allClassesFound
  end.

Section Collections.

(** Not among the sources, and parameters here: the [tagName] getter and
    the [classList.contains] test of an element, the parser of a list of
    class names, and the splitting of a qualified name, which returns the
    names or throws. *)
Variable Element_tagName : NodeObj -> string.
Variable Element_classList_contains : NodeObj -> string -> bool.
Variable OrderedSet_parse : string -> list string.
Variable Namespace_extractNames : option string -> string -> Thrown + Names.

Definition getElementsByTagName (this : Ref) (qualifiedName : string) : M HTMLCollection :=
  ret (new_HTMLCollection this (fun ele =>
         String.eqb qualifiedName "*"
         || String.eqb (Element_tagName ele) qualifiedName)).

Definition getElementsByTagNameNS (this : Ref) (namespace localName : string)
    : M HTMLCollection :=
  ret (new_HTMLCollection this (fun ele =>
         (String.eqb localName "*" || String.eqb (Element_localName ele) localName)
         && (String.eqb namespace "*"
             || strictEqual (Element_namespaceURI ele) namespace))).

Definition getElementsByClassName (this : Ref) (classNames : string) : M HTMLCollection :=
  let arr := OrderedSet_parse classNames in
  ret (new_HTMLCollection this (fun ele =>
         allClassesFound_loop (Element_classList_contains ele) arr true)).

Definition createElementNS (this : Ref) (namespace : option string)
    (qualifiedName : string) : M Ref :=
  names <- liftThrown (Namespace_extractNames namespace qualifiedName) ;;
  new_Element this (names_localName names) (names_namespace names) (names_prefix names).

Definition createAttributeNS (this : Ref) (namespace : string)
    (qualifiedName : string) : M Ref :=
  names <- liftThrown (Namespace_extractNames (Some namespace) qualifiedName) ;;
  new_Attr this (names_localName names) (names_namespace names) (names_prefix names)
    EmptyString.

End Collections.

End Document.

(** ** Notions used to state the properties *)

(** [sub] occurs in [s]. *)
Definition contains (s sub : string) : Prop :=
  exists pre post, s = (pre ++ sub ++ post)%string.

(** The tag of the object at [n], if there is one. *)
Definition tagOf (s : Store) (n : Ref) : option NodeType :=
  (fun o => nodeType (cls o)) <$> s !! n.

Definition parentOf (s : Store) (n : Ref) : option Ref :=
  s !! n ≫= _parentNode.

Definition ownerOf (s : Store) (n : Ref) : option Ref :=
  s !! n ≫= _ownerDocument.

(** [r] is the first node of [children] whose tag is [t], or null when no
    node of [children] has that tag. *)
Definition FirstChildOfType (s : Store) (t : NodeType) (children : list Ref)
    (r : option Ref) : Prop :=
  match r with
  | Some c =>
      exists pre post, children = pre ++ c :: post
        /\ tagOf s c = Some t
        /\ Forall (fun x => tagOf s x <> Some t) pre
  | None => Forall (fun x => tagOf s x <> Some t) children
  end.

(** Every reference of a list points to an object. *)
Definition allocated (s : Store) (l : list Ref) : Prop :=
  Forall (fun c => is_Some (s !! c)) l.

(** A stand-in for the lookups of an element, to run the delegation on. *)
Definition sampleElementLookup (e : Ref) (q : option string) : M (option string) :=
  fun s => (Ret (Some "found"), s).

(** *** Trees in the store *)

(** What a node is made of, leaving out the two back-references (parent and
    owner document). *)
Definition structure (o : NodeObj) : NodeClass * Payload * list Ref * list Ref :=
  (cls o, payload o, childNodes o, attributes o).

(** The tree below a node as a value: class and payload of the node, class
    and payload of its attributes in order, and the trees of its children in
    document order.  References, parents and owner documents are left out:
    two nodes with the same shape are equal in the sense of [isEqualNode],
    attribute order included. *)
Inductive Shape :=
| ShapeNode (c : NodeClass) (p : Payload) (attrs : list (NodeClass * Payload))
    (children : list Shape).

Fixpoint shape_of (fuel : nat) (s : Store) (n : Ref) : option Shape :=
  match fuel with
  | O => None
  | S f =>
      o ← s !! n;
      attrs ← mapM (fun a => (fun ao => (cls ao, payload ao)) <$> s !! a) (attributes o);
      children ← mapM (shape_of f s) (childNodes o);
      Some (ShapeNode (cls o) (payload o) attrs children)
  end.

(** The shape a clone has to have: the whole shape for a deep clone, the
    shape without the children for a shallow one. *)
Definition cloneShape (deep : bool) (t : Shape) : Shape :=
  if deep then t
  else match t with ShapeNode c p attrs _ => ShapeNode c p attrs [] end.

(** [x] is [n] or a descendant of [n]. *)
Inductive descendantOrSelf (s : Store) : Ref -> Ref -> Prop :=
| dos_self n : descendantOrSelf s n n
| dos_child n o k x :
    s !! n = Some o -> k ∈ childNodes o -> descendantOrSelf s k x ->
    descendantOrSelf s n x.

(** The references an owner-document walk over the subtree of [n] touches,
    in the order of the walk: each node, followed by its attributes when it
    is an element.  [None] when the subtree is deeper than [fuel] or holds a
    reference to no object. *)
Fixpoint subtreeRefs (fuel : nat) (s : Store) (n : Ref) : option (list Ref) :=
  match fuel with
  | O => None
  | S f =>
      o ← s !! n;
      if forallb (fun a => Nat.ltb a (length s)) (attributes o) then
        rest ← mapM (subtreeRefs f s) (childNodes o);
        Some (n :: (if decide (nodeType (cls o) = Element) then attributes o else [])
                ++ concat rest)
      else None
  end.

(** The store after the owner document of every object in [refs] has been
    set to [d]. *)
Definition reassignAll (d : Ref) (refs : list Ref) (s : Store) : Store :=
  imap (fun i o => if decide (i ∈ refs) then set_ownerDocument (Some d) o else o) s.

(** The store after [n] has been unlinked from its parent, if it has one. *)
Definition detach (s : Store) (n : Ref) : Store :=
  match s !! n with
  | Some o =>
      match _parentNode o with
      | Some p =>
          match s !! p with
          | Some po =>
              alter (set_parentNode None) n
                (<[p := set_childNodes (filter (fun c => c <> n) (childNodes po)) po]> s)
          | None => s
          end
      | None => s
      end
  | None => s
  end.

(** Every reference held by an object at an address in [lo, hi) stays in
    [lo, hi). *)
Definition closed_between (lo hi : nat) (s : Store) : Prop :=
  forall i o, lo <= i < hi -> s !! i = Some o ->
    Forall (fun r => lo <= r < hi) (childNodes o)
    /\ Forall (fun r => lo <= r < hi) (attributes o).

(** *** Valid trees

    The trees the mutation algorithm builds: every child is one that
    [appendChild] accepted after its elder siblings. *)

Section ValidTrees.

Variable permittedElsewhere : NodeType -> NodeType -> bool.

Definition appendable (parent : NodeType) (seen : list NodeType) (child : NodeType) : bool :=
  Node.permittedChild permittedElsewhere parent child
  && bool_decide (child <> DocumentFragment)
  && (if decide (parent = Document) then
        if decide (child = Element) then bool_decide (Element ∉ seen)
        else if decide (child = DocumentType) then bool_decide (DocumentType ∉ seen)
        else true
      else true).

Fixpoint valid_children (s : Store) (parent : NodeType) (seen : list NodeType)
    (l : list Ref) : bool :=
  match l with
  | [] => true
  | k :: rest =>
      match tagOf s k with
      | None => false
      | Some t => appendable parent seen t && valid_children s parent (seen ++ [t]) rest
      end
  end.

(** A Document object carries no payload and no attributes. *)
Definition plainDocument (o : NodeObj) : bool :=
  if decide (cls o = DocumentC)
  then bool_decide (payload o = NoData /\ attributes o = [])
  else true.

(** The subtree of [n] is valid and at most [h] levels deep. *)
Fixpoint valid_tree (s : Store) (h : nat) (n : Ref) : bool :=
  match h with
  | O => false
  | S h' =>
      match s !! n with
      | None => false
      | Some o =>
          plainDocument o
          && forallb (fun a => bool_decide (is_Some (s !! a))) (attributes o)
          && valid_children s (nodeType (cls o)) [] (childNodes o)
          && forallb (valid_tree s h') (childNodes o)
      end
  end.

End ValidTrees.

(** ** Document, the earlier revision

    The repository also holds an earlier revision of the class (the one
    importing from [./internal]).  Its getters, creation operations, the
    four unsupported [create*] operations and the namespace lookups read as
    above; [cloneNode], [importNode] and [adoptNode] differ. *)

Module EarlyDocument.

(** The first parameter of [cloneNode]: [Document | boolean | null]. *)
Inductive DocumentOrBoolean :=
| ADocument (d : Ref)
| ABoolean (b : bool)
| ANull.

(** [get ownerDocument()]: reads the field. *)
Definition ownerDocument (this : Ref) : M (option Ref) :=
  o <- getObj this ;; ret (_ownerDocument o).

(** [cloneNode(document = null, deep = false)]: after the arguments are
    sorted out, neither of them is read again. *)
Definition cloneNode (this : Ref) (document : DocumentOrBoolean) (deep : bool) : M Ref :=
  let '(document, deep) :=
    match document with
    | ABoolean b => (None, b)
    | ADocument d => (Some d, deep)
    | ANull => (None, deep)
    end in
  document <- match document with
              | Some d => ret (Some d)
              | None => ownerDocument this
              end ;;
  clonedSelf <- new_Document ;;
  modifyObj clonedSelf (set_parentNode None) ;;;
  ret clonedSelf.

Section Helpers.

(** [node.cloneNode(document, deep)] of the classes other than Document is
    not among the sources: a parameter. *)
Variable Node_cloneNode_into : Ref -> Ref -> bool -> M Ref.

(** [Utility.forEachDescendant(node, callback)] of this revision is not
    among the sources either.  It is taken to be the walk of
    [Node.forEachDescendant]; whether it calls [callback] on [node] itself
    cannot be read off the call, and is the parameter [self]. *)
Variable self : bool.

Definition importNode (this node : Ref) (deep : bool) : M Ref :=
  no <- getObj node ;;
  if decide (nodeType (cls no) = Document)
  then throw (DOMError NotSupportedError)
  else Node_cloneNode_into node this deep.

Definition adoptNode (fuel : nat) (this node : Ref) : M Ref :=
  no <- getObj node ;;
  if decide (nodeType (cls no) = Document)
  then throw (DOMError NotSupportedError)
  else
    oldDocument <- ownerDocument node ;;
    match _parentNode no with
    | Some p => Node.removeChild p node ;;; ret tt
    | None => ret tt
    end ;;;
    (if decide (Some this <> oldDocument) then
       modifyObj node (set_ownerDocument (Some this)) ;;;
       Node.forEachDescendant fuel node self (fun child =>
         modifyObj child (set_ownerDocument (Some this)) ;;;
         co <- getObj child ;;
         if decide (nodeType (cls co) = Element) then
           forEach (attributes co) (fun att =>
             modifyObj att (set_ownerDocument (Some this)))
         else ret tt)
     else ret tt) ;;;
    ret node.

End Helpers.

Section Collections.

(** [new HTMLCollection()] and the three [getElementsBy*] methods of an
    element are not among the sources: parameters. *)
Variable Collection : Type.
Variable emptyCollection : Collection.
Variable Element_getElementsByTagName : Ref -> string -> M Collection.
Variable Element_getElementsByTagNameNS : Ref -> string -> string -> M Collection.
Variable Element_getElementsByClassName : Ref -> string -> M Collection.

Definition getElementsByTagName (this : Ref) (qualifiedName : string) : M Collection :=
  de <- Document.documentElement this ;;
  match de with
  | Some _ =>
      Document.onDocumentElement this (fun e =>
        Element_getElementsByTagName e qualifiedName)
  | None => ret emptyCollection
  end.

Definition getElementsByTagNameNS (this : Ref) (namespace localName : string)
    : M Collection :=
  de <- Document.documentElement this ;;
  match de with
  | Some _ =>
      Document.onDocumentElement this (fun e =>
        Element_getElementsByTagNameNS e namespace localName)
  | None => ret emptyCollection
  end.

Definition getElementsByClassName (this : Ref) (classNames : string) : M Collection :=
  de <- Document.documentElement this ;;
  match de with
  | Some _ =>
      Document.onDocumentElement this (fun e =>
        Element_getElementsByClassName e classNames)
  | None => ret emptyCollection
  end.

End Collections.

End EarlyDocument.

(** *** Invariants of the clone algorithm *)

(** The copy [cloneNode] makes of an attribute object. *)
Definition copyOf (o : NodeObj) : NodeObj :=
  mkNode (cls o) None (_ownerDocument o) [] [] (payload o).

(** [s'] is [s] extended by a clone of the node [n] of [s0]: the clone sits
    at the first new address, detached; what was allocated for it refers to
    nothing outside; it has the shape of [n]; its children have it as parent
    and are, in order, clones of the children of [n] (none for a shallow
    clone). *)
Definition Cloned (s0 : Store) (n : Ref) (deep : bool) (s s' : Store) : Prop :=
  (exists ext, s' = s ++ ext)
  /\ closed_between (length s) (length s') s'
  /\ (exists o co, s0 !! n = Some o /\ s' !! length s = Some co
        /\ cls co = cls o /\ payload co = payload o /\ _parentNode co = None
        /\ _ownerDocument co
           = if decide (cls o = DocumentC) then None else _ownerDocument o)
  /\ (forall f t, shape_of f s0 n = Some t ->
        shape_of f s' (length s) = Some (cloneShape deep t))
  /\ (forall co, s' !! length s = Some co ->
        Forall (fun k => exists ko, s' !! k = Some ko
                  /\ _parentNode ko = Some (length s)) (childNodes co))
  /\ (forall o co, s0 !! n = Some o -> s' !! length s = Some co ->
        Forall2 (fun k k' => forall f t, shape_of f s0 k = Some t ->
                   shape_of f s' k' = Some (cloneShape deep t))
          (if deep then childNodes o else []) (childNodes co)).

(** The state of the loop that clones the children: the clone [co] under
    construction sits right after [s], followed by what was allocated for
    it so far; [done] are the children already cloned. *)
Definition CloneInv (s0 : Store) (deep : bool) (s : Store) (co : NodeObj)
    (region : list NodeObj) (done : list Ref) : Prop :=
  _parentNode co = None
  /\ closed_between (S (length s)) (length (s ++ co :: region)) (s ++ co :: region)
  /\ Forall (fun r => length s < r < length (s ++ co :: region)) (childNodes co)
  /\ omap (tagOf (s ++ co :: region)) (childNodes co) = omap (tagOf s0) done
  /\ Forall2 (fun k k' => forall f t, shape_of f s0 k = Some t ->
                shape_of f (s ++ co :: region) k' = Some (cloneShape deep t))
       done (childNodes co)
  /\ Forall (fun k => exists ko, (s ++ co :: region) !! k = Some ko
                /\ _parentNode ko = Some (length s)) (childNodes co).

(** *** Sample data *)

(** A table of permitted children for the parents other than a Document:
    an element takes elements and character data, a fragment as well. *)
Definition sampleTable (parent child : NodeType) : bool :=
  match parent, child with
  | (Element | DocumentFragment),
    (Element | Text | CDATASection | Comment | ProcessingInstruction) => true
  | _, _ => false
  end.

(** Two documents.  Document 0 holds a doctype and the element [root] with
    the attribute [id], a text and an empty element; document 6 is empty. *)
Definition sampleStore : Store :=
  [ mkNode DocumentC None None [1; 2] [] NoData;
    mkNode DocumentTypeC (Some 0) (Some 0) [] [] NoData;
    mkNode ElementC (Some 0) (Some 0) [4; 5] [3] (ElementData None None "root");
    mkNode AttrC None (Some 0) [] [] (AttrData None None "id" "x");
    mkNode TextC (Some 2) (Some 0) [] [] (CharacterData "hi");
    mkNode ElementC (Some 2) (Some 0) [] [] (ElementData None None "b");
    mkNode DocumentC None None [] [] NoData ].

(** A document with an element hosting a shadow root, and a second
    document. *)
Definition sampleShadowStore : Store :=
  [ mkNode DocumentC None None [1] [] NoData;
    mkNode ElementC (Some 0) (Some 0) [] [] (ElementData None None "host");
    mkNode ShadowRootC None (Some 0) [] [] NoData;
    mkNode DocumentC None None [] [] NoData ].

(** *** Notions used to state the further properties *)

(** What a creation operation may do to the store [s]: throw and leave it
    as it is, or place one new object at the next address, detached, owned
    by the document, without children or attributes. *)
Definition FactoryResult (this : Ref) (s : Store) (res : Outcome Ref * Store) : Prop :=
  (exists e, res = (Throw e, s))
  \/ (exists o, res = (Ret (length s), s ++ [o])
        /\ _parentNode o = None
        /\ _ownerDocument o = Some this
        /\ childNodes o = []
        /\ attributes o = []).

(** A splitting of qualified names to run the namespace-aware creations on:
    it rejects the empty name and otherwise puts the name in the namespace
    it is given, without prefix. *)
Definition sampleExtractNames (namespace : option string) (qualifiedName : string)
    : Thrown + Document.Names :=
  match qualifiedName with
  | EmptyString => inl (DOMError InvalidCharacterError)
  | _ => inr (Document.mkNames namespace None qualifiedName)
  end.

(** An operation that ended with [res] has not changed the roots of the
    document [d]: however it ended, the root getters answer in the store it
    left as they answered in the store [s] it started from. *)
Definition KeepsRoots {A} (d : Ref) (s : Store) (res : Outcome A * Store) : Prop :=
  exists de dt,
    Document.documentElement d s = (Ret de, s)
    /\ Document.documentElement d (snd res) = (Ret de, snd res)
    /\ Document.doctype d s = (Ret dt, s)
    /\ Document.doctype d (snd res) = (Ret dt, snd res).

(** A root [r'] read from a cloned document against the root [r] read from
    the original: both null, or [r'] is a new node below the clone (which
    sits at address [length s]) with the shape of [r]. *)
Definition RootCloned (s s' : Store) (r r' : option Ref) : Prop :=
  match r, r' with
  | None, None => True
  | Some e, Some e' =>
      length s <= e'
      /\ parentOf s' e' = Some (length s)
      /\ forall f t, shape_of f s e = Some t -> shape_of f s' e' = Some t
  | _, _ => False
  end.

(** A stand-in for the three collection methods of an element, to run the
    delegation on: the collection holds the element that was asked. *)
Definition sampleElementCollection (e : Ref) : M (list Ref) :=
  fun s => (Ret [e], s).

(** * Part II: lemmas and theorems *)

(** ** Strings and names *)

Lemma append_String a s1 s2 :
  (String a s1 ++ s2)%string = String a (s1 ++ s2)%string.
Proof. reflexivity. Qed.

Lemma append_Empty s : (EmptyString ++ s)%string = s.
Proof. reflexivity. Qed.

Lemma startsWith_spec s p :
  JSString.startsWith s p = true <-> exists post, s = (p ++ post)%string.
Proof.
  revert s. induction p as [|a p IH]; intros s; simpl.
  - split; [intros _; exists s; reflexivity | reflexivity].
  - destruct s as [|b s]; simpl.
    + split; [discriminate | intros [post H]; discriminate].
    + destruct (Ascii.eqb a b) eqn:E.
      * apply Ascii.eqb_eq in E. subst b. rewrite IH.
        split; intros [post H]; exists post;
          rewrite append_String in *; congruence.
      * apply Ascii.eqb_neq in E.
        split; [discriminate | intros [post H]; rewrite append_String in H; congruence].
Qed.

Lemma includes_spec s sub :
  JSString.includes s sub = true <-> contains s sub.
Proof.
  unfold contains. induction s as [|b s IH]; simpl.
  - rewrite orb_false_r, startsWith_spec. split.
    + intros [post H]. exists EmptyString, post. exact H.
    + intros [pre [post H]]. destruct pre.
      * exists post. exact H.
      * discriminate.
  - rewrite orb_true_iff, startsWith_spec, IH. split.
    + intros [[post H] | [pre [post H]]].
      * exists EmptyString, post. exact H.
      * exists (String b pre), post. rewrite append_String. congruence.
    + intros [pre [post H]]. destruct pre as [|c pre].
      * left. exists post. exact H.
      * right. exists pre, post. rewrite append_String in H. congruence.
Qed.

Lemma includes_false s sub :
  JSString.includes s sub = false <-> ~ contains s sub.
Proof.
  rewrite <- includes_spec. destruct (JSString.includes s sub); split; congruence.
Qed.

Lemma allNameChar_app s1 s2 :
  XMLSpec.allNameChar (s1 ++ s2)%string
  = XMLSpec.allNameChar s1 && XMLSpec.allNameChar s2.
Proof.
  induction s1 as [|c s1 IH]; [reflexivity|].
  rewrite append_String. simpl. rewrite IH. apply andb_assoc.
Qed.

Lemma Name_allNameChar s : XMLSpec.Name s = true -> XMLSpec.allNameChar s = true.
Proof.
  destruct s as [|c s]; simpl; [discriminate|].
  intros [H1 H2]%andb_true_iff. unfold XMLSpec.NameChar. rewrite H1, H2.
  reflexivity.
Qed.

(** A string holding a character outside the name characters (a space, say)
    is not a name, wherever the character stands. *)
Lemma Name_rejects_char pre c post :
  XMLSpec.NameChar c = false -> XMLSpec.Name (pre ++ String c post)%string = false.
Proof.
  intros Hc. destruct (XMLSpec.Name (pre ++ String c post)%string) eqn:E; [|reflexivity].
  apply Name_allNameChar in E. rewrite allNameChar_app in E. simpl in E.
  rewrite Hc in E. simpl in E. rewrite andb_false_r in E. discriminate.
Qed.

(** ** The creation operations *)

(** C3: a name argument that is not a Name makes [createElement] and
    [createAttribute] fail with InvalidCharacterError, and the store is left
    as it was: no node is created.  [createElement("in valid")] is such a
    call. *)
Theorem create_rejects_invalid_name (this : Ref) (localName : string) (s : Store) :
  XMLSpec.Name localName = false ->
  Document.createElement this localName s
    = (Throw (DOMError InvalidCharacterError), s)
  /\ Document.createAttribute this localName s
    = (Throw (DOMError InvalidCharacterError), s)
  /\ Document.createElement this "in valid" s
    = (Throw (DOMError InvalidCharacterError), s).
Proof.
  intros H. unfold Document.createElement, Document.createAttribute.
  rewrite H. simpl. repeat split.
Qed.

Lemma create_rejects_invalid_name_witness :
  XMLSpec.Name "9lives" = false
  /\ Document.createElement 0 "9lives" []
       = (Throw (DOMError InvalidCharacterError), [])
  /\ Document.createAttribute 0 "9lives" []
       = (Throw (DOMError InvalidCharacterError), [])
  /\ Document.createElement 0 "in valid" []
       = (Throw (DOMError InvalidCharacterError), []).
Proof.
  split; [reflexivity|].
  apply (create_rejects_invalid_name 0 "9lives" []). reflexivity.
Defined.

(** A well-formed name is accepted: the checks are not vacuous. *)
Lemma createElement_accepts (this : Ref) (localName : string) (s : Store) :
  XMLSpec.Name localName = true ->
  Document.createElement this localName s
  = (Ret (length s),
     s ++ [mkNode ElementC None (Some this) [] [] (ElementData None None localName)]).
Proof.
  intros H. unfold Document.createElement. rewrite H. reflexivity.
Qed.

(** C8: [createCDATASection(data)] fails with InvalidCharacterError exactly
    when [data] contains the terminator; otherwise a new CDATASection node
    is allocated, detached, owned by the document and holding [data]. *)
Theorem createCDATASection_spec (this : Ref) (data : string) (s : Store) :
  (Document.createCDATASection this data s
     = (Throw (DOMError InvalidCharacterError), s)
   <-> contains data "]]>")
  /\ (~ contains data "]]>" ->
      Document.createCDATASection this data s
      = (Ret (length s),
         s ++ [mkNode CDATASectionC None (Some this) [] [] (CharacterData data)])).
Proof.
  unfold Document.createCDATASection. split.
  - rewrite <- includes_spec.
    destruct (JSString.includes data "]]>"); simpl.
    + split; reflexivity.
    + split; [|discriminate]. unfold new_CDATASection, alloc. intros H. discriminate.
  - intros H. apply includes_false in H. rewrite H. reflexivity.
Qed.

Lemma createCDATASection_spec_witness :
  (Document.createCDATASection 0 "a]]>b" []
     = (Throw (DOMError InvalidCharacterError), [])
   <-> contains "a]]>b" "]]>")
  /\ (~ contains "a]]b" "]]>" ->
      Document.createCDATASection 0 "a]]b" []
      = (Ret 0, [mkNode CDATASectionC None (Some 0) [] [] (CharacterData "a]]b")])).
Proof.
  split.
  - apply (createCDATASection_spec 0 "a]]>b" []).
  - apply (createCDATASection_spec 0 "a]]b" []).
Defined.

(** C9: [createProcessingInstruction(target, data)] fails with
    InvalidCharacterError when [target] is not a Name or [data] contains the
    terminator; otherwise a new detached ProcessingInstruction node with that
    target and data is allocated. *)
Theorem createProcessingInstruction_spec (this : Ref) (target data : string) (s : Store) :
  (XMLSpec.Name target = false \/ contains data "?>" ->
     Document.createProcessingInstruction this target data s
     = (Throw (DOMError InvalidCharacterError), s))
  /\ (XMLSpec.Name target = true -> ~ contains data "?>" ->
     Document.createProcessingInstruction this target data s
     = (Ret (length s),
        s ++ [mkNode ProcessingInstructionC None (Some this) [] []
                (ProcessingInstructionData target data)])).
Proof.
  unfold Document.createProcessingInstruction. split.
  - intros [H | H].
    + rewrite H. reflexivity.
    + apply includes_spec in H. rewrite H.
      destruct (XMLSpec.Name target); reflexivity.
  - intros H1 H2. apply includes_false in H2. rewrite H1, H2. reflexivity.
Qed.

Lemma createProcessingInstruction_spec_witness :
  (XMLSpec.Name "xml-stylesheet" = true /\ ~ contains "href" "?>")
  /\ Document.createProcessingInstruction 0 "xml-stylesheet" "href" []
     = (Ret 0, [mkNode ProcessingInstructionC None (Some 0) [] []
                  (ProcessingInstructionData "xml-stylesheet" "href")])
  /\ Document.createProcessingInstruction 0 "xml-stylesheet" "a?>b" []
     = (Throw (DOMError InvalidCharacterError), []).
Proof.
  assert (H1 : XMLSpec.Name "xml-stylesheet" = true) by reflexivity.
  assert (H2 : ~ contains "href" "?>") by (apply includes_false; reflexivity).
  assert (H3 : contains "a?>b" "?>") by (apply includes_spec; reflexivity).
  split; [split; assumption|]. split.
  - apply (createProcessingInstruction_spec 0 "xml-stylesheet" "href" []); assumption.
  - apply (createProcessingInstruction_spec 0 "xml-stylesheet" "a?>b" []).
    right. exact H3.
Defined.

(** ** The unsupported surface and id lookup *)

(** C10: [getElementById] answers null for every id, whatever the store
    holds, and changes nothing. *)
Theorem getElementById_null (this : Ref) (elementId : string) (s : Store) :
  Document.getElementById this elementId s = (Ret None, s).
Proof. reflexivity. Qed.

(** An element carrying an [id] attribute is still not found. *)
Example getElementById_ignores_id_attribute :
  let s := [ mkNode DocumentC None None [1] [] NoData;
             mkNode ElementC (Some 0) (Some 0) [] [2] (ElementData None None "a");
             mkNode AttrC None (Some 0) [] [] (AttrData None None "id" "x") ] in
  Document.getElementById 0 "x" s = (Ret None, s).
Proof. reflexivity. Qed.

(** C4: the code departs from the claim on [querySelector] and
    [querySelectorAll].  The four [create*] operations throw
    NotSupportedError on every input, as the claim says.  The two selector
    methods never return a value either, but on every input what they throw
    is the empty string, the placeholder of the members that are not
    implemented, and not NotSupportedError. *)
Theorem unsupported_surface (this root : Ref) (str : string) (whatToShow : nat)
    (filter : option Ref) (s : Store) :
  Document.createEvent this str s = (Throw (DOMError NotSupportedError), s)
  /\ Document.createRange this s = (Throw (DOMError NotSupportedError), s)
  /\ Document.createNodeIterator this root whatToShow filter s
     = (Throw (DOMError NotSupportedError), s)
  /\ Document.createTreeWalker this root whatToShow filter s
     = (Throw (DOMError NotSupportedError), s)
  /\ Document.querySelector this str s = (Throw (ThrownString EmptyString), s)
  /\ Document.querySelectorAll this str s = (Throw (ThrownString EmptyString), s)
  /\ fst (Document.querySelector this str s) <> Throw (DOMError NotSupportedError)
  /\ fst (Document.querySelectorAll this str s) <> Throw (DOMError NotSupportedError)
  /\ (forall v, fst (Document.querySelector this str s) <> Ret v)
  /\ (forall v, fst (Document.querySelectorAll this str s) <> Ret v).
Proof.
  repeat split; try (intros H; discriminate H); intros v H; discriminate H.
Qed.

(** The failing call [document.querySelector("div")] on an empty document. *)
Lemma querySelector_not_NotSupportedError :
  Document.querySelector 0 "div" [mkNode DocumentC None None [] [] NoData]
  = (Throw (ThrownString EmptyString), [mkNode DocumentC None None [] [] NoData])
  /\ fst (Document.querySelector 0 "div" [mkNode DocumentC None None [] [] NoData])
     <> Throw (DOMError NotSupportedError).
Proof. split; [reflexivity|]. intros H. discriminate H. Qed.

(** ** documentElement and doctype *)

Lemma getObj_Some s n o : s !! n = Some o -> getObj n s = (Ret o, s).
Proof. intros H. unfold getObj. rewrite H. reflexivity. Qed.

Lemma tagOf_Some s n o : s !! n = Some o -> tagOf s n = Some (nodeType (cls o)).
Proof. intros H. unfold tagOf. rewrite H. reflexivity. Qed.

Lemma documentElement_loop_spec s children :
  allocated s children ->
  exists r, Document.documentElement_loop children s = (Ret r, s)
            /\ FirstChildOfType s Element children r.
Proof.
  induction 1 as [|c rest [o Ho] _ IH]; simpl.
  - exists None. split; [reflexivity | constructor].
  - unfold bind. rewrite (getObj_Some _ _ _ Ho).
    destruct (decide (nodeType (cls o) = Element)) as [E|E].
    + exists (Some c). split; [reflexivity|].
      exists [], rest. repeat split; [|constructor].
      rewrite (tagOf_Some _ _ _ Ho), E. reflexivity.
    + destruct IH as [r [Hr Hf]]. exists r. split; [exact Hr|].
      assert (Hc : tagOf s c <> Some Element)
        by (rewrite (tagOf_Some _ _ _ Ho); congruence).
      destruct r as [e|]; simpl in *.
      * destruct Hf as [pre [post [-> [H1 H2]]]].
        exists (c :: pre), post. repeat split; [exact H1|].
        constructor; assumption.
      * constructor; assumption.
Qed.

Lemma doctype_loop_spec s children :
  allocated s children ->
  exists r, Document.doctype_loop children s = (Ret r, s)
            /\ FirstChildOfType s DocumentType children r.
Proof.
  induction 1 as [|c rest [o Ho] _ IH]; simpl.
  - exists None. split; [reflexivity | constructor].
  - unfold bind. rewrite (getObj_Some _ _ _ Ho).
    destruct (decide (nodeType (cls o) = DocumentType)) as [E|E].
    + exists (Some c). split; [reflexivity|].
      exists [], rest. repeat split; [|constructor].
      rewrite (tagOf_Some _ _ _ Ho), E. reflexivity.
    + destruct IH as [r [Hr Hf]]. exists r. split; [exact Hr|].
      assert (Hc : tagOf s c <> Some DocumentType)
        by (rewrite (tagOf_Some _ _ _ Ho); congruence).
      destruct r as [e|]; simpl in *.
      * destruct Hf as [pre [post [-> [H1 H2]]]].
        exists (c :: pre), post. repeat split; [exact H1|].
        constructor; assumption.
      * constructor; assumption.
Qed.

(** The first child with a given tag is unique: the getters are functions of
    the store. *)
Lemma FirstChildOfType_unique s t children r1 r2 :
  FirstChildOfType s t children r1 -> FirstChildOfType s t children r2 -> r1 = r2.
Proof.
  revert r1 r2. induction children as [|c rest IH]; intros r1 r2 H1 H2.
  - destruct r1 as [a|], r2 as [b|]; simpl in *; try reflexivity.
    + destruct H1 as [pre [post [H _]]]. destruct pre; discriminate.
    + destruct H1 as [pre [post [H _]]]. destruct pre; discriminate.
    + destruct H2 as [pre [post [H _]]]. destruct pre; discriminate.
  - assert (Hstep : forall r, FirstChildOfType s t (c :: rest) r ->
              (tagOf s c = Some t /\ r = Some c)
              \/ (tagOf s c <> Some t /\ FirstChildOfType s t rest r)).
    { intros [a|]; simpl.
      - intros [pre [post [Hl [Ht Hp]]]]. destruct pre as [|x pre]; simpl in Hl.
        + injection Hl as -> ->. left. split; [exact Ht | reflexivity].
        + injection Hl as -> ->. inversion Hp; subst. right. split; [assumption|].
          exists pre, post. repeat split; assumption.
      - intros Hf. inversion Hf; subst. right. split; assumption. }
    destruct (Hstep _ H1) as [[Ha ->] | [Ha H1']], (Hstep _ H2) as [[Hb ->] | [Hb H2']];
      try reflexivity; try contradiction.
    apply IH; assumption.
Qed.

Lemma documentElement_run (s : Store) (this : Ref) (o : NodeObj) :
  s !! this = Some o ->
  allocated s (childNodes o) ->
  exists r, Document.documentElement this s = (Ret r, s)
            /\ FirstChildOfType s Element (childNodes o) r.
Proof.
  intros Ho Hc. unfold Document.documentElement, bind.
  rewrite (getObj_Some _ _ _ Ho). apply documentElement_loop_spec, Hc.
Qed.

Lemma doctype_run (s : Store) (this : Ref) (o : NodeObj) :
  s !! this = Some o ->
  allocated s (childNodes o) ->
  exists r, Document.doctype this s = (Ret r, s)
            /\ FirstChildOfType s DocumentType (childNodes o) r.
Proof.
  intros Ho Hc. unfold Document.doctype, bind.
  rewrite (getObj_Some _ _ _ Ho). apply doctype_loop_spec, Hc.
Qed.

(** C6: on every store, [documentElement] returns the first child whose tag
    is Element and [doctype] the first child whose tag is DocumentType, null
    when there is none, and the access leaves the store as it is.  Nothing
    is cached: run after any computation [m], the getters answer from the
    child list of the store [m] left behind. *)
Theorem documentElement_doctype_spec {A : Type} (m : M A) (a : A)
    (s s' : Store) (this : Ref) (o : NodeObj) :
  m s = (Ret a, s') ->
  s' !! this = Some o ->
  allocated s' (childNodes o) ->
  (exists r, Document.documentElement this s' = (Ret r, s')
             /\ (m ;;; Document.documentElement this)%dom s = (Ret r, s')
             /\ FirstChildOfType s' Element (childNodes o) r)
  /\ (exists r, Document.doctype this s' = (Ret r, s')
                /\ (m ;;; Document.doctype this)%dom s = (Ret r, s')
                /\ FirstChildOfType s' DocumentType (childNodes o) r).
Proof.
  intros Hm Ho Hc. split.
  - destruct (documentElement_run s' this o Ho Hc) as (r & Hr & Hf).
    exists r. split; [exact Hr|]. split; [|exact Hf].
    unfold bind at 1. rewrite Hm. exact Hr.
  - destruct (doctype_run s' this o Ho Hc) as (r & Hr & Hf).
    exists r. split; [exact Hr|]. split; [|exact Hf].
    unfold bind at 1. rewrite Hm. exact Hr.
Qed.

Ltac solve_allocated :=
  unfold allocated; repeat constructor; eexists; reflexivity.

(** Appending the element [root] to a document that holds a comment and a
    doctype: afterwards [documentElement] answers with that element. *)
Lemma documentElement_doctype_spec_witness :
  let s := [ mkNode DocumentC None None [1; 2] [] NoData;
             mkNode CommentC (Some 0) (Some 0) [] [] (CharacterData "c");
             mkNode DocumentTypeC (Some 0) (Some 0) [] [] NoData;
             mkNode ElementC None (Some 0) [] [] (ElementData None None "root") ] in
  let o := mkNode DocumentC None None [1; 2; 3] [] NoData in
  let s' := [ o;
              mkNode CommentC (Some 0) (Some 0) [] [] (CharacterData "c");
              mkNode DocumentTypeC (Some 0) (Some 0) [] [] NoData;
              mkNode ElementC (Some 0) (Some 0) [] [] (ElementData None None "root") ] in
  (Node.appendChild sampleTable 1 0 3 s = (Ret 3, s')
   /\ s' !! 0 = Some o /\ allocated s' (childNodes o))
  /\ fst (Document.documentElement 0 s) = Ret None
  /\ (exists r, Document.documentElement 0 s' = (Ret r, s')
         /\ (Node.appendChild sampleTable 1 0 3 ;;; Document.documentElement 0)%dom s
            = (Ret r, s')
         /\ FirstChildOfType s' Element (childNodes o) r)
  /\ (exists r, Document.doctype 0 s' = (Ret r, s')
         /\ (Node.appendChild sampleTable 1 0 3 ;;; Document.doctype 0)%dom s
            = (Ret r, s')
         /\ FirstChildOfType s' DocumentType (childNodes o) r).
Proof.
  intros s o s'.
  assert (H0 : Node.appendChild sampleTable 1 0 3 s = (Ret 3, s')) by reflexivity.
  assert (H1 : s' !! 0 = Some o) by reflexivity.
  assert (H2 : allocated s' (childNodes o)) by solve_allocated.
  split; [repeat split; assumption|].
  split; [reflexivity|].
  apply (documentElement_doctype_spec (Node.appendChild sampleTable 1 0 3) 3 s s' 0 o
           H0 H1 H2).
Defined.

(** The getters follow the tree: the same document answers differently once
    its child list has changed. *)
Example documentElement_after_mutation :
  let s0 := [ mkNode DocumentC None None [] [] NoData;
              mkNode ElementC None (Some 0) [] [] (ElementData None None "root") ] in
  fst (Document.documentElement 0 s0) = Ret None
  /\ fst ((Node.appendChild (fun _ _ => true) 1 0 1 ;;; Document.documentElement 0)%dom s0)
     = Ret (Some 1).
Proof. split; reflexivity. Qed.

(** ** Namespace lookups on the document *)

Lemma truthy_false ns :
  JSString.truthy ns = false <-> ns = None \/ ns = Some EmptyString.
Proof.
  destruct ns as [[|c r]|]; simpl; split; intros H; try discriminate; auto.
  - destruct H as [H|H]; discriminate.
Qed.

(** C7: on a Document, [lookupPrefix] returns null at once for a null or
    empty namespace.  Otherwise [lookupPrefix], and in every case
    [lookupNamespaceURI] (with an empty prefix turned into null), hand the
    question to the documentElement, and answer null when the document has
    none. *)
Theorem Document_lookup_delegates
    (Element_lookupPrefix Element_lookupNamespaceURI :
       Ref -> option string -> M (option string))
    (s : Store) (this : Ref) (o : NodeObj) (namespace prefix : option string) :
  s !! this = Some o ->
  allocated s (childNodes o) ->
  (namespace = None \/ namespace = Some EmptyString ->
     Document.lookupPrefix Element_lookupPrefix this namespace s = (Ret None, s))
  /\ exists de, FirstChildOfType s Element (childNodes o) de
     /\ (JSString.truthy namespace = true ->
           Document.lookupPrefix Element_lookupPrefix this namespace s
           = match de with
             | Some e => Element_lookupPrefix e namespace s
             | None => (Ret None, s)
             end)
     /\ Document.lookupNamespaceURI Element_lookupNamespaceURI this prefix s
        = match de with
          | Some e =>
              Element_lookupNamespaceURI e
                (if JSString.truthy prefix then prefix else None) s
          | None => (Ret None, s)
          end.
Proof.
  intros Ho Hc. split.
  - intros H. apply truthy_false in H. unfold Document.lookupPrefix.
    rewrite H. reflexivity.
  - destruct (documentElement_run s this o Ho Hc) as [de [Hde Hf]].
    exists de. split; [exact Hf|]. split.
    + intros Ht. unfold Document.lookupPrefix, Document.onDocumentElement, bind.
      rewrite Ht. simpl. rewrite Hde. destruct de; [rewrite Hde|]; reflexivity.
    + unfold Document.lookupNamespaceURI, Document.onDocumentElement, bind.
      rewrite Hde.
      destruct de; [rewrite Hde|]; destruct (JSString.truthy prefix); reflexivity.
Qed.

Lemma Document_lookup_delegates_witness :
  let o := mkNode DocumentC None None [1] [] NoData in
  let s := [ o; mkNode ElementC (Some 0) (Some 0) [] [] (ElementData None None "root") ] in
  (s !! 0 = Some o /\ allocated s (childNodes o))
  /\ Document.lookupPrefix sampleElementLookup 0 (Some EmptyString) s = (Ret None, s)
  /\ Document.lookupPrefix sampleElementLookup 0 (Some "urn:x") s = (Ret (Some "found"), s)
  /\ Document.lookupNamespaceURI sampleElementLookup 0 (Some "p") s = (Ret (Some "found"), s).
Proof.
  intros o s.
  assert (H1 : s !! 0 = Some o) by reflexivity.
  assert (H2 : allocated s (childNodes o)) by solve_allocated.
  split; [split; assumption|].
  destruct (Document_lookup_delegates sampleElementLookup sampleElementLookup
              s 0 o (Some EmptyString) (Some "p") H1 H2) as [Ha _].
  destruct (Document_lookup_delegates sampleElementLookup sampleElementLookup
              s 0 o (Some "urn:x") (Some "p") H1 H2) as [_ [de [Hde [Hb Hc]]]].
  split; [apply Ha; right; reflexivity|].
  split; reflexivity.
Defined.

(** ** The store: reading, writing, allocating *)

Lemma bind_Ret {A B} (m : M A) (k : A -> M B) s a s' :
  m s = (Ret a, s') -> bind m k s = k a s'.
Proof. intros H. unfold bind. rewrite H. reflexivity. Qed.

Lemma modifyObj_Some s n o f :
  s !! n = Some o -> modifyObj n f s = (Ret tt, <[n := f o]> s).
Proof. intros H. unfold modifyObj. rewrite H. reflexivity. Qed.

Lemma structure_eq o o' :
  structure o = structure o' ->
  cls o = cls o' /\ payload o = payload o'
  /\ childNodes o = childNodes o' /\ attributes o = attributes o'.
Proof. unfold structure. intros H. injection H as -> -> -> ->. auto. Qed.

Lemma structure_set_parentNode p o : structure (set_parentNode p o) = structure o.
Proof. reflexivity. Qed.

Lemma structure_set_ownerDocument d o : structure (set_ownerDocument d o) = structure o.
Proof. reflexivity. Qed.

(** ** appendChild on a freshly made pair *)

Lemma isInclusiveAncestor_root fuel s node n o :
  node <> n -> s !! n = Some o -> _parentNode o = None ->
  Node.isInclusiveAncestor fuel node n s = (Ret false, s).
Proof.
  intros Hne Ho Hp.
  destruct fuel; simpl; (destruct (decide (node = n)); [contradiction|]);
    unfold bind; rewrite (getObj_Some _ _ _ Ho), Hp; reflexivity.
Qed.

Lemma hasChildOfType_false s t l :
  allocated s l -> Forall (fun x => tagOf s x <> Some t) l ->
  Node.hasChildOfType t l s = (Ret false, s).
Proof.
  induction 1 as [|c rest [o Ho] _ IH]; intros Hf; simpl; [reflexivity|].
  inversion Hf as [|? ? Hc Hrest]; subst.
  unfold bind. rewrite (getObj_Some _ _ _ Ho).
  rewrite (tagOf_Some _ _ _ Ho) in Hc.
  destruct (decide (nodeType (cls o) = t)) as [E|E]; [congruence|].
  apply IH, Hrest.
Qed.

Section Append.

Variable T : NodeType -> NodeType -> bool.

(** Appending a detached node that is not a fragment to a detached parent
    that accepts it links the two and touches nothing else. *)
Lemma appendChild_fresh fuel s c ch co cho :
  s !! c = Some co -> s !! ch = Some cho -> c <> ch ->
  _parentNode co = None -> _parentNode cho = None ->
  allocated s (childNodes co) ->
  appendable T (nodeType (cls co)) (omap (tagOf s) (childNodes co)) (nodeType (cls cho)) = true ->
  Node.appendChild T fuel c ch s
  = (Ret ch,
     <[c := set_childNodes (childNodes co ++ [ch]) co]>
       (<[ch := set_parentNode (Some c) cho]> s)).
Proof.
  intros Hc Hch Hne Hpc Hpch Hall Happ.
  unfold appendable in Happ.
  apply andb_true_iff in Happ as [Happ Hdoc].
  apply andb_true_iff in Happ as [Hperm Hfrag].
  apply bool_decide_eq_true in Hfrag.
  assert (Hseen : forall t, t ∉ omap (tagOf s) (childNodes co) ->
            Forall (fun x => tagOf s x <> Some t) (childNodes co)).
  { intros t Ht. apply Forall_forall. intros x Hx E. apply Ht.
    apply list_elem_of_omap. exists x. split; assumption. }
  assert (Hvalid : Node.ensurePreInsertionValidity T fuel ch c s = (Ret tt, s)).
  { unfold Node.ensurePreInsertionValidity, bind.
    rewrite (isInclusiveAncestor_root fuel s ch c co); [|congruence|assumption..].
    rewrite (getObj_Some _ _ _ Hc), (getObj_Some _ _ _ Hch), Hperm. simpl.
    destruct (decide (nodeType (cls co) = Document)) as [Ed|Ed]; [|reflexivity].
    destruct (decide (nodeType (cls cho) = Element)) as [Ee|Ee].
    - apply bool_decide_eq_true in Hdoc.
      rewrite (hasChildOfType_false _ _ _ Hall (Hseen _ Hdoc)). reflexivity.
    - destruct (decide (nodeType (cls cho) = DocumentType)) as [Et|Et]; [|reflexivity].
      apply bool_decide_eq_true in Hdoc.
      rewrite (hasChildOfType_false _ _ _ Hall (Hseen _ Hdoc)). reflexivity. }
  unfold Node.appendChild, bind. rewrite Hvalid.
  rewrite (getObj_Some _ _ _ Hch), Hpch. unfold ret at 1.
  destruct (decide (nodeType (cls cho) = DocumentFragment)) as [Ef|Ef]; [contradiction|].
  unfold Node.linkLast, bind.
  rewrite (modifyObj_Some _ _ _ _ Hch).
  assert (Hc' : <[ch := set_parentNode (Some c) cho]> s !! c = Some co).
  { rewrite list_lookup_insert_ne; [exact Hc | congruence]. }
  rewrite (modifyObj_Some _ _ _ _ Hc'). reflexivity.
Qed.

End Append.

(** ** Shapes only depend on the structure of a closed region *)

Lemma mapM_Forall_eq {A B} (f g : A -> option B) l :
  Forall (fun x => f x = g x) l -> mapM f l = mapM g l.
Proof.
  induction 1 as [|x l Hx _ IH]; [reflexivity|].
  simpl. rewrite Hx, IH. reflexivity.
Qed.

Lemma struct_agree_Some (s s' : Store) i o :
  structure <$> s' !! i = structure <$> s !! i -> s !! i = Some o ->
  exists o', s' !! i = Some o' /\ cls o' = cls o /\ payload o' = payload o
             /\ childNodes o' = childNodes o /\ attributes o' = attributes o.
Proof.
  intros H Ho. rewrite Ho in H. destruct (s' !! i) as [o'|]; [|discriminate].
  exists o'. split; [reflexivity|]. apply structure_eq. simpl in H. congruence.
Qed.

Lemma struct_agree_None (s s' : Store) i :
  structure <$> s' !! i = structure <$> s !! i -> s !! i = None -> s' !! i = None.
Proof.
  intros H Ho. rewrite Ho in H. destruct (s' !! i); [discriminate|reflexivity].
Qed.

Lemma lookup_cases (s : Store) i : (exists o, s !! i = Some o) \/ s !! i = None.
Proof. destruct (s !! i) as [o|]; eauto. Qed.

Lemma closed_between_weaken lo hi lo' hi' s :
  closed_between lo hi s -> lo' <= lo -> hi <= hi' ->
  forall i o, lo <= i < hi -> s !! i = Some o ->
    Forall (fun r => lo' <= r < hi') (childNodes o)
    /\ Forall (fun r => lo' <= r < hi') (attributes o).
Proof.
  intros Hcl Hlo Hhi i o Hi Ho. destruct (Hcl i o Hi Ho) as [H1 H2].
  split; eapply Forall_impl; eauto; simpl; intros; lia.
Qed.

Lemma closed_between_join lo mid hi s :
  lo <= mid <= hi ->
  closed_between lo mid s -> closed_between mid hi s -> closed_between lo hi s.
Proof.
  intros Hm H1 H2 i o Hi Ho. destruct (decide (i < mid)).
  - eapply (closed_between_weaken lo mid lo hi); eauto; lia.
  - eapply (closed_between_weaken mid hi lo hi); eauto; lia.
Qed.

(** A region that is closed stays closed when the structure of its objects
    stays. *)
Lemma closed_between_stable lo hi s s' :
  closed_between lo hi s ->
  (forall i, lo <= i < hi -> structure <$> s' !! i = structure <$> s !! i) ->
  closed_between lo hi s'.
Proof.
  intros Hcl Hst i o' Hi Ho'. specialize (Hst i Hi).
  destruct (lookup_cases s i) as [[o Ho]|Ho].
  - destruct (struct_agree_Some _ _ _ _ Hst Ho) as (o2 & Ho2 & _ & _ & Hk & Ha).
    rewrite Ho' in Ho2. injection Ho2 as <-. rewrite Hk, Ha.
    apply (Hcl i o Hi Ho).
  - rewrite (struct_agree_None _ _ _ Hst Ho) in Ho'. discriminate.
Qed.

Lemma shape_of_frame lo hi s s' :
  closed_between lo hi s ->
  (forall i, lo <= i < hi -> structure <$> s' !! i = structure <$> s !! i) ->
  forall f n, lo <= n < hi -> shape_of f s' n = shape_of f s n.
Proof.
  intros Hcl Hst. induction f as [|f IH]; intros n Hn; [reflexivity|].
  simpl. pose proof (Hst n Hn) as Hs.
  destruct (lookup_cases s n) as [[o Ho]|Ho];
    [|rewrite (struct_agree_None _ _ _ Hs Ho), Ho; reflexivity].
  destruct (struct_agree_Some _ _ _ _ Hs Ho) as (o' & Ho' & Hc & Hp & Hk & Ha).
  rewrite Ho', Ho. destruct (Hcl n o Hn Ho) as [Hkids Hattrs].
  simpl. rewrite Hc, Hp, Hk, Ha.
  assert (E1 : mapM (fun a => (fun ao => (cls ao, payload ao)) <$> s' !! a) (attributes o)
             = mapM (fun a => (fun ao => (cls ao, payload ao)) <$> s !! a) (attributes o)).
  { apply mapM_Forall_eq. eapply Forall_impl; [exact Hattrs|].
    simpl. intros a Ha'. specialize (Hst a Ha').
    destruct (lookup_cases s a) as [[x Hx]|Hx];
      [|rewrite (struct_agree_None _ _ _ Hst Hx), Hx; reflexivity].
    destruct (struct_agree_Some _ _ _ _ Hst Hx) as (x' & Hx' & Hc1 & Hp1 & _).
    rewrite Hx', Hx. simpl. rewrite Hc1, Hp1. reflexivity. }
  assert (E2 : mapM (shape_of f s') (childNodes o) = mapM (shape_of f s) (childNodes o)).
  { apply mapM_Forall_eq. eapply Forall_impl; [exact Hkids|]. simpl. intros k Hk'.
    apply IH, Hk'. }
  rewrite E1, E2. reflexivity.
Qed.

(** The part of the store that was there before an extension reads the
    same in the extension. *)
Lemma closed_between_app lo hi s ext :
  hi <= length s -> closed_between lo hi s -> closed_between lo hi (s ++ ext).
Proof.
  intros Hhi Hcl. apply (closed_between_stable lo hi s); [exact Hcl|].
  intros i Hi. rewrite lookup_app_l by lia. reflexivity.
Qed.

Lemma shape_of_app lo hi s ext f n :
  hi <= length s -> closed_between lo hi s -> lo <= n < hi ->
  shape_of f (s ++ ext) n = shape_of f s n.
Proof.
  intros Hhi Hcl Hn. apply (shape_of_frame lo hi); [exact Hcl| |exact Hn].
  intros i Hi. rewrite lookup_app_l by lia. reflexivity.
Qed.

(** ** Valid trees have a shape *)

Section Validity.

Variable T : NodeType -> NodeType -> bool.

Lemma valid_tree_S s h n :
  valid_tree T s (S h) n = true ->
  exists o, s !! n = Some o
    /\ plainDocument o = true
    /\ allocated s (attributes o)
    /\ valid_children T s (nodeType (cls o)) [] (childNodes o) = true
    /\ Forall (fun k => valid_tree T s h k = true) (childNodes o).
Proof.
  simpl. destruct (s !! n) as [o|]; [|discriminate].
  intros H. exists o.
  apply andb_true_iff in H as [H H4]. apply andb_true_iff in H as [H H3].
  apply andb_true_iff in H as [H1 H2].
  repeat split; try assumption.
  - apply Forall_forall. intros a Ha. rewrite forallb_forall in H2.
    apply list_elem_of_In in Ha. specialize (H2 a Ha).
    apply bool_decide_eq_true in H2. exact H2.
  - apply Forall_forall. intros k Hk. rewrite forallb_forall in H4.
    apply list_elem_of_In in Hk. exact (H4 k Hk).
Qed.

Lemma valid_tree_shape s h : forall n f,
  valid_tree T s h n = true -> h <= f -> is_Some (shape_of f s n).
Proof.
  induction h as [|h IH]; intros n f Hv Hf; [discriminate|].
  destruct f as [|f]; [lia|].
  destruct (valid_tree_S _ _ _ Hv) as (o & Ho & _ & Ha & _ & Hk).
  simpl. rewrite Ho. simpl.
  assert (H1 : is_Some (mapM (fun a => (fun ao => (cls ao, payload ao)) <$> s !! a)
                          (attributes o))).
  { apply mapM_is_Some. eapply Forall_impl; [exact Ha|]. simpl.
    intros a [ao Hao]. rewrite Hao. eexists. reflexivity. }
  assert (H2 : is_Some (mapM (shape_of f s) (childNodes o))).
  { apply mapM_is_Some. eapply Forall_impl; [exact Hk|]. simpl.
    intros k Hvk. apply IH; [exact Hvk | lia]. }
  destruct H1 as [x ->], H2 as [y ->]. eexists. reflexivity.
Qed.

Lemma valid_children_cons s parent seen k rest :
  valid_children T s parent seen (k :: rest) = true ->
  exists o, s !! k = Some o
    /\ appendable T parent seen (nodeType (cls o)) = true
    /\ valid_children T s parent (seen ++ [nodeType (cls o)]) rest = true.
Proof.
  simpl. unfold tagOf. destruct (s !! k) as [o|]; [|discriminate]. simpl.
  intros [H1 H2]%andb_true_iff. exists o. auto.
Qed.

End Validity.

(** ** Copying the attributes *)

Lemma insert_middle (s : Store) x y r :
  <[length s := y]> (s ++ x :: r) = s ++ y :: r.
Proof.
  rewrite insert_app_r_alt by lia. rewrite Nat.sub_diag. reflexivity.
Qed.

Lemma insert_after_middle (s : Store) x r j y :
  length s < j ->
  <[j := y]> (s ++ x :: r) = s ++ x :: <[j - S (length s) := y]> r.
Proof.
  intros Hj. rewrite insert_app_r_alt by lia.
  replace (j - length s) with (S (j - S (length s))) by lia. reflexivity.
Qed.

Lemma cloneAttrs_spec (s : Store) : forall attrs co copies,
  Forall (fun a => a < length s) attrs ->
  forEach attrs (Node.cloneAttr (length s)) (s ++ co :: copies)
  = (Ret tt,
     s ++ set_attributes
            (attributes co ++ seq (S (length s + length copies)) (length attrs)) co
       :: copies ++ omap (fun a => copyOf <$> s !! a) attrs).
Proof.
  induction attrs as [|a attrs IH]; intros co copies Hall.
  - simpl. rewrite !app_nil_r. destruct co; reflexivity.
  - inversion Hall as [|? ? Ha Hrest]; subst.
    destruct (lookup_lt_is_Some_2 s a Ha) as [ao Hao].
    simpl. unfold bind at 1. unfold Node.cloneAttr at 1. unfold bind at 1.
    assert (Hget : (s ++ co :: copies) !! a = Some ao)
      by (rewrite lookup_app_l by lia; exact Hao).
    rewrite (getObj_Some _ _ _ Hget). unfold bind at 1. unfold alloc at 1.
    assert (Hc : ((s ++ co :: copies) ++ [copyOf ao]) !! length s = Some co).
    { rewrite <- app_assoc. simpl. apply list_lookup_middle. reflexivity. }
    unfold copyOf in Hc at 1.
    rewrite (modifyObj_Some _ _ _ _ Hc).
    rewrite <- app_assoc. simpl. rewrite insert_middle.
    rewrite length_app. simpl.
    specialize (IH (set_attributes (attributes co ++ [length s + S (length copies)]) co)
                  (copies ++ [copyOf ao]) Hrest).
    unfold copyOf at 1 in IH. rewrite IH. rewrite Hao. simpl.
    rewrite <- !app_assoc. simpl.
    rewrite length_app. simpl.
    replace (length s + S (length copies)) with (S (length s + length copies)) by lia.
    replace (S (length s + (length copies + 1))) with (S (S (length s + length copies))) by lia.
    reflexivity.
Qed.

(** ** Cloning the children *)

Lemma omap_tagOf_stable (s s' : Store) l :
  Forall (fun i => structure <$> s' !! i = structure <$> s !! i) l ->
  omap (tagOf s') l = omap (tagOf s) l.
Proof.
  induction 1 as [|i l Hi _ IH]; [reflexivity|].
  assert (Ht : tagOf s' i = tagOf s i).
  { unfold tagOf. destruct (lookup_cases s i) as [[o Ho]|Ho].
    - destruct (struct_agree_Some _ _ _ _ Hi Ho) as (o' & Ho' & Hc & _).
      rewrite Ho, Ho'. simpl. rewrite Hc. reflexivity.
    - rewrite (struct_agree_None _ _ _ Hi Ho), Ho. reflexivity. }
  change (omap (tagOf s') (i :: l))
    with (match tagOf s' i with Some y => y :: omap (tagOf s') l | None => omap (tagOf s') l end).
  change (omap (tagOf s) (i :: l))
    with (match tagOf s i with Some y => y :: omap (tagOf s) l | None => omap (tagOf s) l end).
  rewrite Ht, IH. reflexivity.
Qed.

Lemma Forall2_impl_r {A B} (P Q : A -> B -> Prop) (R : B -> Prop) l k :
  Forall2 P l k -> Forall R k -> (forall x y, P x y -> R y -> Q x y) ->
  Forall2 Q l k.
Proof.
  intros H. induction H as [|x y l k Hxy _ IH]; intros HR Himp; [constructor|].
  inversion HR; subst. constructor; auto.
Qed.

Section CloneLoop.

Variable T : NodeType -> NodeType -> bool.
Variable s0 : Store.
Variable deep : bool.
Variable fuel : nat.
Variable cloneChild : Ref -> bool -> M Ref.

Lemma cloneChildren_loop : forall ks s co region done,
  (exists ext, s = s0 ++ ext) ->
  Forall (fun k => forall ext, exists s',
            cloneChild k deep (s0 ++ ext) = (Ret (length (s0 ++ ext)), s')
            /\ Cloned s0 k deep (s0 ++ ext) s') ks ->
  CloneInv s0 deep s co region done ->
  valid_children T s0 (nodeType (cls co)) (omap (tagOf s0) done) ks = true ->
  exists co' region',
    forEach ks (fun child =>
        clonedChild <- cloneChild child deep ;;
        Node.appendChild T fuel (length s) clonedChild ;;; ret tt)%dom
      (s ++ co :: region)
    = (Ret tt, s ++ co' :: region')
    /\ CloneInv s0 deep s co' region' (done ++ ks)
    /\ cls co' = cls co /\ payload co' = payload co
    /\ attributes co' = attributes co
    /\ _ownerDocument co' = _ownerDocument co
    /\ length region <= length region'
    /\ (forall i, length s < i < length (s ++ co :: region) ->
          structure <$> (s ++ co' :: region') !! i
          = structure <$> (s ++ co :: region) !! i).
Proof.
  induction ks as [|k ks IH]; intros s co region done Hs Hks Hinv Hvalid.
  - exists co, region. rewrite app_nil_r. simpl.
    split; [reflexivity|]. split; [exact Hinv|]. repeat split; auto.
  - inversion Hks as [|? ? Hk Hks']; subst.
    destruct Hs as [ext0 Hs].
    assert (HS : s0 ++ (ext0 ++ co :: region) = s ++ co :: region)
      by (rewrite Hs, <- app_assoc; reflexivity).
    destruct (Hk (ext0 ++ co :: region)) as [St' [Hrun HCl]].
    rewrite HS in Hrun, HCl.
    destruct HCl as ([ext' HS'] & Hcl' & (ko & cho & Hko & Hcho & Hcc & _ & Hpc & _) & Hshape & _).
    destruct (valid_children_cons _ _ _ _ _ _ Hvalid) as (ko' & Hko' & Happ & Hrest).
    rewrite Hko in Hko'. injection Hko' as <-.
    destruct Hinv as (Hpar & Hclosed & Hbound & Htags & Hshapes & Hparents).
    set (St := s ++ co :: region) in *.
    set (c := length s) in *.
    set (ch := length St) in *.
    assert (HlenS : ch = c + S (length region))
      by (unfold ch, St, c; rewrite length_app; reflexivity).
    assert (HlenS' : ch < length St') by (eapply lookup_lt_Some; exact Hcho).
    assert (Hco : St' !! c = Some co).
    { rewrite HS'. apply lookup_app_l_Some. apply list_lookup_middle. reflexivity. }
    assert (Hold : forall i, i < ch -> St' !! i = St !! i).
    { intros i Hi. rewrite HS'. apply lookup_app_l. exact Hi. }
    assert (Hkids_stable : Forall (fun i => structure <$> St' !! i = structure <$> St !! i)
                             (childNodes co)).
    { eapply Forall_impl; [exact Hbound|]. simpl. intros i Hi.
      rewrite Hold by lia. reflexivity. }
    assert (Happ' : appendable T (nodeType (cls co)) (omap (tagOf St') (childNodes co))
                      (nodeType (cls cho)) = true).
    { rewrite (omap_tagOf_stable _ _ _ Hkids_stable), Htags, Hcc. exact Happ. }
    assert (Halloc : allocated St' (childNodes co)).
    { eapply Forall_impl; [exact Hbound|]. simpl. intros i Hi.
      apply lookup_lt_is_Some_2. lia. }
    assert (Hne : c <> ch) by lia.
    pose proof (appendChild_fresh T fuel St' c ch co cho Hco Hcho Hne Hpar Hpc Halloc Happ')
      as Happend.
    set (co1 := set_childNodes (childNodes co ++ [ch]) co) in *.
    set (cho1 := set_parentNode (Some c) cho) in *.
    (* the store after the append, in the form of the invariant *)
    assert (Hform : <[c := co1]> (<[ch := cho1]> St')
                    = s ++ co1 :: <[ch - S c := cho1]> (region ++ ext')).
    { rewrite HS'. unfold St. rewrite <- app_assoc. simpl.
      rewrite insert_after_middle by (fold c; lia).
      fold c. apply insert_middle. }
    set (region1 := <[ch - S c := cho1]> (region ++ ext')) in *.
    set (S1 := s ++ co1 :: region1) in *.
    assert (HlenS1 : length S1 = length St').
    { rewrite <- Hform. rewrite !length_insert. reflexivity. }
    assert (Hlook : forall i, i <> c -> i <> ch -> S1 !! i = St' !! i).
    { intros i H1 H2. rewrite <- Hform.
      rewrite !list_lookup_insert_ne by congruence. reflexivity. }
    assert (Hlook_ch : S1 !! ch = Some cho1).
    { rewrite <- Hform. rewrite list_lookup_insert_ne by congruence.
      apply list_lookup_insert_eq. exact HlenS'. }
    assert (Hstab : forall i, c < i < length St' ->
              structure <$> S1 !! i = structure <$> St' !! i).
    { intros i Hi. destruct (decide (i = ch)) as [->|Hich].
      - rewrite Hlook_ch, Hcho. reflexivity.
      - rewrite Hlook by lia. reflexivity. }
    assert (Hstab0 : forall i, c < i < ch ->
              structure <$> S1 !! i = structure <$> St !! i).
    { intros i Hi. rewrite Hstab by lia. rewrite Hold by lia. reflexivity. }
    assert (Hclosed' : closed_between (S c) (length St') St').
    { apply (closed_between_join _ ch); [lia| |exact Hcl'].
      rewrite HS'. apply closed_between_app; [reflexivity | exact Hclosed]. }
    assert (Hinv1 : CloneInv s0 deep s co1 region1 (done ++ [k])).
    { unfold CloneInv. fold S1 c. rewrite HlenS1.
      split; [exact Hpar|]. split; [|split; [|split; [|split]]].
      - apply (closed_between_stable _ _ St'); [exact Hclosed'|].
        intros i Hi. apply Hstab. lia.
      - simpl. apply Forall_app. split.
        + eapply Forall_impl; [exact Hbound|]. simpl. intros; lia.
        + repeat constructor; lia.
      - simpl. rewrite !omap_app. f_equal.
        + rewrite <- Htags. apply omap_tagOf_stable.
          eapply Forall_impl; [exact Hbound|]. simpl. intros i Hi.
          apply Hstab0. exact Hi.
        + change (omap (tagOf S1) [ch])
            with (match tagOf S1 ch with Some y => [y] | None => [] end).
          change (omap (tagOf s0) [k])
            with (match tagOf s0 k with Some y => [y] | None => [] end).
          unfold tagOf. rewrite Hlook_ch, Hko. simpl. rewrite Hcc. reflexivity.
      - simpl. apply Forall2_app.
        + apply (Forall2_impl_r _ _ _ _ _ Hshapes Hbound).
          intros x y Hxy Hy f t Ht.
          rewrite (shape_of_frame (S c) ch St S1 Hclosed).
          * apply Hxy, Ht.
          * intros i Hi. apply Hstab0. lia.
          * lia.
        + constructor; [|constructor]. intros f t Ht.
          rewrite (shape_of_frame ch (length St') St' S1 Hcl').
          * apply Hshape, Ht.
          * intros i Hi. apply Hstab. lia.
          * lia.
      - simpl. apply Forall_app. split.
        + apply Forall_forall. intros y Hy.
          pose proof (proj1 (Forall_forall _ _) Hbound y Hy) as Hyb. simpl in Hyb.
          destruct (proj1 (Forall_forall _ _) Hparents y Hy) as (yo & Hyo & Hyp).
          exists yo. split; [|exact Hyp].
          rewrite Hlook by lia. rewrite Hold by lia. exact Hyo.
        + constructor; [|constructor]. exists cho1. split; [exact Hlook_ch | reflexivity]. }
    assert (Hvalid1 : valid_children T s0 (nodeType (cls co1))
                        (omap (tagOf s0) (done ++ [k])) ks = true).
    { rewrite omap_app.
      change (omap (tagOf s0) [k])
        with (match tagOf s0 k with Some y => [y] | None => [] end).
      unfold tagOf at 2. rewrite Hko. exact Hrest. }
    destruct (IH s co1 region1 (done ++ [k]) (ex_intro _ ext0 Hs) Hks' Hinv1 Hvalid1)
      as (co' & region' & Hloop & Hinv' & Hc' & Hp' & Ha' & Ho' & Hlen' & Hstab').
    exists co', region'.
    assert (Hlen1 : length region1 = length region + length ext').
    { unfold region1. rewrite length_insert, length_app. reflexivity. }
    split; [|split; [|repeat split]].
    + simpl. unfold bind at 1. unfold bind at 1. fold St. rewrite Hrun.
      unfold bind at 1. fold c. rewrite Happend, Hform. unfold ret at 1.
      exact Hloop.
    + rewrite <- app_assoc in Hinv'. exact Hinv'.
    + rewrite Hc'. reflexivity.
    + rewrite Hp'. reflexivity.
    + rewrite Ha'. reflexivity.
    + rewrite Ho'. reflexivity.
    + lia.
    + intros i Hi. fold St in Hi. fold ch in Hi.
      rewrite Hstab'.
      * apply Hstab0. exact Hi.
      * fold S1. rewrite HlenS1. lia.
Qed.

End CloneLoop.

(** ** From the loop invariant to the clone *)

Lemma mapM_shape_transfer (s0 S' : Store) f : forall ks ks' y,
  Forall2 (fun k k' => forall f t, shape_of f s0 k = Some t ->
             shape_of f S' k' = Some t) ks ks' ->
  mapM (shape_of f s0) ks = Some y ->
  mapM (shape_of f S') ks' = Some y.
Proof.
  intros ks ks' y H. revert y.
  induction H as [|k k' ks ks' Hk _ IH]; intros y Hy; [exact Hy|].
  apply mapM_Some in Hy. inversion Hy as [|? t ? y' Ht Hrest]; subst.
  apply mapM_Some. constructor.
  - apply Hk, Ht.
  - apply mapM_Some, IH, mapM_Some, Hrest.
Qed.

Lemma allocated_Forall2 (s : Store) l :
  allocated s l -> exists os, Forall2 (fun a ao => s !! a = Some ao) l os.
Proof.
  induction 1 as [|a l [ao Hao] _ [os IH]].
  - exists []. constructor.
  - exists (ao :: os). constructor; assumption.
Qed.

Lemma omap_copy (s : Store) attrs aos :
  Forall2 (fun a ao => s !! a = Some ao) attrs aos ->
  omap (fun a => copyOf <$> s !! a) attrs = copyOf <$> aos.
Proof.
  induction 1 as [|a ao attrs aos Ha _ IH]; [reflexivity|].
  change (omap (fun a => copyOf <$> s !! a) (a :: attrs))
    with (match copyOf <$> s !! a with
          | Some y => y :: omap (fun a => copyOf <$> s !! a) attrs
          | None => omap (fun a => copyOf <$> s !! a) attrs
          end).
  rewrite Ha, IH. reflexivity.
Qed.

Lemma mapM_attr_copies (s0 S' : Store) : forall attrs aos base,
  Forall2 (fun a ao => s0 !! a = Some ao) attrs aos ->
  (forall j ao, aos !! j = Some ao ->
     exists o', S' !! (base + j) = Some o' /\ cls o' = cls ao /\ payload o' = payload ao) ->
  mapM (fun a => (fun ao => (cls ao, payload ao)) <$> S' !! a) (seq base (length attrs))
  = mapM (fun a => (fun ao => (cls ao, payload ao)) <$> s0 !! a) attrs.
Proof.
  intros attrs aos base H. revert base.
  induction H as [|a ao attrs aos Ha _ IH]; intros base Hc; [reflexivity|].
  simpl. destruct (Hc 0 ao eq_refl) as (o' & Ho' & Hcl & Hpl).
  rewrite Nat.add_0_r in Ho'. rewrite Ho', Ha. simpl. rewrite Hcl, Hpl.
  rewrite (IH (S base)); [reflexivity|].
  intros j x Hx. destruct (Hc (S j) x Hx) as (o2 & Ho2 & H2).
  exists o2. split; [|exact H2]. rewrite <- Ho2. f_equal. lia.
Qed.

Lemma clone_finish (s0 : Store) n o deep (s : Store) co' region' :
  s0 !! n = Some o ->
  CloneInv s0 deep s co' region' (if deep then childNodes o else []) ->
  cls co' = cls o -> payload co' = payload o ->
  _ownerDocument co' = (if decide (cls o = DocumentC) then None else _ownerDocument o) ->
  Forall (fun r => length s < r < length (s ++ co' :: region')) (attributes co') ->
  mapM (fun a => (fun ao => (cls ao, payload ao)) <$> (s ++ co' :: region') !! a)
    (attributes co')
  = mapM (fun a => (fun ao => (cls ao, payload ao)) <$> s0 !! a) (attributes o) ->
  Cloned s0 n deep s (s ++ co' :: region').
Proof.
  intros Ho (Hpar & Hclosed & Hbound & _ & Hshapes & Hparents) Hc Hp Hown Hattrs Hmap.
  assert (Hco : (s ++ co' :: region') !! length s = Some co')
    by (apply list_lookup_middle; reflexivity).
  split; [exists (co' :: region'); reflexivity|].
  split; [|split; [|split]]; cycle 3.
  { split.
    - intros x Hx. rewrite Hco in Hx. injection Hx as <-. exact Hparents.
    - intros o1 x Ho1 Hx. rewrite Hco in Hx. injection Hx as <-.
      rewrite Ho in Ho1. injection Ho1 as <-. exact Hshapes. }
  - intros i x Hi Hx. destruct (decide (i = length s)) as [->|Hne].
    + rewrite Hco in Hx. injection Hx as <-.
      split; [eapply Forall_impl; [exact Hbound|] | eapply Forall_impl; [exact Hattrs|]];
        simpl; intros; lia.
    + eapply (closed_between_weaken _ _ _ _ _ Hclosed); eauto; lia.
  - exists o, co'. repeat split; assumption.
  - intros f t Ht. destruct f as [|f]; [discriminate|].
    simpl in Ht. rewrite Ho in Ht. simpl in Ht.
    destruct (mapM (fun a => (fun ao => (cls ao, payload ao)) <$> s0 !! a) (attributes o))
      as [x|] eqn:Hx; [|discriminate].
    simpl in Ht.
    destruct (mapM (shape_of f s0) (childNodes o)) as [y|] eqn:Hy; [|discriminate].
    simpl in Ht. injection Ht as <-.
    simpl. rewrite Hco. simpl. rewrite Hmap, Hc, Hp. simpl.
    destruct deep; simpl.
    + rewrite (mapM_shape_transfer s0 _ f _ _ y Hshapes Hy). reflexivity.
    + inversion Hshapes as [Hnil|]; subst. reflexivity.
Qed.

(** ** cloneNode *)

Section Clone.

Variable T : NodeType -> NodeType -> bool.
Variable s0 : Store.

Lemma Node_cloneNode_spec : forall fuel h n deep ext,
  valid_tree T s0 h n = true -> h <= fuel ->
  exists s',
    Document.Node_cloneNode T fuel n deep (s0 ++ ext) = (Ret (length (s0 ++ ext)), s')
    /\ Cloned s0 n deep (s0 ++ ext) s'.
Proof.
  induction fuel as [|f IH]; intros h n deep ext Hv Hh.
  { assert (h = 0) by lia. subst. discriminate. }
  destruct h as [|h]; [discriminate|].
  destruct (valid_tree_S _ _ _ _ Hv) as (o & Ho & Hplain & Hattrs & Hvc & Hkids).
  set (s := s0 ++ ext).
  assert (Hget : s !! n = Some o) by (apply lookup_app_l_Some; exact Ho).
  assert (Hchildren : Forall (fun k => forall ext, exists s',
            Document.Node_cloneNode T f k deep (s0 ++ ext) = (Ret (length (s0 ++ ext)), s')
            /\ Cloned s0 k deep (s0 ++ ext) s') (childNodes o)).
  { eapply Forall_impl; [exact Hkids|]. simpl. intros k Hk ext'.
    apply (IH h); [exact Hk | lia]. }
  simpl. unfold bind at 1. rewrite (getObj_Some _ _ _ Hget).
  destruct (decide (cls o = DocumentC)) as [Hdoc|Hdoc].
  - (* a Document *)
    unfold plainDocument in Hplain. destruct (decide (cls o = DocumentC)); [|contradiction].
    apply bool_decide_eq_true in Hplain as [Hpay Hnoattr].
    set (co := mkNode DocumentC None None [] [] NoData).
    assert (Hinv0 : CloneInv s0 deep s co [] []).
    { split; [reflexivity|]. split; [|split; [|split; [|split]]].
      - intros i x Hi. rewrite length_app in Hi. simpl in Hi. lia.
      - constructor.
      - reflexivity.
      - constructor.
      - constructor. }
    assert (Hfin : forall co' region',
              CloneInv s0 deep s co' region' (if deep then childNodes o else []) ->
              cls co' = cls co -> payload co' = payload co ->
              attributes co' = attributes co -> _ownerDocument co' = _ownerDocument co ->
              Cloned s0 n deep s (s ++ co' :: region')).
    { intros co' region' Hinv Hc Hp Ha Hown.
      apply (clone_finish s0 n o); auto.
      - rewrite Hc, Hdoc. reflexivity.
      - rewrite Hp, Hpay. reflexivity.
      - rewrite Hown. destruct (decide (cls o = DocumentC)); [reflexivity|contradiction].
      - rewrite Ha. constructor.
      - rewrite Ha, Hnoattr. reflexivity. }
    unfold Document.cloneNode_with. unfold bind at 1. unfold new_Document, alloc.
    fold co. unfold bind at 1.
    destruct deep.
    + unfold bind at 1.
      assert (Hget' : (s ++ [co]) !! n = Some o) by (apply lookup_app_l_Some; exact Hget).
      rewrite (getObj_Some _ _ _ Hget').
      assert (Hvc' : valid_children T s0 (nodeType (cls co)) (omap (tagOf s0) [])
                       (childNodes o) = true).
      { simpl. rewrite Hdoc in Hvc. exact Hvc. }
      destruct (cloneChildren_loop T s0 true f (Document.Node_cloneNode T f)
                  (childNodes o) s co [] [] (ex_intro _ ext eq_refl)
                  Hchildren Hinv0 Hvc')
        as (co' & region' & Hloop & Hinv' & Hc' & Hp' & Ha' & Ho' & _ & _).
      rewrite Hloop. exists (s ++ co' :: region'). split; [reflexivity|].
      apply Hfin; assumption.
    + exists (s ++ [co]). split; [reflexivity|].
      apply Hfin; auto.
  - (* any other class *)
    set (co := mkNode (cls o) None (_ownerDocument o) [] [] (payload o)).
    unfold Node.cloneNode_with. unfold bind at 1. rewrite (getObj_Some _ _ _ Hget).
    unfold bind at 1. unfold alloc at 1. fold co.
    assert (Hlt : Forall (fun a => a < length s) (attributes o)).
    { eapply Forall_impl; [exact Hattrs|]. simpl. intros a Ha.
      apply lookup_lt_is_Some_1 in Ha. unfold s. rewrite length_app. lia. }
    destruct (allocated_Forall2 _ _ Hattrs) as [aos Haos].
    assert (Haos' : Forall2 (fun a ao => s !! a = Some ao) (attributes o) aos).
    { eapply Forall2_impl; [exact Haos|]. simpl. intros a ao Ha.
      apply lookup_app_l_Some. exact Ha. }
    pose proof (cloneAttrs_spec s (attributes o) co [] Hlt) as Hcopy.
    rewrite (omap_copy _ _ _ Haos') in Hcopy. simpl in Hcopy.
    rewrite Nat.add_0_r in Hcopy.
    set (co2 := set_attributes (seq (S (length s)) (length (attributes o))) co) in *.
    set (copies := copyOf <$> aos) in *.
    unfold bind at 1. unfold bind at 1.
    change (s ++ [co]) with (s ++ co :: []). rewrite Hcopy.
    assert (Hlen_copies : length copies = length (attributes o)).
    { unfold copies. rewrite length_fmap. symmetry. eapply Forall2_length. exact Haos. }
    assert (Hcopy_at : forall j ao, aos !! j = Some ao ->
              (s ++ co2 :: copies) !! (S (length s) + j) = Some (copyOf ao)).
    { intros j ao Hj. rewrite lookup_app_r by lia.
      replace (S (length s) + j - length s) with (S j) by lia. simpl.
      unfold copies. rewrite list_lookup_fmap, Hj. reflexivity. }
    assert (Hinv0 : CloneInv s0 deep s co2 copies []).
    { split; [reflexivity|]. split; [|split; [|split; [|split]]].
      - intros i x Hi Hx. rewrite lookup_app_r in Hx by lia.
        replace (i - length s) with (S (i - S (length s))) in Hx by lia.
        simpl in Hx. unfold copies in Hx. rewrite list_lookup_fmap in Hx.
        destruct (aos !! (i - S (length s))) as [ao|]; [|discriminate].
        injection Hx as <-. split; constructor.
      - constructor.
      - reflexivity.
      - constructor.
      - constructor. }
    assert (Hfin : forall co' region',
              CloneInv s0 deep s co' region' (if deep then childNodes o else []) ->
              cls co' = cls co2 -> payload co' = payload co2 ->
              attributes co' = attributes co2 -> _ownerDocument co' = _ownerDocument co2 ->
              length copies <= length region' ->
              (forall i, length s < i < length (s ++ co2 :: copies) ->
                 structure <$> (s ++ co' :: region') !! i
                 = structure <$> (s ++ co2 :: copies) !! i) ->
              Cloned s0 n deep s (s ++ co' :: region')).
    { intros co' region' Hinv Hc Hp Ha Hown Hlen Hstab.
      apply (clone_finish s0 n o); auto.
      - rewrite Hown. simpl. destruct (decide (cls o = DocumentC)); [contradiction|reflexivity].
      - rewrite Ha. simpl. apply Forall_forall. intros r Hr.
        apply list_elem_of_In, in_seq in Hr. rewrite length_app. simpl. lia.
      - rewrite Ha. simpl. apply (mapM_attr_copies s0 _ _ aos); [exact Haos|].
        intros j ao Hj.
        assert (Hjlt : j < length (attributes o)).
        { apply lookup_lt_Some in Hj. rewrite <- Hlen_copies. unfold copies.
          rewrite length_fmap. exact Hj. }
        assert (Hrange : length s < S (length s) + j < length (s ++ co2 :: copies)).
        { rewrite length_app. simpl. lia. }
        specialize (Hstab _ Hrange). rewrite (Hcopy_at _ _ Hj) in Hstab.
        destruct (lookup_cases (s ++ co' :: region') (S (length s) + j)) as [[x Hx]|Hx];
          rewrite Hx in Hstab; [|discriminate].
        exists x. split; [exact Hx|]. simpl in Hstab.
        assert (Hs : structure x = structure (copyOf ao)) by congruence.
        destruct (structure_eq _ _ Hs) as (H1 & H2 & _). auto. }
    destruct deep.
    + assert (Hvc' : valid_children T s0 (nodeType (cls co2)) (omap (tagOf s0) [])
                       (childNodes o) = true) by exact Hvc.
      destruct (cloneChildren_loop T s0 true f (Document.Node_cloneNode T f)
                  (childNodes o) s co2 copies [] (ex_intro _ ext eq_refl)
                  Hchildren Hinv0 Hvc')
        as (co' & region' & Hloop & Hinv' & Hc' & Hp' & Ha' & Ho' & Hlen' & Hstab').
      rewrite Hloop.
      exists (s ++ co' :: region'). split; [reflexivity|].
      apply Hfin; assumption.
    + exists (s ++ co2 :: copies). split; [reflexivity|].
      apply Hfin; auto.
Qed.

End Clone.

(** ** Reassigning owner documents *)

Lemma set_ownerDocument_idem d o :
  set_ownerDocument d (set_ownerDocument d o) = set_ownerDocument d o.
Proof. reflexivity. Qed.

Lemma reassignAll_lookup d refs (s : Store) i :
  reassignAll d refs s !! i
  = (fun o => if decide (i ∈ refs) then set_ownerDocument (Some d) o else o) <$> s !! i.
Proof. unfold reassignAll. apply list_lookup_imap. Qed.

Lemma reassignAll_length d refs (s : Store) : length (reassignAll d refs s) = length s.
Proof. unfold reassignAll. apply length_imap. Qed.

Lemma reassignAll_structure d refs (s : Store) i :
  structure <$> reassignAll d refs s !! i = structure <$> s !! i.
Proof.
  rewrite reassignAll_lookup. destruct (s !! i) as [o|]; [|reflexivity].
  simpl. destruct (decide (i ∈ refs)); reflexivity.
Qed.

Lemma reassignAll_app d A B (s : Store) :
  reassignAll d B (reassignAll d A s) = reassignAll d (A ++ B) s.
Proof.
  apply list_eq. intros i. rewrite !reassignAll_lookup.
  destruct (s !! i) as [o|]; [|reflexivity]. simpl. f_equal.
  destruct (decide (i ∈ A)) as [HA|HA], (decide (i ∈ B)) as [HB|HB],
    (decide (i ∈ A ++ B)) as [HAB|HAB]; try reflexivity;
    exfalso; rewrite elem_of_app in HAB; tauto.
Qed.

Lemma reassignAll_nil d (s : Store) : reassignAll d [] s = s.
Proof.
  apply list_eq. intros i. rewrite reassignAll_lookup.
  destruct (s !! i) as [o|]; [|reflexivity]. simpl.
  destruct (decide (i ∈ [])) as [H|H]; [|reflexivity].
  apply elem_of_nil in H. contradiction.
Qed.

Lemma modify_owner_reassign d (s : Store) n :
  n < length s ->
  modifyObj n (set_ownerDocument (Some d)) s = (Ret tt, reassignAll d [n] s).
Proof.
  intros Hn. destruct (lookup_lt_is_Some_2 s n Hn) as [o Ho].
  rewrite (modifyObj_Some _ _ _ _ Ho). f_equal.
  apply list_eq. intros i. rewrite reassignAll_lookup.
  destruct (decide (i = n)) as [->|Hne].
  - rewrite list_lookup_insert_eq by exact Hn. rewrite Ho. simpl.
    destruct (decide (n ∈ [n])) as [H|H]; [reflexivity|].
    exfalso. apply H. apply list_elem_of_singleton. reflexivity.
  - rewrite list_lookup_insert_ne by congruence.
    destruct (s !! i) as [x|]; [|reflexivity]. simpl.
    destruct (decide (i ∈ [n])) as [H|H]; [|reflexivity].
    apply list_elem_of_singleton in H. contradiction.
Qed.

Lemma forEach_modify_owner d : forall attrs (s : Store),
  Forall (fun a => a < length s) attrs ->
  forEach attrs (fun attr => modifyObj attr (set_ownerDocument (Some d))) s
  = (Ret tt, reassignAll d attrs s).
Proof.
  induction attrs as [|a attrs IH]; intros s Hall.
  - simpl. rewrite reassignAll_nil. reflexivity.
  - inversion Hall as [|? ? Ha Hrest]; subst.
    simpl. unfold bind. rewrite (modify_owner_reassign d s a Ha).
    rewrite IH.
    + rewrite reassignAll_app. reflexivity.
    + rewrite reassignAll_length. exact Hrest.
Qed.

Lemma forallb_ltb_Forall (l : list nat) n :
  forallb (fun a => Nat.ltb a n) l = true <-> Forall (fun a => a < n) l.
Proof.
  rewrite forallb_forall, Forall_forall. split; intros H a Ha.
  - apply Nat.ltb_lt, H, list_elem_of_In, Ha.
  - apply Nat.ltb_lt, H, list_elem_of_In, Ha.
Qed.

(** One visited node: the node and, for an element, its attributes. *)
Lemma reassignOwner_spec d (s : Store) n o :
  s !! n = Some o -> Forall (fun a => a < length s) (attributes o) ->
  Node.reassignOwner d n s
  = (Ret tt,
     reassignAll d (n :: (if decide (nodeType (cls o) = Element) then attributes o else [])) s).
Proof.
  intros Ho Hattrs. unfold Node.reassignOwner, bind.
  assert (Hn : n < length s) by (eapply lookup_lt_Some; exact Ho).
  rewrite (modify_owner_reassign d s n Hn).
  assert (Ho' : reassignAll d [n] s !! n = Some (set_ownerDocument (Some d) o)).
  { rewrite reassignAll_lookup, Ho. simpl.
    destruct (decide (n ∈ [n])) as [H|H]; [reflexivity|].
    exfalso. apply H. apply list_elem_of_singleton. reflexivity. }
  rewrite (getObj_Some _ _ _ Ho'). simpl.
  destruct (decide (nodeType (cls o) = Element)) as [E|E].
  - rewrite forEach_modify_owner.
    + rewrite reassignAll_app. reflexivity.
    + rewrite reassignAll_length. exact Hattrs.
  - reflexivity.
Qed.

(** The references of a subtree only depend on the structure. *)
Lemma subtreeRefs_struct (s s' : Store) :
  length s' = length s ->
  (forall i, structure <$> s' !! i = structure <$> s !! i) ->
  forall f n, subtreeRefs f s' n = subtreeRefs f s n.
Proof.
  intros Hlen Hst. induction f as [|f IH]; intros n; [reflexivity|].
  simpl. pose proof (Hst n) as Hs.
  destruct (lookup_cases s n) as [[o Ho]|Ho];
    [|rewrite (struct_agree_None _ _ _ Hs Ho), Ho; reflexivity].
  destruct (struct_agree_Some _ _ _ _ Hs Ho) as (o' & Ho' & Hc & Hp & Hk & Ha).
  rewrite Ho', Ho. simpl. rewrite Hc, Hk, Ha, Hlen.
  rewrite (mapM_ext _ _ _ IH). reflexivity.
Qed.

Lemma shape_of_struct (s s' : Store) :
  (forall i, structure <$> s' !! i = structure <$> s !! i) ->
  forall f n, shape_of f s' n = shape_of f s n.
Proof.
  intros Hst. induction f as [|f IH]; intros n; [reflexivity|].
  simpl. pose proof (Hst n) as Hs.
  destruct (lookup_cases s n) as [[o Ho]|Ho];
    [|rewrite (struct_agree_None _ _ _ Hs Ho), Ho; reflexivity].
  destruct (struct_agree_Some _ _ _ _ Hs Ho) as (o' & Ho' & Hc & Hp & Hk & Ha).
  rewrite Ho', Ho. simpl. rewrite Hc, Hp, Hk, Ha.
  rewrite (mapM_ext _ _ _ IH).
  assert (E : mapM (fun a => (fun ao => (cls ao, payload ao)) <$> s' !! a) (attributes o)
            = mapM (fun a => (fun ao => (cls ao, payload ao)) <$> s !! a) (attributes o)).
  { apply mapM_ext. intros a. specialize (Hst a).
    destruct (lookup_cases s a) as [[x Hx]|Hx];
      [|rewrite (struct_agree_None _ _ _ Hst Hx), Hx; reflexivity].
    destruct (struct_agree_Some _ _ _ _ Hst Hx) as (x' & Hx' & Hc1 & Hp1 & _).
    rewrite Hx', Hx. simpl. rewrite Hc1, Hp1. reflexivity. }
  rewrite E. reflexivity.
Qed.

(** The walk [forEachDescendant(node, { self: true }, reassign)] sets the
    owner of exactly the references of the subtree. *)
Lemma forEachDescendant_reassign d : forall f (s : Store) n refs,
  subtreeRefs f s n = Some refs ->
  Node.forEachDescendant f n true (Node.reassignOwner d) s
  = (Ret tt, reassignAll d refs s).
Proof.
  induction f as [|f IH]; intros s n refs Hrefs; [discriminate|].
  simpl in Hrefs.
  destruct (s !! n) as [o|] eqn:Ho; [|discriminate]. simpl in Hrefs.
  destruct (forallb (fun a => Nat.ltb a (length s)) (attributes o)) eqn:Hattrs;
    [|discriminate].
  destruct (mapM (subtreeRefs f s) (childNodes o)) as [rest|] eqn:Hrest; [|discriminate].
  simpl in Hrefs. injection Hrefs as <-.
  apply forallb_ltb_Forall in Hattrs. apply mapM_Some in Hrest.
  set (A := if decide (nodeType (cls o) = Element) then attributes o else []).
  simpl. unfold bind at 1.
  rewrite (reassignOwner_spec d s n o Ho Hattrs). fold A.
  unfold bind at 1.
  assert (Ho' : exists o', reassignAll d (n :: A) s !! n = Some o'
                           /\ childNodes o' = childNodes o).
  { rewrite reassignAll_lookup, Ho. simpl. eexists. split; [reflexivity|].
    destruct (decide (n ∈ n :: A)); reflexivity. }
  destruct Ho' as (o' & Ho' & Hk).
  rewrite (getObj_Some _ _ _ Ho'), Hk.
  assert (Hloop : forall ks rest acc,
            Forall2 (fun k r => subtreeRefs f s k = Some r) ks rest ->
            forEach ks (fun c => Node.forEachDescendant f c true (Node.reassignOwner d))
              (reassignAll d acc s)
            = (Ret tt, reassignAll d (acc ++ concat rest) s)).
  { intros ks rest0 acc H. revert acc.
    induction H as [|k r ks rest0 Hk0 _ IHl]; intros acc.
    - simpl. rewrite app_nil_r. reflexivity.
    - simpl. unfold bind.
      rewrite (IH (reassignAll d acc s) k r).
      + rewrite reassignAll_app, IHl, <- app_assoc. reflexivity.
      + rewrite (subtreeRefs_struct s); [exact Hk0| |].
        * apply reassignAll_length.
        * intros i. apply reassignAll_structure. }
  rewrite (Hloop _ _ (n :: A) Hrest). reflexivity.
Qed.

(** ** What the walk covers *)

Lemma elem_of_concat {A} (x : A) (ls : list (list A)) :
  x ∈ concat ls <-> exists l, x ∈ l /\ l ∈ ls.
Proof.
  induction ls as [|l ls IH]; simpl.
  - split; [intros H; apply elem_of_nil in H; contradiction|].
    intros (l & _ & H). apply elem_of_nil in H. contradiction.
  - rewrite elem_of_app, IH. split.
    + intros [H | (l' & H1 & H2)].
      * exists l. split; [exact H | apply elem_of_cons; left; reflexivity].
      * exists l'. split; [exact H1 | apply elem_of_cons; right; exact H2].
    + intros (l' & H1 & H2). apply elem_of_cons in H2 as [-> | H2].
      * left. exact H1.
      * right. exists l'. split; assumption.
Qed.

Lemma subtreeRefs_S f (s : Store) n refs :
  subtreeRefs (S f) s n = Some refs ->
  exists o rest, s !! n = Some o
    /\ Forall (fun a => a < length s) (attributes o)
    /\ Forall2 (fun k r => subtreeRefs f s k = Some r) (childNodes o) rest
    /\ refs = n :: (if decide (nodeType (cls o) = Element) then attributes o else [])
                ++ concat rest.
Proof.
  simpl. destruct (s !! n) as [o|]; [|discriminate]. simpl.
  destruct (forallb (fun a => Nat.ltb a (length s)) (attributes o)) eqn:Hattrs;
    [|discriminate].
  destruct (mapM (subtreeRefs f s) (childNodes o)) as [rest|] eqn:Hrest; [|discriminate].
  simpl. intros H. injection H as <-. exists o, rest.
  split; [reflexivity|]. split; [apply forallb_ltb_Forall, Hattrs|].
  split; [apply mapM_Some, Hrest | reflexivity].
Qed.

(** Every node of the subtree, and every attribute of an element of the
    subtree, is among the references of the walk. *)
Lemma subtreeRefs_covers (s : Store) n x :
  descendantOrSelf s n x ->
  forall f refs, subtreeRefs f s n = Some refs ->
    x ∈ refs
    /\ forall xo, s !! x = Some xo -> nodeType (cls xo) = Element ->
         forall a, a ∈ attributes xo -> a ∈ refs.
Proof.
  induction 1 as [n|n o k x Ho Hk _ IH]; intros f refs Hrefs;
    (destruct f as [|f]; [discriminate|]);
    destruct (subtreeRefs_S _ _ _ _ Hrefs) as (o' & rest & Ho' & _ & Hrest & ->).
  - split; [apply elem_of_cons; left; reflexivity|].
    intros xo Hxo He a Ha. rewrite Ho' in Hxo. injection Hxo as <-.
    destruct (decide (nodeType (cls o') = Element)); [|contradiction].
    apply elem_of_cons. right. apply elem_of_app. left. exact Ha.
  - rewrite Ho in Ho'. injection Ho' as <-.
    destruct (proj1 (list_elem_of_lookup _ _) Hk) as [i Hi].
    destruct (Forall2_lookup_l _ _ _ _ _ Hrest Hi) as (r & Hr & Hsub).
    destruct (IH f r Hsub) as [Hx Hattrs].
    assert (Hin : forall y, y ∈ r -> y ∈ n :: (if decide (nodeType (cls o) = Element)
                                                then attributes o else []) ++ concat rest).
    { intros y Hy. apply elem_of_cons. right. apply elem_of_app. right.
      apply elem_of_concat. exists r. split; [exact Hy|].
      eapply list_elem_of_lookup_2. exact Hr. }
    split; [apply Hin, Hx|].
    intros xo Hxo He a Ha. apply Hin. eapply Hattrs; eauto.
Qed.

(** In a closed region the walk stays in the region. *)
Lemma subtreeRefs_bounded lo hi (s : Store) :
  closed_between lo hi s ->
  forall f n refs, lo <= n < hi -> subtreeRefs f s n = Some refs ->
    Forall (fun r => lo <= r < hi) refs.
Proof.
  intros Hcl. induction f as [|f IH]; intros n refs Hn Hrefs; [discriminate|].
  destruct (subtreeRefs_S _ _ _ _ Hrefs) as (o & rest & Ho & _ & Hrest & ->).
  destruct (Hcl n o Hn Ho) as [Hkids Hattrs].
  constructor; [exact Hn|]. apply Forall_app. split.
  - destruct (decide (nodeType (cls o) = Element)); [exact Hattrs | constructor].
  - apply Forall_forall. intros y Hy. apply elem_of_concat in Hy as (r & Hy & Hr).
    destruct (proj1 (list_elem_of_lookup _ _) Hr) as [i Hi].
    destruct (Forall2_lookup_r _ _ _ _ _ Hrest Hi) as (k & Hk & Hsub).
    assert (Hkin : lo <= k < hi).
    { eapply (proj1 (Forall_forall _ _) Hkids). eapply list_elem_of_lookup_2. exact Hk. }
    pose proof (IH k r Hkin Hsub) as Hall.
    exact (proj1 (Forall_forall _ _) Hall y Hy).
Qed.

(** A subtree that has a shape can be walked. *)
Lemma shape_subtreeRefs (s : Store) : forall f n,
  is_Some (shape_of f s n) -> is_Some (subtreeRefs f s n).
Proof.
  induction f as [|f IH]; intros n [t Ht]; [discriminate|].
  simpl in Ht. simpl.
  destruct (s !! n) as [o|]; [|discriminate]. simpl in *.
  destruct (mapM (fun a => (fun ao => (cls ao, payload ao)) <$> s !! a) (attributes o))
    as [x|] eqn:Hx; [|discriminate].
  simpl in Ht.
  destruct (mapM (shape_of f s) (childNodes o)) as [y|] eqn:Hy; [|discriminate].
  assert (Hattrs : forallb (fun a => Nat.ltb a (length s)) (attributes o) = true).
  { apply forallb_ltb_Forall.
    assert (Hs : is_Some (mapM (fun a => (fun ao => (cls ao, payload ao)) <$> s !! a)
                            (attributes o))) by (rewrite Hx; eauto).
    apply mapM_is_Some in Hs. eapply Forall_impl; [exact Hs|]. simpl.
    intros a [v Hv]. destruct (s !! a) eqn:Ha; [|discriminate].
    eapply lookup_lt_Some. exact Ha. }
  rewrite Hattrs.
  assert (Hkids : is_Some (mapM (subtreeRefs f s) (childNodes o))).
  { apply mapM_is_Some.
    assert (Hs : is_Some (mapM (shape_of f s) (childNodes o))) by (rewrite Hy; eauto).
    apply mapM_is_Some in Hs. eapply Forall_impl; [exact Hs|]. simpl.
    intros k Hk. apply IH, Hk. }
  destruct Hkids as [rest ->]. simpl. eauto.
Qed.

Lemma ownerOf_reassigned d refs (s : Store) x :
  x ∈ refs -> x < length s -> ownerOf (reassignAll d refs s) x = Some d.
Proof.
  intros Hx Hlt. unfold ownerOf. rewrite reassignAll_lookup.
  destruct (lookup_lt_is_Some_2 s x Hlt) as [o ->]. simpl.
  destruct (decide (x ∈ refs)); [reflexivity | contradiction].
Qed.

Lemma reassignAll_outside d refs (s : Store) i :
  i ∉ refs -> reassignAll d refs s !! i = s !! i.
Proof.
  intros Hi. rewrite reassignAll_lookup. destruct (s !! i) as [o|]; [|reflexivity].
  simpl. destruct (decide (i ∈ refs)); [contradiction | reflexivity].
Qed.

(** ** importNode *)

(** C1: importing a Document (or a shadow root) fails with
    NotSupportedError and changes nothing.  Importing any other node of a
    valid tree returns a new node, a clone of the node (with its subtree
    when [deep]): the clone is detached; it and every node below it, and
    every attribute of every element among them, is owned by the importing
    document; every object that existed before, the original with its parent
    and owner document included, is as it was. *)
Theorem importNode_spec (T : NodeType -> NodeType -> bool) (fuel : nat)
    (s : Store) (this node : Ref) (deep : bool) (no : NodeObj) :
  s !! node = Some no ->
  (nodeType (cls no) = Document \/ cls no = ShadowRootC ->
     Document.importNode T fuel this node deep s
     = (Throw (DOMError NotSupportedError), s))
  /\ (forall h, valid_tree T s h node = true -> h <= fuel ->
      nodeType (cls no) <> Document -> cls no <> ShadowRootC ->
      exists s' co,
        Document.importNode T fuel this node deep s = (Ret (length s), s')
        /\ (forall i, i < length s -> s' !! i = s !! i)
        /\ s' !! length s = Some co
        /\ cls co = cls no /\ payload co = payload no /\ _parentNode co = None
        /\ (forall f t, shape_of f s node = Some t ->
              shape_of f s' (length s) = Some (cloneShape deep t))
        /\ (forall x, descendantOrSelf s' (length s) x ->
              ownerOf s' x = Some this
              /\ forall xo, s' !! x = Some xo -> nodeType (cls xo) = Element ->
                   forall a, a ∈ attributes xo -> ownerOf s' a = Some this)).
Proof.
  intros Hno. split.
  - intros Hcase. unfold Document.importNode, bind. rewrite (getObj_Some _ _ _ Hno).
    destruct (decide (nodeType (cls no) = Document)); [reflexivity|].
    destruct Hcase as [Hd|Hsr]; [contradiction|].
    destruct (decide (cls no = ShadowRootC)); [reflexivity | contradiction].
  - intros h Hv Hh Hnd Hnsr.
    destruct (Node_cloneNode_spec T s fuel h node deep [] Hv Hh) as [s1 [Hrun HCl]].
    rewrite app_nil_r in Hrun, HCl.
    destruct HCl as ([ext Hext] & Hcl1 & (o & co & Ho & Hco & Hc & Hp & Hpar & _) & Hshape & _).
    rewrite Hno in Ho. injection Ho as <-.
    destruct (valid_tree_shape T s h node fuel Hv Hh) as [t Ht].
    pose proof (Hshape fuel t Ht) as Ht1.
    destruct (shape_subtreeRefs s1 fuel (length s) (ex_intro _ _ Ht1)) as [refs Hrefs].
    set (c := length s) in *.
    assert (Hclt : c < length s1) by (eapply lookup_lt_Some; exact Hco).
    assert (Hbound : Forall (fun r => c <= r < length s1) refs).
    { apply (subtreeRefs_bounded c (length s1) s1 Hcl1 fuel c); [lia | exact Hrefs]. }
    set (s2 := reassignAll this refs s1).
    assert (Hrefs2 : subtreeRefs fuel s2 c = Some refs).
    { unfold s2. rewrite (subtreeRefs_struct s1); [exact Hrefs| |].
      - apply reassignAll_length.
      - intros i. apply reassignAll_structure. }
    assert (Hcin : c ∈ refs).
    { apply (subtreeRefs_covers s1 c c (dos_self s1 c) fuel refs Hrefs). }
    exists s2, (set_ownerDocument (Some this) co).
    split; [|split; [|split; [|split; [|split; [|split; [|split]]]]]].
    + unfold Document.importNode, bind. rewrite (getObj_Some _ _ _ Hno).
      destruct (decide (nodeType (cls no) = Document)); [contradiction|].
      destruct (decide (cls no = ShadowRootC)); [contradiction|].
      rewrite Hrun.
      change (Node.forEachDescendant fuel c true _ s1)
        with (Node.forEachDescendant fuel c true (Node.reassignOwner this) s1).
      rewrite (forEachDescendant_reassign this fuel s1 c refs Hrefs). reflexivity.
    + intros i Hi. unfold s2. rewrite reassignAll_outside.
      * rewrite Hext. apply lookup_app_l. exact Hi.
      * intros Hin. pose proof (proj1 (Forall_forall _ _) Hbound i Hin) as Hb.
        simpl in Hb. fold c in Hi. lia.
    + unfold s2. rewrite reassignAll_lookup, Hco. simpl.
      destruct (decide (c ∈ refs)); [reflexivity | contradiction].
    + exact Hc.
    + exact Hp.
    + exact Hpar.
    + intros f t' Ht'. unfold s2. rewrite (shape_of_struct s1).
      * apply Hshape, Ht'.
      * intros i. apply reassignAll_structure.
    + intros x Hx.
      destruct (subtreeRefs_covers s2 c x Hx fuel refs Hrefs2) as [Hxin Hattrs].
      assert (Hlt : forall y, y ∈ refs -> y < length s1).
      { intros y Hy. pose proof (proj1 (Forall_forall _ _) Hbound y Hy) as Hb.
        simpl in Hb. lia. }
      split.
      * apply ownerOf_reassigned; auto.
      * intros xo Hxo He a Ha.
        apply ownerOf_reassigned; [eapply Hattrs; eauto|].
        apply Hlt. eapply Hattrs; eauto.
Qed.

Lemma importNode_spec_witness :
  let no := mkNode ElementC (Some 0) (Some 0) [4; 5] [3] (ElementData None None "root") in
  (valid_tree sampleTable sampleStore 2 2 = true /\ 2 <= 2
   /\ sampleStore !! 2 = Some no
   /\ nodeType (cls no) <> Document /\ cls no <> ShadowRootC)
  /\ exists s' co,
       Document.importNode sampleTable 2 6 2 true sampleStore = (Ret 7, s')
       /\ (forall i, i < 7 -> s' !! i = sampleStore !! i)
       /\ s' !! 7 = Some co
       /\ cls co = cls no /\ payload co = payload no /\ _parentNode co = None
       /\ (forall f t, shape_of f sampleStore 2 = Some t ->
             shape_of f s' 7 = Some (cloneShape true t))
       /\ (forall x, descendantOrSelf s' 7 x ->
             ownerOf s' x = Some 6
             /\ forall xo, s' !! x = Some xo -> nodeType (cls xo) = Element ->
                  forall a, a ∈ attributes xo -> ownerOf s' a = Some 6).
Proof.
  intros no.
  assert (H1 : valid_tree sampleTable sampleStore 2 2 = true) by reflexivity.
  assert (H2 : 2 <= 2) by lia.
  assert (H3 : sampleStore !! 2 = Some no) by reflexivity.
  assert (H4 : nodeType (cls no) <> Document) by discriminate.
  assert (H5 : cls no <> ShadowRootC) by discriminate.
  split; [repeat split; assumption|].
  exact (proj2 (importNode_spec sampleTable 2 sampleStore 6 2 true no H3) 2 H1 H2 H4 H5).
Defined.

(** The store the sample import produces: the clone and what hangs below it
    sit at the addresses 7 to 10, all owned by document 6. *)
Example importNode_sample :
  Document.importNode sampleTable 2 6 2 true sampleStore
  = (Ret 7,
     sampleStore ++
     [ mkNode ElementC None (Some 6) [9; 10] [8] (ElementData None None "root");
       mkNode AttrC None (Some 6) [] [] (AttrData None None "id" "x");
       mkNode TextC (Some 7) (Some 6) [] [] (CharacterData "hi");
       mkNode ElementC (Some 7) (Some 6) [] [] (ElementData None None "b") ]).
Proof. vm_compute. reflexivity. Qed.

(** ** cloneNode on a Document *)

Lemma Document_cloneNode_dispatch (T : NodeType -> NodeType -> bool) fuel
    (s : Store) this deep o :
  s !! this = Some o -> cls o = DocumentC ->
  Document.cloneNode T fuel this deep s = Document.Node_cloneNode T (S fuel) this deep s.
Proof.
  intros Ho Hc. symmetry. cbn [Document.Node_cloneNode]. unfold bind at 1.
  rewrite (getObj_Some _ _ _ Ho).
  destruct (decide (cls o = DocumentC)); [reflexivity | contradiction].
Qed.

(** X17: [cloneNode(deep)] of [Document.ts] on a valid document: a new Document
    node with null parent is returned and nothing that existed is changed.
    With [deep], the children of the clone are, in document order, clones of
    the children of the original, each appended to the new document; without
    [deep] the clone has no children. *)
Theorem Document_cloneNode_spec (T : NodeType -> NodeType -> bool) (fuel h : nat)
    (s : Store) (this : Ref) (deep : bool) (o : NodeObj) :
  valid_tree T s h this = true ->
  h <= S fuel ->
  s !! this = Some o ->
  cls o = DocumentC ->
  exists s' co,
    Document.cloneNode T fuel this deep s = (Ret (length s), s')
    /\ (forall i, i < length s -> s' !! i = s !! i)
    /\ s' !! length s = Some co
    /\ cls co = DocumentC /\ _parentNode co = None
    /\ Forall2 (fun k k' =>
                  (forall f t, shape_of f s k = Some t -> shape_of f s' k' = Some t)
                  /\ parentOf s' k' = Some (length s))
         (if deep then childNodes o else []) (childNodes co)
    /\ (forall f t, shape_of f s this = Some t ->
          shape_of f s' (length s) = Some (cloneShape deep t)).
Proof.
  intros Hv Hh Ho Hc.
  destruct (Node_cloneNode_spec T s (S fuel) h this deep [] Hv Hh) as [s1 [Hrun HCl]].
  rewrite app_nil_r in Hrun, HCl.
  destruct HCl as ([ext Hext] & _ & (o' & co & Ho' & Hco & Hcc & _ & Hpar & _)
                   & Hshape & Hparents & Hpairs).
  rewrite Ho in Ho'. injection Ho' as <-.
  exists s1, co. split; [|split; [|split; [|split; [|split; [|split]]]]].
  - rewrite (Document_cloneNode_dispatch T fuel s this deep o Ho Hc). exact Hrun.
  - intros i Hi. rewrite Hext. apply lookup_app_l. exact Hi.
  - exact Hco.
  - rewrite Hcc. exact Hc.
  - exact Hpar.
  - specialize (Hpairs o co Ho Hco). specialize (Hparents co Hco).
    destruct deep.
    + apply (Forall2_impl_r _ _ _ _ _ Hpairs Hparents).
      intros k k' Hk (ko & Hko & Hkp). split.
      * intros f t Ht. exact (Hk f t Ht).
      * unfold parentOf. rewrite Hko. exact Hkp.
    + inversion Hpairs. constructor.
  - exact Hshape.
Qed.

Lemma Document_cloneNode_spec_witness :
  let o := mkNode DocumentC None None [1; 2] [] NoData in
  (valid_tree sampleTable sampleStore 3 0 = true /\ 3 <= S 2
   /\ sampleStore !! 0 = Some o /\ cls o = DocumentC)
  /\ exists s' co,
       Document.cloneNode sampleTable 2 0 true sampleStore = (Ret 7, s')
       /\ (forall i, i < 7 -> s' !! i = sampleStore !! i)
       /\ s' !! 7 = Some co
       /\ cls co = DocumentC /\ _parentNode co = None
       /\ Forall2 (fun k k' =>
                     (forall f t, shape_of f sampleStore k = Some t ->
                        shape_of f s' k' = Some t)
                     /\ parentOf s' k' = Some 7)
            [1; 2] (childNodes co)
       /\ (forall f t, shape_of f sampleStore 0 = Some t ->
             shape_of f s' 7 = Some (cloneShape true t)).
Proof.
  intros o.
  assert (H1 : valid_tree sampleTable sampleStore 3 0 = true) by reflexivity.
  assert (H2 : 3 <= S 2) by lia.
  assert (H3 : sampleStore !! 0 = Some o) by reflexivity.
  assert (H4 : cls o = DocumentC) by reflexivity.
  split; [repeat split; assumption|].
  exact (Document_cloneNode_spec sampleTable 2 3 sampleStore 0 true o H1 H2 H3 H4).
Defined.

(** X18: [cloneNode] of the earlier revision returns a new empty Document
    at the next free address whatever its arguments are, a document to
    clone into or a boolean, [deep] set or not: nothing is cloned below the
    document and nothing that existed is changed. *)
Lemma EarlyDocument_cloneNode_ignores_deep (s : Store) (this : Ref) (o : NodeObj)
    (document : EarlyDocument.DocumentOrBoolean) (deep : bool) :
  s !! this = Some o ->
  EarlyDocument.cloneNode this document deep s
  = (Ret (length s), s ++ [mkNode DocumentC None None [] [] NoData]).
Proof.
  intros Ho. unfold EarlyDocument.cloneNode.
  assert (Hclone : forall (d : option Ref) (s1 : Store),
            (clonedSelf <- new_Document ;;
             modifyObj clonedSelf (set_parentNode None) ;;; ret clonedSelf)%dom s1
            = (Ret (length s1), s1 ++ [mkNode DocumentC None None [] [] NoData])).
  { intros d s1. unfold bind, new_Document, alloc, modifyObj.
    rewrite list_lookup_middle by reflexivity.
    rewrite insert_app_r_alt by lia. rewrite Nat.sub_diag. reflexivity. }
  destruct document as [d|b|]; simpl; unfold bind at 1.
  - unfold ret at 1. apply (Hclone None).
  - unfold EarlyDocument.ownerDocument, bind. rewrite (getObj_Some _ _ _ Ho).
    unfold ret at 1. apply (Hclone None).
  - unfold EarlyDocument.ownerDocument, bind. rewrite (getObj_Some _ _ _ Ho).
    unfold ret at 1. apply (Hclone None).
Qed.

(** C5 on the earlier revision: [cloneNode(true)] of the sample document,
    which has two children, returns a Document without children. *)
Theorem EarlyDocument_cloneNode_deep_no_children :
  exists s' co,
    EarlyDocument.cloneNode 0 (EarlyDocument.ABoolean true) false sampleStore
      = (Ret 7, s')
    /\ s' !! 7 = Some co
    /\ childNodes co = []
    /\ (childNodes <$> sampleStore !! 0) = Some [1; 2]
    /\ exists s2 co2,
         Document.cloneNode sampleTable 2 0 true sampleStore = (Ret 7, s2)
         /\ s2 !! 7 = Some co2 /\ childNodes co2 = [8; 9].
Proof.
  eexists _, _. split; [reflexivity|]. split; [reflexivity|].
  split; [reflexivity|]. split; [reflexivity|].
  eexists _, _. split; [vm_compute; reflexivity|]. split; reflexivity.
Qed.

(** ** Detaching a node *)

Lemma modifyObj_alter (s : Store) n f :
  n < length s -> modifyObj n f s = (Ret tt, alter f n s).
Proof.
  intros Hn. destruct (lookup_lt_is_Some_2 s n Hn) as [o Ho].
  rewrite (modifyObj_Some _ _ _ _ Ho). f_equal.
  apply list_eq. intros i. destruct (decide (i = n)) as [->|Hne].
  - rewrite list_lookup_insert_eq by exact Hn.
    rewrite list_lookup_alter_eq, Ho. reflexivity.
  - rewrite list_lookup_insert_ne by congruence.
    rewrite list_lookup_alter_ne by congruence. reflexivity.
Qed.

Lemma detach_noparent (s : Store) n no :
  s !! n = Some no -> _parentNode no = None -> detach s n = s.
Proof. intros Ho Hp. unfold detach. rewrite Ho, Hp. reflexivity. Qed.

Lemma detach_lookup (s : Store) n no p po i :
  s !! n = Some no -> _parentNode no = Some p -> s !! p = Some po ->
  detach s n !! i
  = (fun o =>
       (if decide (i = n) then set_parentNode None else id)
         ((if decide (i = p)
           then set_childNodes (filter (fun c => c <> n) (childNodes o))
           else id) o)) <$> s !! i.
Proof.
  intros Ho Hp Hpo. unfold detach. rewrite Ho, Hp, Hpo.
  assert (Hplt : p < length s) by (eapply lookup_lt_Some; exact Hpo).
  destruct (decide (i = n)) as [->|Hin].
  - rewrite list_lookup_alter_eq.
    destruct (decide (n = p)) as [->|Hnp].
    + rewrite list_lookup_insert_eq by exact Hplt. rewrite Hpo. reflexivity.
    + rewrite list_lookup_insert_ne by congruence.
      destruct (s !! n); reflexivity.
  - rewrite list_lookup_alter_ne by congruence.
    destruct (decide (i = p)) as [->|Hip].
    + rewrite list_lookup_insert_eq by exact Hplt. rewrite Hpo. reflexivity.
    + rewrite list_lookup_insert_ne by congruence.
      destruct (s !! i); reflexivity.
Qed.

Lemma removeChild_detach (s : Store) node no p po :
  s !! node = Some no -> _parentNode no = Some p -> s !! p = Some po ->
  Node.removeChild p node s = (Ret node, detach s node).
Proof.
  intros Ho Hp Hpo. unfold Node.removeChild, bind. rewrite (getObj_Some _ _ _ Ho).
  destruct (decide (_parentNode no = Some p)); [|contradiction].
  unfold Node.unlink, bind. rewrite (modifyObj_Some _ _ _ _ Hpo).
  rewrite modifyObj_alter.
  - unfold detach. rewrite Ho, Hp, Hpo. reflexivity.
  - rewrite length_insert. eapply lookup_lt_Some. exact Ho.
Qed.

(** Detaching only removes child references: whatever could be walked
    before can be walked after. *)
Lemma subtreeRefs_thinned (s s1 : Store) :
  length s1 = length s ->
  (forall i o, s !! i = Some o ->
     exists o1, s1 !! i = Some o1 /\ attributes o1 = attributes o
                /\ forall k, k ∈ childNodes o1 -> k ∈ childNodes o) ->
  forall f n, is_Some (subtreeRefs f s n) -> is_Some (subtreeRefs f s1 n).
Proof.
  intros Hlen Hthin. induction f as [|f IH]; intros n [refs Hrefs]; [discriminate|].
  destruct (subtreeRefs_S _ _ _ _ Hrefs) as (o & rest & Ho & Hattrs & Hrest & _).
  destruct (Hthin n o Ho) as (o1 & Ho1 & Ha & Hk).
  simpl. rewrite Ho1. simpl. rewrite Ha, Hlen.
  rewrite (proj2 (forallb_ltb_Forall _ _) Hattrs).
  assert (Hkids : is_Some (mapM (subtreeRefs f s1) (childNodes o1))).
  { apply mapM_is_Some. apply Forall_forall. intros k Hk1. simpl. apply IH.
    specialize (Hk k Hk1).
    destruct (proj1 (list_elem_of_lookup _ _) Hk) as [i Hi].
    destruct (Forall2_lookup_l _ _ _ _ _ Hrest Hi) as (r & _ & Hr). eauto. }
  destruct Hkids as [rest1 ->]. simpl. eauto.
Qed.

Lemma detach_thins (s : Store) n no :
  s !! n = Some no ->
  (forall p, _parentNode no = Some p -> is_Some (s !! p)) ->
  length (detach s n) = length s
  /\ forall i o, s !! i = Some o ->
       exists o1, detach s n !! i = Some o1 /\ attributes o1 = attributes o
                  /\ forall k, k ∈ childNodes o1 -> k ∈ childNodes o.
Proof.
  intros Ho Hpar. destruct (_parentNode no) as [p|] eqn:Hp.
  - destruct (Hpar p eq_refl) as [po Hpo]. split.
    + unfold detach. rewrite Ho, Hp, Hpo.
      rewrite length_alter, length_insert. reflexivity.
    + intros i o Hi. rewrite (detach_lookup s n no p po i Ho Hp Hpo), Hi. simpl.
      eexists. split; [reflexivity|].
      destruct (decide (i = n)), (decide (i = p)); simpl; split; auto;
        intros k Hk; apply list_elem_of_filter in Hk; apply Hk.
  - rewrite (detach_noparent s n no Ho Hp). split; [reflexivity|].
    intros i o Hi. exists o. auto.
Qed.

Lemma detach_node (s : Store) n no :
  s !! n = Some no ->
  (forall p, _parentNode no = Some p -> is_Some (s !! p)) ->
  exists no1, detach s n !! n = Some no1
    /\ _parentNode no1 = None
    /\ _ownerDocument no1 = _ownerDocument no
    /\ cls no1 = cls no.
Proof.
  intros Ho Hpar. destruct (_parentNode no) as [p|] eqn:Hp.
  - destruct (Hpar p eq_refl) as [po Hpo].
    rewrite (detach_lookup s n no p po n Ho Hp Hpo), Ho. simpl.
    eexists. split; [reflexivity|].
    destruct (decide (n = n)); [|contradiction].
    destruct (decide (n = p)); simpl; auto.
  - rewrite (detach_noparent s n no Ho Hp). exists no. auto.
Qed.

Lemma detach_parent (s : Store) n no p po :
  s !! n = Some no -> _parentNode no = Some p -> s !! p = Some po ->
  exists po1, detach s n !! p = Some po1
    /\ childNodes po1 = filter (fun c => c <> n) (childNodes po).
Proof.
  intros Ho Hp Hpo. rewrite (detach_lookup s n no p po p Ho Hp Hpo), Hpo. simpl.
  eexists. split; [reflexivity|].
  destruct (decide (p = p)); [|contradiction].
  destruct (decide (p = n)); reflexivity.
Qed.

Lemma subtreeRefs_allocated (s : Store) : forall f n refs,
  subtreeRefs f s n = Some refs -> Forall (fun r => r < length s) refs.
Proof.
  induction f as [|f IH]; intros n refs Hrefs; [discriminate|].
  destruct (subtreeRefs_S _ _ _ _ Hrefs) as (o & rest & Ho & Hattrs & Hrest & ->).
  constructor; [eapply lookup_lt_Some; exact Ho|]. apply Forall_app. split.
  - destruct (decide (nodeType (cls o) = Element)); [exact Hattrs | constructor].
  - apply Forall_forall. intros y Hy. apply elem_of_concat in Hy as (r & Hy & Hr).
    destruct (proj1 (list_elem_of_lookup _ _) Hr) as [i Hi].
    destruct (Forall2_lookup_r _ _ _ _ _ Hrest Hi) as (k & Hk & Hsub).
    exact (proj1 (Forall_forall _ _) (IH k r Hsub) y Hy).
Qed.

(** ** adoptNode *)

Lemma Mutation_adoptNode_spec fuel (s : Store) node d no :
  s !! node = Some no ->
  (forall p, _parentNode no = Some p -> is_Some (s !! p)) ->
  is_Some (subtreeRefs fuel s node) ->
  exists refs,
    subtreeRefs fuel (detach s node) node = Some refs
    /\ Node.Mutation_adoptNode fuel node d s
       = (Ret tt,
          if decide (_ownerDocument no = Some d) then detach s node
          else reassignAll d refs (detach s node)).
Proof.
  intros Ho Hpar Hwalk.
  destruct (detach_thins s node no Ho Hpar) as [Hlen Hthin].
  destruct (subtreeRefs_thinned s (detach s node) Hlen Hthin fuel node Hwalk)
    as [refs Hrefs].
  exists refs. split; [exact Hrefs|].
  unfold Node.Mutation_adoptNode. unfold bind at 1. rewrite (getObj_Some _ _ _ Ho).
  assert (Hdetach : (match _parentNode no with
                     | Some p => (Node.removeChild p node ;;; ret tt)%dom
                     | None => ret tt
                     end) s = (Ret tt, detach s node)).
  { destruct (_parentNode no) as [p|] eqn:Hp.
    - destruct (Hpar p eq_refl) as [po Hpo]. unfold bind.
      rewrite (removeChild_detach s node no p po Ho Hp Hpo). reflexivity.
    - rewrite (detach_noparent s node no Ho Hp). reflexivity. }
  unfold bind at 1. rewrite Hdetach.
  destruct (decide (_ownerDocument no = Some d)); [reflexivity|].
  apply forEachDescendant_reassign, Hrefs.
Qed.

(** C2, as amended: adopting a Document fails with NotSupportedError and
    adopting a shadow root fails with HierarchyRequestError, the store staying
    as it was.  Any other node is first unlinked from its parent, if it has
    one; then, exactly when its owner document is not the adopting document,
    the owner document of the node, of every node below it and of every
    attribute of every element among them is set to the adopting document.
    The node itself is returned, with null parent and owned by the adopting
    document. *)
Theorem adoptNode_spec (fuel : nat) (s : Store) (this node : Ref) (no : NodeObj) :
  s !! node = Some no ->
  (nodeType (cls no) = Document ->
     Document.adoptNode fuel this node s = (Throw (DOMError NotSupportedError), s))
  /\ (cls no = ShadowRootC ->
     Document.adoptNode fuel this node s = (Throw (DOMError HierarchyRequestError), s))
  /\ ((forall p, _parentNode no = Some p -> is_Some (s !! p)) ->
      is_Some (subtreeRefs fuel s node) ->
      nodeType (cls no) <> Document -> cls no <> ShadowRootC ->
      exists s' no',
        Document.adoptNode fuel this node s = (Ret node, s')
        /\ s' !! node = Some no'
        /\ _parentNode no' = None
        /\ _ownerDocument no' = Some this
        /\ (forall p po, _parentNode no = Some p -> s !! p = Some po ->
              exists po', s' !! p = Some po'
                /\ childNodes po' = filter (fun c => c <> node) (childNodes po))
        /\ (_ownerDocument no = Some this -> s' = detach s node)
        /\ (_ownerDocument no <> Some this ->
              (exists refs, subtreeRefs fuel (detach s node) node = Some refs
                 /\ s' = reassignAll this refs (detach s node))
              /\ forall x, descendantOrSelf s' node x ->
                   ownerOf s' x = Some this
                   /\ forall xo, s' !! x = Some xo -> nodeType (cls xo) = Element ->
                        forall a, a ∈ attributes xo -> ownerOf s' a = Some this)).
Proof.
  intros Ho. split; [|split].
  - intros Hd. unfold Document.adoptNode, bind. rewrite (getObj_Some _ _ _ Ho).
    destruct (decide (nodeType (cls no) = Document)); [reflexivity | contradiction].
  - intros Hsr. unfold Document.adoptNode, bind. rewrite (getObj_Some _ _ _ Ho).
    destruct (decide (nodeType (cls no) = Document)) as [Hd|Hd].
    + rewrite Hsr in Hd. discriminate.
    + destruct (decide (cls no = ShadowRootC)); [reflexivity | contradiction].
  - intros Hpar Hwalk Hnd Hnsr.
    destruct (Mutation_adoptNode_spec fuel s node this no Ho Hpar Hwalk)
      as (refs & Hrefs & Hrun).
    destruct (detach_node s node no Ho Hpar) as (no1 & Hno1 & Hp1 & Hown1 & _).
    set (s1 := detach s node) in *.
    assert (Hadopt : forall s', Node.Mutation_adoptNode fuel node this s = (Ret tt, s') ->
              Document.adoptNode fuel this node s = (Ret node, s')).
    { intros s' Hs'. unfold Document.adoptNode, bind. rewrite (getObj_Some _ _ _ Ho).
      destruct (decide (nodeType (cls no) = Document)); [contradiction|].
      destruct (decide (cls no = ShadowRootC)); [contradiction|].
      rewrite Hs'. reflexivity. }
    assert (Hparent1 : forall p po, _parentNode no = Some p -> s !! p = Some po ->
              exists po', s1 !! p = Some po'
                /\ childNodes po' = filter (fun c => c <> node) (childNodes po)).
    { intros p po Hp Hpo. exact (detach_parent s node no p po Ho Hp Hpo). }
    destruct (decide (_ownerDocument no = Some this)) as [Hsame|Hdiff].
    + exists s1, no1. split; [apply Hadopt, Hrun|].
      split; [exact Hno1|]. split; [exact Hp1|].
      split; [rewrite Hown1; exact Hsame|].
      split; [exact Hparent1|].
      split; [reflexivity|]. intros Hne. contradiction.
    + set (s2 := reassignAll this refs s1) in *.
      assert (Hnin : node ∈ refs).
      { apply (subtreeRefs_covers s1 node node (dos_self s1 node) fuel refs Hrefs). }
      assert (Hrefs2 : subtreeRefs fuel s2 node = Some refs).
      { unfold s2. rewrite (subtreeRefs_struct s1); [exact Hrefs| |].
        - apply reassignAll_length.
        - intros i. apply reassignAll_structure. }
      pose proof (subtreeRefs_allocated s1 fuel node refs Hrefs) as Halloc.
      exists s2, (set_ownerDocument (Some this) no1).
      split; [apply Hadopt, Hrun|].
      split.
      { unfold s2. rewrite reassignAll_lookup, Hno1. simpl.
        destruct (decide (node ∈ refs)); [reflexivity | contradiction]. }
      split; [exact Hp1|]. split; [reflexivity|].
      split.
      { intros p po Hp Hpo. destruct (Hparent1 p po Hp Hpo) as (po1 & Hpo1 & Hk).
        unfold s2. rewrite reassignAll_lookup, Hpo1. simpl. eexists.
        split; [reflexivity|]. destruct (decide (p ∈ refs)); exact Hk. }
      split; [intros Hsame; contradiction|].
      intros _. split; [exists refs; split; [exact Hrefs | reflexivity]|].
      intros x Hx.
      destruct (subtreeRefs_covers s2 node x Hx fuel refs Hrefs2) as [Hxin Hattrs].
      assert (Hlt : forall y, y ∈ refs -> y < length s1).
      { intros y Hy. exact (proj1 (Forall_forall _ _) Halloc y Hy). }
      split.
      * apply ownerOf_reassigned; auto.
      * intros xo Hxo He a Ha.
        apply ownerOf_reassigned; [eapply Hattrs; eauto|].
        apply Hlt. eapply Hattrs; eauto.
Qed.

Lemma adoptNode_spec_witness :
  let no := mkNode ElementC (Some 0) (Some 0) [4; 5] [3] (ElementData None None "root") in
  (sampleStore !! 2 = Some no
   /\ (forall p, _parentNode no = Some p -> is_Some (sampleStore !! p))
   /\ is_Some (subtreeRefs 2 sampleStore 2)
   /\ nodeType (cls no) <> Document /\ cls no <> ShadowRootC)
  /\ exists s' no',
       Document.adoptNode 2 6 2 sampleStore = (Ret 2, s')
       /\ s' !! 2 = Some no'
       /\ _parentNode no' = None
       /\ _ownerDocument no' = Some 6
       /\ (forall p po, _parentNode no = Some p -> sampleStore !! p = Some po ->
             exists po', s' !! p = Some po'
               /\ childNodes po' = filter (fun c => c <> 2) (childNodes po))
       /\ (_ownerDocument no = Some 6 -> s' = detach sampleStore 2)
       /\ (_ownerDocument no <> Some 6 ->
             (exists refs, subtreeRefs 2 (detach sampleStore 2) 2 = Some refs
                /\ s' = reassignAll 6 refs (detach sampleStore 2))
             /\ forall x, descendantOrSelf s' 2 x ->
                  ownerOf s' x = Some 6
                  /\ forall xo, s' !! x = Some xo -> nodeType (cls xo) = Element ->
                       forall a, a ∈ attributes xo -> ownerOf s' a = Some 6).
Proof.
  intros no.
  assert (H1 : sampleStore !! 2 = Some no) by reflexivity.
  assert (H2 : forall p, _parentNode no = Some p -> is_Some (sampleStore !! p)).
  { intros p Hp. injection Hp as <-. eexists. reflexivity. }
  assert (H3 : is_Some (subtreeRefs 2 sampleStore 2)) by (eexists; reflexivity).
  assert (H4 : nodeType (cls no) <> Document) by discriminate.
  assert (H5 : cls no <> ShadowRootC) by discriminate.
  split; [repeat split; assumption|].
  exact (proj2 (proj2 (adoptNode_spec 2 sampleStore 6 2 no H1)) H2 H3 H4 H5).
Defined.

(** The store the sample adoption produces: the element has left document 0
    and it, its attribute and its two children are owned by document 6. *)
Example adoptNode_sample :
  Document.adoptNode 2 6 2 sampleStore
  = (Ret 2,
     [ mkNode DocumentC None None [1] [] NoData;
       mkNode DocumentTypeC (Some 0) (Some 0) [] [] NoData;
       mkNode ElementC None (Some 6) [4; 5] [3] (ElementData None None "root");
       mkNode AttrC None (Some 6) [] [] (AttrData None None "id" "x");
       mkNode TextC (Some 2) (Some 6) [] [] (CharacterData "hi");
       mkNode ElementC (Some 2) (Some 6) [] [] (ElementData None None "b");
       mkNode DocumentC None None [] [] NoData ]).
Proof. vm_compute. reflexivity. Qed.

(** C2 as stated fails: a shadow root is a node whose tag is not Document,
    and adopting it returns no node. *)
Lemma adoptNode_shadow_root_counterexample :
  tagOf sampleShadowStore 2 = Some DocumentFragment
  /\ Document.adoptNode 1 3 2 sampleShadowStore
     = (Throw (DOMError HierarchyRequestError), sampleShadowStore)
  /\ forall s', Document.adoptNode 1 3 2 sampleShadowStore <> (Ret 2, s').
Proof.
  split; [reflexivity|]. split; [reflexivity|]. intros s' H. discriminate H.
Qed.

(** ** The earlier revision: importNode and adoptNode *)

Lemma EarlyDocument_importNode_Document
    (cloneInto : Ref -> Ref -> bool -> M Ref) (s : Store) this node deep no :
  s !! node = Some no ->
  (nodeType (cls no) = Document ->
     EarlyDocument.importNode cloneInto this node deep s
     = (Throw (DOMError NotSupportedError), s))
  /\ (nodeType (cls no) <> Document ->
     EarlyDocument.importNode cloneInto this node deep s = cloneInto node this deep s).
Proof.
  intros Ho. unfold EarlyDocument.importNode, bind. rewrite (getObj_Some _ _ _ Ho).
  split; intros H; destruct (decide (nodeType (cls no) = Document));
    try reflexivity; contradiction.
Qed.

Lemma reassignAll_ext d (A B : list nat) (s : Store) :
  (forall i, i ∈ A <-> i ∈ B) -> reassignAll d A s = reassignAll d B s.
Proof.
  intros H. apply list_eq. intros i. rewrite !reassignAll_lookup.
  destruct (s !! i) as [o|]; [|reflexivity]. simpl.
  destruct (decide (i ∈ A)) as [HA|HA], (decide (i ∈ B)) as [HB|HB];
    try reflexivity; exfalso; apply H in HA || apply H in HB; contradiction.
Qed.

(** X19: when the traversal helper of the earlier revision visits the node
    itself, the earlier [adoptNode] computes what the later one computes,
    result and store, on every node that is not a shadow root. *)
Lemma EarlyDocument_adoptNode_agrees fuel (s : Store) this node no :
  s !! node = Some no ->
  (forall p, _parentNode no = Some p -> is_Some (s !! p)) ->
  is_Some (subtreeRefs fuel s node) ->
  cls no <> ShadowRootC ->
  EarlyDocument.adoptNode true fuel this node s = Document.adoptNode fuel this node s.
Proof.
  intros Ho Hpar Hwalk Hnsr.
  destruct (Mutation_adoptNode_spec fuel s node this no Ho Hpar Hwalk)
    as (refs & Hrefs & Hrun).
  destruct (detach_node s node no Ho Hpar) as (no1 & Hno1 & _).
  assert (Hlater : Document.adoptNode fuel this node s
            = if decide (nodeType (cls no) = Document)
              then (Throw (DOMError NotSupportedError), s)
              else (Ret node,
                    if decide (_ownerDocument no = Some this) then detach s node
                    else reassignAll this refs (detach s node))).
  { unfold Document.adoptNode, bind. rewrite (getObj_Some _ _ _ Ho).
    destruct (decide (nodeType (cls no) = Document)); [reflexivity|].
    destruct (decide (cls no = ShadowRootC)); [contradiction|].
    rewrite Hrun. reflexivity. }
  rewrite Hlater. clear Hlater Hrun.
  unfold EarlyDocument.adoptNode. unfold bind at 1.
  rewrite (getObj_Some _ _ _ Ho).
  destruct (decide (nodeType (cls no) = Document)); [reflexivity|].
  unfold bind at 1. unfold EarlyDocument.ownerDocument at 1. unfold bind at 1.
  rewrite (getObj_Some _ _ _ Ho). unfold ret at 1.
  assert (Hdetach : (match _parentNode no with
                     | Some p => (Node.removeChild p node ;;; ret tt)%dom
                     | None => ret tt
                     end) s = (Ret tt, detach s node)).
  { destruct (_parentNode no) as [p|] eqn:Hp.
    - destruct (Hpar p eq_refl) as [po Hpo]. unfold bind.
      rewrite (removeChild_detach s node no p po Ho Hp Hpo). reflexivity.
    - rewrite (detach_noparent s node no Ho Hp). reflexivity. }
  unfold bind at 1. rewrite Hdetach. unfold bind at 1.
  destruct (decide (Some this <> _ownerDocument no)) as [Hd|Hd];
    destruct (decide (_ownerDocument no = Some this)) as [He|He].
  - congruence.
  - unfold bind at 1.
    rewrite modify_owner_reassign by (eapply lookup_lt_Some; exact Hno1).
    change (Node.forEachDescendant fuel node true _ (reassignAll this [node] (detach s node)))
      with (Node.forEachDescendant fuel node true (Node.reassignOwner this)
              (reassignAll this [node] (detach s node))).
    rewrite (forEachDescendant_reassign this fuel _ node refs).
    + rewrite reassignAll_app. unfold ret.
      rewrite (reassignAll_ext this ([node] ++ refs) refs); [reflexivity|].
      intros i. rewrite elem_of_app, list_elem_of_singleton. split; [|auto].
      intros [->|H]; [|exact H].
      apply (subtreeRefs_covers _ node node (dos_self _ node) fuel refs Hrefs).
    + rewrite (subtreeRefs_struct (detach s node)); [exact Hrefs| |].
      * apply reassignAll_length.
      * intros i. apply reassignAll_structure.
  - reflexivity.
  - exfalso. apply Hd. intros H. apply He. congruence.
Qed.

(** When it does not, the attributes of the adopted element itself keep
    their owner document. *)
Example EarlyDocument_adoptNode_without_self :
  ownerOf (snd (EarlyDocument.adoptNode false 2 6 2 sampleStore)) 3 = Some 0
  /\ ownerOf (snd (EarlyDocument.adoptNode true 2 6 2 sampleStore)) 3 = Some 6
  /\ ownerOf (snd (EarlyDocument.adoptNode false 2 6 2 sampleStore)) 2 = Some 6.
Proof. repeat split. Qed.

(** * Part III: further properties of the class *)

(** ** The creation operations allocate one detached node or nothing *)

Lemma FactoryResult_alloc this (s : Store) o :
  _parentNode o = None -> _ownerDocument o = Some this ->
  childNodes o = [] -> attributes o = [] ->
  FactoryResult this s (alloc o s).
Proof. intros. right. exists o. repeat split; assumption. Qed.

Lemma FactoryResult_throw this (s : Store) e :
  FactoryResult this s (throw e s).
Proof. left. exists e. reflexivity. Qed.

Lemma createElement_FactoryResult this name s :
  FactoryResult this s (Document.createElement this name s).
Proof.
  unfold Document.createElement. destruct (XMLSpec.Name name); simpl.
  - apply FactoryResult_alloc; reflexivity.
  - apply FactoryResult_throw.
Qed.

Lemma createAttribute_FactoryResult this name s :
  FactoryResult this s (Document.createAttribute this name s).
Proof.
  unfold Document.createAttribute. destruct (XMLSpec.Name name); simpl.
  - apply FactoryResult_alloc; reflexivity.
  - apply FactoryResult_throw.
Qed.

Lemma createCDATASection_FactoryResult this data s :
  FactoryResult this s (Document.createCDATASection this data s).
Proof.
  unfold Document.createCDATASection. destruct (JSString.includes data "]]>").
  - apply FactoryResult_throw.
  - apply FactoryResult_alloc; reflexivity.
Qed.

Lemma createProcessingInstruction_FactoryResult this target data s :
  FactoryResult this s (Document.createProcessingInstruction this target data s).
Proof.
  unfold Document.createProcessingInstruction.
  destruct (XMLSpec.Name target); simpl; [|apply FactoryResult_throw].
  destruct (JSString.includes data "?>").
  - apply FactoryResult_throw.
  - apply FactoryResult_alloc; reflexivity.
Qed.

Lemma createElementNS_FactoryResult extractNames this namespace qualifiedName s :
  FactoryResult this s (Document.createElementNS extractNames this namespace qualifiedName s).
Proof.
  unfold Document.createElementNS, bind, Document.liftThrown.
  destruct (extractNames namespace qualifiedName) as [e|names]; simpl.
  - apply FactoryResult_throw.
  - apply FactoryResult_alloc; reflexivity.
Qed.

Lemma createAttributeNS_FactoryResult extractNames this namespace qualifiedName s :
  FactoryResult this s (Document.createAttributeNS extractNames this namespace qualifiedName s).
Proof.
  unfold Document.createAttributeNS, bind, Document.liftThrown.
  destruct (extractNames (Some namespace) qualifiedName) as [e|names]; simpl.
  - apply FactoryResult_throw.
  - apply FactoryResult_alloc; reflexivity.
Qed.

(** X1: each of the nine creation operations either throws and leaves the
    store as it is, or places exactly one new object at the next free
    address, detached (null parent, no children, no attributes) and owned by
    the document; no object that existed is touched.  [createTextNode],
    [createComment] and [createDocumentFragment] never throw, whatever the
    data holds. *)
Theorem factories_allocate_one
    (extractNames : option string -> string -> Thrown + Document.Names)
    (this : Ref) (s : Store) (name data ns : string) (namespace : option string) :
  FactoryResult this s (Document.createElement this name s)
  /\ FactoryResult this s (Document.createElementNS extractNames this namespace name s)
  /\ FactoryResult this s (Document.createAttribute this name s)
  /\ FactoryResult this s (Document.createAttributeNS extractNames this ns name s)
  /\ FactoryResult this s (Document.createCDATASection this data s)
  /\ FactoryResult this s (Document.createProcessingInstruction this name data s)
  /\ Document.createTextNode this data s
     = (Ret (length s), s ++ [mkNode TextC None (Some this) [] [] (CharacterData data)])
  /\ Document.createComment this data s
     = (Ret (length s), s ++ [mkNode CommentC None (Some this) [] [] (CharacterData data)])
  /\ Document.createDocumentFragment this s
     = (Ret (length s), s ++ [mkNode DocumentFragmentC None (Some this) [] [] NoData]).
Proof.
  split; [apply createElement_FactoryResult|].
  split; [apply createElementNS_FactoryResult|].
  split; [apply createAttribute_FactoryResult|].
  split; [apply createAttributeNS_FactoryResult|].
  split; [apply createCDATASection_FactoryResult|].
  split; [apply createProcessingInstruction_FactoryResult|].
  repeat split.
Qed.

(** X2: [createElement] and [createAttribute] succeed exactly on the names
    that are Names.  The element has the name as local name, no namespace
    and no prefix; the attribute has the empty value. *)
Theorem createElement_createAttribute_succeed (this : Ref) (name : string) (s : Store) :
  (XMLSpec.Name name = true <->
     Document.createElement this name s
     = (Ret (length s),
        s ++ [mkNode ElementC None (Some this) [] [] (ElementData None None name)]))
  /\ (XMLSpec.Name name = true <->
     Document.createAttribute this name s
     = (Ret (length s),
        s ++ [mkNode AttrC None (Some this) [] [] (AttrData None None name EmptyString)]))
  /\ (XMLSpec.Name name = true <-> exists r s', Document.createElement this name s = (Ret r, s'))
  /\ (XMLSpec.Name name = true <-> exists r s', Document.createAttribute this name s = (Ret r, s')).
Proof.
  unfold Document.createElement, Document.createAttribute.
  destruct (XMLSpec.Name name); simpl; repeat split; intros H;
    try reflexivity; try discriminate H; eauto;
    destruct H as (r & s' & H); discriminate H.
Qed.

(** ** The root getters only read the child list and the tags of the children *)

Lemma documentElement_loop_agree (s s' : Store) children :
  allocated s children ->
  (forall c, c ∈ children -> tagOf s' c = tagOf s c) ->
  exists r, Document.documentElement_loop children s = (Ret r, s)
            /\ Document.documentElement_loop children s' = (Ret r, s').
Proof.
  induction 1 as [|c rest [o Ho] _ IH]; intros Htag; simpl.
  - exists None. split; reflexivity.
  - assert (Hc : tagOf s' c = Some (nodeType (cls o))).
    { rewrite Htag by (apply elem_of_cons; left; reflexivity).
      apply tagOf_Some, Ho. }
    unfold tagOf in Hc. destruct (s' !! c) as [o'|] eqn:Ho'; [|discriminate].
    simpl in Hc. injection Hc as Hc.
    unfold bind. rewrite (getObj_Some _ _ _ Ho), (getObj_Some _ _ _ Ho'), Hc.
    destruct (decide (nodeType (cls o) = Element)).
    + exists (Some c). split; reflexivity.
    + apply IH. intros x Hx. apply Htag. apply elem_of_cons. right. exact Hx.
Qed.

Lemma doctype_loop_agree (s s' : Store) children :
  allocated s children ->
  (forall c, c ∈ children -> tagOf s' c = tagOf s c) ->
  exists r, Document.doctype_loop children s = (Ret r, s)
            /\ Document.doctype_loop children s' = (Ret r, s').
Proof.
  induction 1 as [|c rest [o Ho] _ IH]; intros Htag; simpl.
  - exists None. split; reflexivity.
  - assert (Hc : tagOf s' c = Some (nodeType (cls o))).
    { rewrite Htag by (apply elem_of_cons; left; reflexivity).
      apply tagOf_Some, Ho. }
    unfold tagOf in Hc. destruct (s' !! c) as [o'|] eqn:Ho'; [|discriminate].
    simpl in Hc. injection Hc as Hc.
    unfold bind. rewrite (getObj_Some _ _ _ Ho), (getObj_Some _ _ _ Ho'), Hc.
    destruct (decide (nodeType (cls o) = DocumentType)).
    + exists (Some c). split; reflexivity.
    + apply IH. intros x Hx. apply Htag. apply elem_of_cons. right. exact Hx.
Qed.

(** Two stores in which the document has the same children, with the same
    tags, give the same roots. *)
Lemma roots_agree (s s' : Store) d o o' :
  s !! d = Some o -> s' !! d = Some o' ->
  childNodes o' = childNodes o ->
  allocated s (childNodes o) ->
  (forall c, c ∈ childNodes o -> tagOf s' c = tagOf s c) ->
  exists de dt,
    Document.documentElement d s = (Ret de, s)
    /\ Document.documentElement d s' = (Ret de, s')
    /\ Document.doctype d s = (Ret dt, s)
    /\ Document.doctype d s' = (Ret dt, s').
Proof.
  intros Ho Ho' Hk Ha Htag.
  destruct (documentElement_loop_agree s s' _ Ha Htag) as (de & H1 & H2).
  destruct (doctype_loop_agree s s' _ Ha Htag) as (dt & H3 & H4).
  exists de, dt. unfold Document.documentElement, Document.doctype, bind.
  rewrite (getObj_Some _ _ _ Ho), (getObj_Some _ _ _ Ho'), Hk.
  repeat split; assumption.
Qed.

(** What existed is found again in a store that agrees below the old length. *)
Lemma roots_preserved (s s' : Store) d o :
  s !! d = Some o ->
  allocated s (childNodes o) ->
  (forall i, i < length s -> s' !! i = s !! i) ->
  exists de dt,
    Document.documentElement d s = (Ret de, s)
    /\ Document.documentElement d s' = (Ret de, s')
    /\ Document.doctype d s = (Ret dt, s)
    /\ Document.doctype d s' = (Ret dt, s').
Proof.
  intros Ho Ha Hold.
  assert (Hd : s' !! d = Some o).
  { rewrite Hold; [exact Ho | eapply lookup_lt_Some; exact Ho]. }
  apply (roots_agree s s' d o o Ho Hd eq_refl Ha).
  intros c Hc. unfold tagOf. rewrite Hold; [reflexivity|].
  destruct (proj1 (Forall_forall _ _) Ha c Hc) as [co Hco].
  eapply lookup_lt_Some. exact Hco.
Qed.

Lemma FactoryResult_KeepsRoots this d (s : Store) o res :
  s !! d = Some o ->
  allocated s (childNodes o) ->
  FactoryResult this s res ->
  KeepsRoots d s res.
Proof.
  intros Ho Ha [[e ->]|(x & -> & _)]; simpl.
  - apply (roots_preserved s s d o Ho Ha). reflexivity.
  - apply (roots_preserved s (s ++ [x]) d o Ho Ha).
    intros i Hi. apply lookup_app_l. exact Hi.
Qed.

(** X3: creating a node does not insert it.  After any of the nine creation
    operations, by any document and whether it returned or threw,
    [documentElement] and [doctype] of every document answer what they
    answered before: the new node has to be attached with [appendChild] to
    become part of a tree. *)
Theorem factories_keep_roots
    (extractNames : option string -> string -> Thrown + Document.Names)
    (this d : Ref) (s : Store) (o : NodeObj)
    (name data ns : string) (namespace : option string) :
  s !! d = Some o ->
  allocated s (childNodes o) ->
  KeepsRoots d s (Document.createElement this name s)
  /\ KeepsRoots d s (Document.createElementNS extractNames this namespace name s)
  /\ KeepsRoots d s (Document.createAttribute this name s)
  /\ KeepsRoots d s (Document.createAttributeNS extractNames this ns name s)
  /\ KeepsRoots d s (Document.createCDATASection this data s)
  /\ KeepsRoots d s (Document.createProcessingInstruction this name data s)
  /\ KeepsRoots d s (Document.createTextNode this data s)
  /\ KeepsRoots d s (Document.createComment this data s)
  /\ KeepsRoots d s (Document.createDocumentFragment this s).
Proof.
  intros Ho Ha.
  pose proof (FactoryResult_KeepsRoots this d s o) as K.
  repeat split; apply K; try assumption.
  - apply createElement_FactoryResult.
  - apply createElementNS_FactoryResult.
  - apply createAttribute_FactoryResult.
  - apply createAttributeNS_FactoryResult.
  - apply createCDATASection_FactoryResult.
  - apply createProcessingInstruction_FactoryResult.
  - apply FactoryResult_alloc; reflexivity.
  - apply FactoryResult_alloc; reflexivity.
  - apply FactoryResult_alloc; reflexivity.
Qed.

Lemma factories_keep_roots_witness :
  let o := mkNode DocumentC None None [1; 2] [] NoData in
  (sampleStore !! 0 = Some o /\ allocated sampleStore (childNodes o))
  /\ KeepsRoots 0 sampleStore (Document.createElement 0 "second" sampleStore)
  /\ KeepsRoots 0 sampleStore (Document.createTextNode 6 "text" sampleStore).
Proof.
  intros o.
  assert (H1 : sampleStore !! 0 = Some o) by reflexivity.
  assert (H2 : allocated sampleStore (childNodes o)) by solve_allocated.
  split; [split; assumption|].
  pose proof (factories_keep_roots sampleExtractNames 0 0 sampleStore o
                "second" "text" "urn:x" None H1 H2) as (Ha & _).
  pose proof (factories_keep_roots sampleExtractNames 6 0 sampleStore o
                "second" "text" "urn:x" None H1 H2) as (_ & _ & _ & _ & _ & _ & Hb & _).
  split; assumption.
Defined.

(** ** The filters of the collections *)

Lemma strictEqual_spec x str : Document.strictEqual x str = true <-> x = Some str.
Proof.
  destruct x as [y|]; simpl.
  - rewrite String.eqb_eq. split; [intros ->; reflexivity | intros H; congruence].
  - split; intros H; discriminate H.
Qed.

Lemma allClassesFound_loop_spec (contains : string -> bool) arr :
  Document.allClassesFound_loop contains arr true = true
  <-> forall className, className ∈ arr -> contains className = true.
Proof.
  induction arr as [|c rest IH]; simpl.
  - split; [|reflexivity]. intros _ x Hx. apply elem_of_nil in Hx. contradiction.
  - destruct (contains c) eqn:Hc; simpl.
    + rewrite IH. split.
      * intros H x Hx. apply elem_of_cons in Hx as [->|Hx]; [exact Hc | apply H, Hx].
      * intros H x Hx. apply H. apply elem_of_cons. right. exact Hx.
    + split; [discriminate|]. intros H.
      rewrite <- Hc. apply H. apply elem_of_cons. left. reflexivity.
Qed.

(** X4: [getElementsByTagNameNS] builds, without touching the store, a
    collection rooted at the document whose filter accepts an element exactly
    when its local name is the one asked for (or [*] was asked for) and its
    namespace is the one asked for (or [*] was asked for).  The namespace is
    compared with [===], so no namespace string, the empty one included,
    selects the elements whose namespace is null: only [*] reaches them. *)
Theorem getElementsByTagNameNS_filter (this : Ref) (namespace localName : string)
    (s : Store) :
  exists c,
    Document.getElementsByTagNameNS this namespace localName s = (Ret c, s)
    /\ Document.collection_root c = this
    /\ (forall ele,
          Document.collection_filter c ele = true
          <-> (localName = "*" \/ Document.Element_localName ele = localName)
              /\ (namespace = "*" \/ Document.Element_namespaceURI ele = Some namespace))
    /\ (forall ele,
          Document.Element_namespaceURI ele = None ->
          (Document.collection_filter c ele = true
           <-> namespace = "*"
               /\ (localName = "*" \/ Document.Element_localName ele = localName))).
Proof.
  eexists. split; [reflexivity|]. split; [reflexivity|].
  assert (Hgen : forall ele,
    (String.eqb localName "*" || String.eqb (Document.Element_localName ele) localName)
    && (String.eqb namespace "*"
        || Document.strictEqual (Document.Element_namespaceURI ele) namespace) = true
    <-> (localName = "*" \/ Document.Element_localName ele = localName)
        /\ (namespace = "*" \/ Document.Element_namespaceURI ele = Some namespace)).
  { intros ele. rewrite andb_true_iff, !orb_true_iff, !String.eqb_eq, strictEqual_spec.
    reflexivity. }
  split; [exact Hgen|].
  intros ele Hnull. simpl. rewrite Hgen, Hnull. split.
  - intros [Hl [Hn|Hn]]; [split; assumption | discriminate Hn].
  - intros [Hn Hl]. split; [exact Hl | left; exact Hn].
Qed.

(** X5: an element made by [createElement] has a null namespace, so
    [getElementsByTagNameNS(namespace, localName)] accepts it if and only if
    the namespace asked for is [*] and the local name asked for is [*] or
    the name the element was created with. *)
Theorem createElement_then_getElementsByTagNameNS
    (this d : Ref) (name namespace localName : string) (s : Store) :
  XMLSpec.Name name = true ->
  exists o c,
    Document.createElement d name s = (Ret (length s), s ++ [o])
    /\ Document.getElementsByTagNameNS this namespace localName (s ++ [o])
       = (Ret c, s ++ [o])
    /\ (Document.collection_filter c o = true
        <-> namespace = "*" /\ (localName = "*" \/ localName = name)).
Proof.
  intros Hname. unfold Document.createElement. rewrite Hname. simpl.
  eexists _, _. split; [reflexivity|]. split; [reflexivity|]. simpl.
  rewrite andb_true_iff, !orb_true_iff, !String.eqb_eq. split.
  - intros [Hl [Hn|Hn]]; [|discriminate Hn].
    split; [exact Hn|]. destruct Hl as [Hl|Hl]; [left; exact Hl | right; symmetry; exact Hl].
  - intros [Hn Hl]. split; [|left; exact Hn].
    destruct Hl as [Hl|Hl]; [left; exact Hl | right; symmetry; exact Hl].
Qed.

Lemma createElement_then_getElementsByTagNameNS_witness :
  XMLSpec.Name "a" = true
  /\ exists o c,
       Document.createElement 0 "a" sampleStore
       = (Ret (length sampleStore), sampleStore ++ [o])
       /\ Document.getElementsByTagNameNS 0 EmptyString "a" (sampleStore ++ [o])
          = (Ret c, sampleStore ++ [o])
       /\ (Document.collection_filter c o = true
           <-> EmptyString = "*" /\ ("a" = "*" \/ "a" = "a")).
Proof.
  assert (H : XMLSpec.Name "a" = true) by reflexivity.
  split; [exact H|].
  exact (createElement_then_getElementsByTagNameNS 0 0 "a" EmptyString "a" sampleStore H).
Defined.

(** X6: [getElementsByTagName] and [getElementsByClassName] build, without
    touching the store, a collection rooted at the document.  The filter of
    the first accepts every element when [*] is asked for and otherwise the
    elements whose tag name is the one asked for; the filter of the second
    accepts an element exactly when its class list contains every class name
    parsed from the argument, hence every element when nothing is parsed. *)
Theorem getElementsBy_filters
    (Element_tagName : NodeObj -> string)
    (Element_classList_contains : NodeObj -> string -> bool)
    (OrderedSet_parse : string -> list string)
    (this : Ref) (str : string) (s : Store) :
  (exists c,
     Document.getElementsByTagName Element_tagName this str s = (Ret c, s)
     /\ Document.collection_root c = this
     /\ forall ele, Document.collection_filter c ele = true
                    <-> str = "*" \/ Element_tagName ele = str)
  /\ (exists c,
     Document.getElementsByClassName Element_classList_contains OrderedSet_parse this str s
     = (Ret c, s)
     /\ Document.collection_root c = this
     /\ (forall ele, Document.collection_filter c ele = true
                     <-> forall className, className ∈ OrderedSet_parse str ->
                           Element_classList_contains ele className = true)
     /\ (OrderedSet_parse str = [] ->
         forall ele, Document.collection_filter c ele = true)).
Proof.
  split.
  - eexists. split; [reflexivity|]. split; [reflexivity|].
    intros ele. simpl. rewrite orb_true_iff, !String.eqb_eq. reflexivity.
  - eexists. split; [reflexivity|]. split; [reflexivity|]. split.
    + intros ele. simpl. apply allClassesFound_loop_spec.
    + intros Hnil ele. simpl. rewrite Hnil. reflexivity.
Qed.

(** ** Trees that have a shape have no cycle *)

Lemma shape_of_S_inv f (s : Store) n t :
  shape_of (S f) s n = Some t ->
  exists o attrs children,
    s !! n = Some o
    /\ mapM (fun a => (fun ao => (cls ao, payload ao)) <$> s !! a) (attributes o) = Some attrs
    /\ mapM (shape_of f s) (childNodes o) = Some children
    /\ t = ShapeNode (cls o) (payload o) attrs children.
Proof.
  simpl. destruct (s !! n) as [o|]; [|discriminate]. simpl.
  destruct (mapM (fun a => (fun ao => (cls ao, payload ao)) <$> s !! a) (attributes o))
    as [attrs|] eqn:Ha; [|discriminate].
  simpl.
  destruct (mapM (shape_of f s) (childNodes o)) as [children|] eqn:Hk; [|discriminate].
  simpl. intros H. injection H as <-. exists o, attrs, children.
  split; [reflexivity|]. split; [exact Ha|]. split; [exact Hk | reflexivity].
Qed.

Lemma shape_of_S_eq f (s : Store) n o attrs children :
  s !! n = Some o ->
  mapM (fun a => (fun ao => (cls ao, payload ao)) <$> s !! a) (attributes o) = Some attrs ->
  mapM (shape_of f s) (childNodes o) = Some children ->
  shape_of (S f) s n = Some (ShapeNode (cls o) (payload o) attrs children).
Proof.
  intros Ho Ha Hk. simpl. rewrite Ho. simpl. rewrite Ha. simpl. rewrite Hk. reflexivity.
Qed.

Lemma shape_of_mono (s : Store) : forall f n t,
  shape_of f s n = Some t -> shape_of (S f) s n = Some t.
Proof.
  induction f as [|f IH]; intros n t Ht; [discriminate|].
  destruct (shape_of_S_inv _ _ _ _ Ht) as (o & attrs & children & Ho & Ha & Hk & ->).
  apply shape_of_S_eq; [exact Ho | exact Ha |].
  apply mapM_Some. apply mapM_Some in Hk.
  eapply Forall2_impl; [exact Hk|]. intros k tk Htk. apply IH, Htk.
Qed.

Lemma shape_of_child f (s : Store) n o k :
  is_Some (shape_of (S f) s n) -> s !! n = Some o -> k ∈ childNodes o ->
  is_Some (shape_of f s k).
Proof.
  intros [t Ht] Ho Hk.
  destruct (shape_of_S_inv _ _ _ _ Ht) as (o' & attrs & children & Ho' & _ & Hkids & _).
  rewrite Ho in Ho'. injection Ho' as <-.
  apply mapM_Some in Hkids.
  destruct (proj1 (list_elem_of_lookup _ _) Hk) as [i Hi].
  destruct (Forall2_lookup_l _ _ _ _ _ Hkids Hi) as (tk & _ & Htk). eauto.
Qed.

Lemma shape_of_descendant (s : Store) n x :
  descendantOrSelf s n x ->
  forall f, is_Some (shape_of f s n) -> is_Some (shape_of f s x).
Proof.
  induction 1 as [n|n o k x Ho Hk _ IH]; intros f Hn; [exact Hn|].
  destruct f as [|f]; [destruct Hn as [t Ht]; discriminate|].
  destruct (IH f (shape_of_child f s n o k Hn Ho Hk)) as [t Ht].
  exists t. apply shape_of_mono, Ht.
Qed.

(** No node of the subtree of [n] has [n] as a child. *)
Lemma shape_of_no_cycle (s : Store) n x xo :
  descendantOrSelf s n x -> s !! x = Some xo -> n ∈ childNodes xo ->
  forall f, ~ is_Some (shape_of f s n).
Proof.
  intros Hx Hxo Hn. induction f as [|f IH]; intros Hs.
  - destruct Hs as [t Ht]. discriminate.
  - apply IH. apply (shape_of_child f s x xo n); [|exact Hxo | exact Hn].
    apply (shape_of_descendant s n x Hx), Hs.
Qed.

(** The shape of a subtree only depends on the structure of its nodes and
    on the class and payload of the attributes. *)
Lemma shape_of_local (s s' : Store) :
  (forall a, (fun ao => (cls ao, payload ao)) <$> s' !! a
             = (fun ao => (cls ao, payload ao)) <$> s !! a) ->
  forall f n,
    (forall x, descendantOrSelf s n x -> structure <$> s' !! x = structure <$> s !! x) ->
    shape_of f s' n = shape_of f s n.
Proof.
  intros Hattr. induction f as [|f IH]; intros n Hst; [reflexivity|].
  simpl. pose proof (Hst n (dos_self s n)) as Hs.
  destruct (lookup_cases s n) as [[o Ho]|Ho];
    [|rewrite (struct_agree_None _ _ _ Hs Ho), Ho; reflexivity].
  destruct (struct_agree_Some _ _ _ _ Hs Ho) as (o' & Ho' & Hc & Hp & Hk & Ha).
  rewrite Ho', Ho. simpl. rewrite Hc, Hp, Hk, Ha.
  rewrite (mapM_ext _ _ _ Hattr).
  assert (E : mapM (shape_of f s') (childNodes o) = mapM (shape_of f s) (childNodes o)).
  { apply mapM_Forall_eq. apply Forall_forall. intros k Hkin. apply IH.
    intros x Hx. apply Hst. exact (dos_child s n o k x Ho Hkin Hx). }
  rewrite E. reflexivity.
Qed.

Lemma filter_ne_id (n : Ref) (l : list Ref) :
  n ∉ l -> filter (fun c => c <> n) l = l.
Proof.
  induction l as [|c l IH]; intros Hn; [reflexivity|].
  rewrite filter_cons. destruct (decide (c <> n)) as [Hc|Hc].
  - f_equal. apply IH. intros H. apply Hn. apply elem_of_cons. right. exact H.
  - exfalso. apply Hn. apply elem_of_cons. left.
    destruct (decide (n = c)) as [E|E]; [exact E|]. exfalso. apply Hc. congruence.
Qed.

(** Unlinking a node from its parent leaves the shape of its subtree. *)
Lemma detach_shape (s : Store) node no :
  s !! node = Some no ->
  (forall p, _parentNode no = Some p -> is_Some (s !! p)) ->
  forall f0, is_Some (shape_of f0 s node) ->
  forall f, shape_of f (detach s node) node = shape_of f s node.
Proof.
  intros Ho Hpar f0 Hshape f.
  destruct (_parentNode no) as [p|] eqn:Hp;
    [|rewrite (detach_noparent s node no Ho Hp); reflexivity].
  destruct (Hpar p eq_refl) as [po Hpo].
  apply shape_of_local.
  - intros a. rewrite (detach_lookup s node no p po a Ho Hp Hpo).
    destruct (s !! a) as [ao|]; [|reflexivity]. simpl.
    destruct (decide (a = node)), (decide (a = p)); reflexivity.
  - intros x Hx. rewrite (detach_lookup s node no p po x Ho Hp Hpo).
    destruct (s !! x) as [xo|] eqn:Hxo; [|reflexivity]. simpl.
    destruct (decide (x = p)) as [->|Hxp].
    + rewrite Hpo in Hxo. injection Hxo as <-.
      rewrite filter_ne_id.
      * destruct (decide (p = node)); reflexivity.
      * intros Hin. exact (shape_of_no_cycle s node p po Hx Hpo Hin f0 Hshape).
    + destruct (decide (x = node)); reflexivity.
Qed.

(** ** adoptNode moves the node *)

Lemma adoptNode_run fuel (s : Store) this node no :
  s !! node = Some no ->
  (forall p, _parentNode no = Some p -> is_Some (s !! p)) ->
  is_Some (subtreeRefs fuel s node) ->
  nodeType (cls no) <> Document -> cls no <> ShadowRootC ->
  exists refs,
    subtreeRefs fuel (detach s node) node = Some refs
    /\ Document.adoptNode fuel this node s
       = (Ret node,
          if decide (_ownerDocument no = Some this) then detach s node
          else reassignAll this refs (detach s node)).
Proof.
  intros Ho Hpar Hwalk Hnd Hnsr.
  destruct (Mutation_adoptNode_spec fuel s node this no Ho Hpar Hwalk)
    as (refs & Hrefs & Hrun).
  exists refs. split; [exact Hrefs|].
  unfold Document.adoptNode, bind. rewrite (getObj_Some _ _ _ Ho).
  destruct (decide (nodeType (cls no) = Document)); [contradiction|].
  destruct (decide (cls no = ShadowRootC)); [contradiction|].
  rewrite Hrun. reflexivity.
Qed.

(** The adopted node in the store an adoption leaves. *)
Lemma adopted_node fuel (s : Store) this node no refs :
  s !! node = Some no ->
  (forall p, _parentNode no = Some p -> is_Some (s !! p)) ->
  subtreeRefs fuel (detach s node) node = Some refs ->
  exists no',
    (if decide (_ownerDocument no = Some this) then detach s node
     else reassignAll this refs (detach s node)) !! node = Some no'
    /\ _parentNode no' = None
    /\ _ownerDocument no' = Some this
    /\ cls no' = cls no.
Proof.
  intros Ho Hpar Hrefs.
  destruct (detach_node s node no Ho Hpar) as (no1 & Hno1 & Hp1 & Hown1 & Hc1).
  destruct (decide (_ownerDocument no = Some this)) as [Hsame|Hdiff].
  - exists no1. repeat split; try assumption. congruence.
  - exists (set_ownerDocument (Some this) no1).
    rewrite reassignAll_lookup, Hno1. simpl.
    assert (Hin : node ∈ refs).
    { apply (subtreeRefs_covers _ node node (dos_self _ node) fuel refs Hrefs). }
    destruct (decide (node ∈ refs)); [|contradiction].
    repeat split; assumption.
Qed.

(** The object an adoption leaves at an address, from the object that was
    there: class, payload and attribute list stay; the parent is cleared on
    the adopted node; the old parent loses the node from its child list. *)
Lemma adoptNode_lookup (fuel : nat) (s : Store) (this node : Ref) (no : NodeObj) :
  s !! node = Some no ->
  (forall p, _parentNode no = Some p -> is_Some (s !! p)) ->
  is_Some (subtreeRefs fuel s node) ->
  nodeType (cls no) <> Document -> cls no <> ShadowRootC ->
  exists s',
    Document.adoptNode fuel this node s = (Ret node, s')
    /\ length s' = length s
    /\ forall i, exists g,
         s' !! i = g <$> s !! i
         /\ forall o,
              cls (g o) = cls o /\ payload (g o) = payload o
              /\ attributes (g o) = attributes o
              /\ _parentNode (g o) = (if decide (i = node) then None else _parentNode o)
              /\ childNodes (g o)
                 = (if decide (_parentNode no = Some i)
                    then filter (fun c => c <> node) (childNodes o)
                    else childNodes o).
Proof.
  intros Ho Hpar Hwalk Hnd Hnsr.
  destruct (adoptNode_run fuel s this node no Ho Hpar Hwalk Hnd Hnsr)
    as (refs & Hrefs & Hrun).
  destruct (detach_thins s node no Ho Hpar) as [Hlen _].
  set (s1 := detach s node) in *.
  assert (Hlook1 : forall i,
    s1 !! i = (fun o =>
       (if decide (i = node) then set_parentNode None else id)
         ((if decide (_parentNode no = Some i)
           then set_childNodes (filter (fun c => c <> node) (childNodes o))
           else id) o)) <$> s !! i).
  { intros i. unfold s1. destruct (_parentNode no) as [p|] eqn:Hp.
    - destruct (Hpar p eq_refl) as [po Hpo].
      rewrite (detach_lookup s node no p po i Ho Hp Hpo).
      destruct (s !! i) as [o|]; [|reflexivity]. simpl.
      destruct (decide (i = p)) as [E1|E1], (decide (Some p = Some i)) as [E2|E2];
        try reflexivity; exfalso; congruence.
    - rewrite (detach_noparent s node no Ho Hp).
      destruct (s !! i) as [o|] eqn:Hi; [|reflexivity]. simpl.
      destruct (decide (None = Some i)); [discriminate|].
      destruct (decide (i = node)) as [->|]; [|reflexivity].
      rewrite Ho in Hi. injection Hi as <-. unfold set_parentNode.
      rewrite <- Hp. destruct no; reflexivity. }
  set (s' := if decide (_ownerDocument no = Some this) then s1
             else reassignAll this refs s1) in *.
  assert (Hlook : forall i, exists g,
    s' !! i = g <$> s1 !! i
    /\ forall o, g o = o \/ g o = set_ownerDocument (Some this) o).
  { intros i. unfold s'. destruct (decide (_ownerDocument no = Some this)).
    - exists id. split; [destruct (s1 !! i); reflexivity | auto].
    - rewrite reassignAll_lookup. eexists. split; [reflexivity|].
      intros o. simpl. destruct (decide (i ∈ refs)); auto. }
  exists s'. split; [exact Hrun|]. split.
  - unfold s'. destruct (decide (_ownerDocument no = Some this)); [exact Hlen|].
    rewrite reassignAll_length. exact Hlen.
  - intros i. destruct (Hlook i) as (g & Hg1 & Hg2).
    eexists (fun o => g (_ o)). split.
    + rewrite Hg1, Hlook1. destruct (s !! i) as [o|]; reflexivity.
    + intros o. simpl.
      destruct (Hg2 ((if decide (i = node) then set_parentNode None else id)
                       ((if decide (_parentNode no = Some i)
                         then set_childNodes (filter (fun c => c <> node) (childNodes o))
                         else id) o))) as [-> | ->];
        destruct (decide (i = node)), (decide (_parentNode no = Some i));
        repeat split; reflexivity.
Qed.

(** X7: [adoptNode] moves the node, it does not copy it.  The store holds as
    many objects as before; the subtree of the node has the shape it had;
    every object keeps its class, payload and attribute list; the parent
    field changes on the adopted node only, and the child list on its old
    parent only. *)
Theorem adoptNode_moves (fuel : nat) (s : Store) (this node : Ref) (no : NodeObj) :
  s !! node = Some no ->
  (forall p, _parentNode no = Some p -> is_Some (s !! p)) ->
  is_Some (shape_of fuel s node) ->
  nodeType (cls no) <> Document -> cls no <> ShadowRootC ->
  exists s',
    Document.adoptNode fuel this node s = (Ret node, s')
    /\ length s' = length s
    /\ (forall f, shape_of f s' node = shape_of f s node)
    /\ (forall i, (fun o => (cls o, payload o, attributes o)) <$> s' !! i
                  = (fun o => (cls o, payload o, attributes o)) <$> s !! i)
    /\ (forall i, i <> node -> parentOf s' i = parentOf s i)
    /\ (forall i, _parentNode no <> Some i ->
          childNodes <$> s' !! i = childNodes <$> s !! i).
Proof.
  intros Ho Hpar Hshape Hnd Hnsr.
  pose proof (shape_subtreeRefs s fuel node Hshape) as Hwalk.
  destruct (adoptNode_lookup fuel s this node no Ho Hpar Hwalk Hnd Hnsr)
    as (s' & Hrun & Hlen & Hlook).
  exists s'. split; [exact Hrun|]. split; [exact Hlen|].
  split; [|split; [|split]].
  - intros f. apply shape_of_local.
    + intros a. destruct (Hlook a) as (g & -> & Hg).
      destruct (s !! a) as [ao|]; [|reflexivity]. simpl.
      destruct (Hg ao) as (-> & -> & _). reflexivity.
    + intros x Hx. destruct (Hlook x) as (g & -> & Hg).
      destruct (s !! x) as [xo|] eqn:Hxo; [|reflexivity]. simpl.
      destruct (Hg xo) as (Hc & Hp & Ha & _ & Hk).
      unfold structure. rewrite Hc, Hp, Ha, Hk.
      destruct (decide (_parentNode no = Some x)); [|reflexivity].
      rewrite filter_ne_id; [reflexivity|].
      intros Hin. exact (shape_of_no_cycle s node x xo Hx Hxo Hin fuel Hshape).
  - intros i. destruct (Hlook i) as (g & -> & Hg).
    destruct (s !! i) as [o|]; [|reflexivity]. simpl.
    destruct (Hg o) as (-> & -> & -> & _). reflexivity.
  - intros i Hi. unfold parentOf. destruct (Hlook i) as (g & -> & Hg).
    destruct (s !! i) as [o|]; [|reflexivity]. simpl.
    destruct (Hg o) as (_ & _ & _ & -> & _).
    destruct (decide (i = node)); [contradiction | reflexivity].
  - intros i Hi. destruct (Hlook i) as (g & -> & Hg).
    destruct (s !! i) as [o|]; [|reflexivity]. simpl.
    destruct (Hg o) as (_ & _ & _ & _ & ->).
    destruct (decide (_parentNode no = Some i)); [contradiction | reflexivity].
Qed.

Lemma adoptNode_moves_witness :
  let no := mkNode ElementC (Some 0) (Some 0) [4; 5] [3] (ElementData None None "root") in
  (sampleStore !! 2 = Some no
   /\ (forall p, _parentNode no = Some p -> is_Some (sampleStore !! p))
   /\ is_Some (shape_of 2 sampleStore 2)
   /\ nodeType (cls no) <> Document /\ cls no <> ShadowRootC)
  /\ exists s',
       Document.adoptNode 2 6 2 sampleStore = (Ret 2, s')
       /\ length s' = length sampleStore
       /\ (forall f, shape_of f s' 2 = shape_of f sampleStore 2)
       /\ (forall i, (fun o => (cls o, payload o, attributes o)) <$> s' !! i
                     = (fun o => (cls o, payload o, attributes o)) <$> sampleStore !! i)
       /\ (forall i, i <> 2 -> parentOf s' i = parentOf sampleStore i)
       /\ (forall i, _parentNode no <> Some i ->
             childNodes <$> s' !! i = childNodes <$> sampleStore !! i).
Proof.
  intros no.
  assert (H1 : sampleStore !! 2 = Some no) by reflexivity.
  assert (H2 : forall p, _parentNode no = Some p -> is_Some (sampleStore !! p)).
  { intros p Hp. injection Hp as <-. eexists. reflexivity. }
  assert (H3 : is_Some (shape_of 2 sampleStore 2)) by (eexists; reflexivity).
  assert (H4 : nodeType (cls no) <> Document) by discriminate.
  assert (H5 : cls no <> ShadowRootC) by discriminate.
  split; [repeat split; assumption|].
  exact (adoptNode_moves 2 sampleStore 6 2 no H1 H2 H3 H4 H5).
Defined.

(** X8: an adoption does not insert the node anywhere.  For every document
    other than the old parent of the node, the adopting document included,
    [documentElement] and [doctype] answer after the adoption what they
    answered before. *)
Theorem adoptNode_keeps_roots (fuel : nat) (s : Store) (this node d : Ref)
    (no o : NodeObj) :
  s !! node = Some no ->
  (forall p, _parentNode no = Some p -> is_Some (s !! p)) ->
  is_Some (subtreeRefs fuel s node) ->
  nodeType (cls no) <> Document -> cls no <> ShadowRootC ->
  s !! d = Some o ->
  allocated s (childNodes o) ->
  _parentNode no <> Some d ->
  KeepsRoots d s (Document.adoptNode fuel this node s).
Proof.
  intros Ho Hpar Hwalk Hnd Hnsr Hd Ha Hnp.
  destruct (adoptNode_lookup fuel s this node no Ho Hpar Hwalk Hnd Hnsr)
    as (s2 & Hrun & _ & Hlook).
  unfold KeepsRoots. rewrite Hrun. simpl.
  destruct (Hlook d) as (g & Hd' & Hg). rewrite Hd in Hd'. simpl in Hd'.
  apply (roots_agree s s2 d o (g o) Hd Hd').
  - destruct (Hg o) as (_ & _ & _ & _ & ->).
    destruct (decide (_parentNode no = Some d)); [contradiction | reflexivity].
  - exact Ha.
  - intros c _. unfold tagOf. destruct (Hlook c) as (gc & -> & Hgc).
    destruct (s !! c) as [co|]; [|reflexivity]. simpl.
    destruct (Hgc co) as (-> & _). reflexivity.
Qed.

Lemma adoptNode_keeps_roots_witness :
  let no := mkNode ElementC (Some 0) (Some 0) [4; 5] [3] (ElementData None None "root") in
  let o := mkNode DocumentC None None [] [] NoData in
  (sampleStore !! 2 = Some no
   /\ (forall p, _parentNode no = Some p -> is_Some (sampleStore !! p))
   /\ is_Some (subtreeRefs 2 sampleStore 2)
   /\ nodeType (cls no) <> Document /\ cls no <> ShadowRootC
   /\ sampleStore !! 6 = Some o
   /\ allocated sampleStore (childNodes o)
   /\ _parentNode no <> Some 6)
  /\ KeepsRoots 6 sampleStore (Document.adoptNode 2 6 2 sampleStore).
Proof.
  intros no o.
  assert (H1 : sampleStore !! 2 = Some no) by reflexivity.
  assert (H2 : forall p, _parentNode no = Some p -> is_Some (sampleStore !! p)).
  { intros p Hp. injection Hp as <-. eexists. reflexivity. }
  assert (H3 : is_Some (subtreeRefs 2 sampleStore 2)) by (eexists; reflexivity).
  assert (H4 : nodeType (cls no) <> Document) by discriminate.
  assert (H5 : cls no <> ShadowRootC) by discriminate.
  assert (H6 : sampleStore !! 6 = Some o) by reflexivity.
  assert (H7 : allocated sampleStore (childNodes o)) by constructor.
  assert (H8 : _parentNode no <> Some 6) by discriminate.
  split; [repeat split; assumption|].
  exact (adoptNode_keeps_roots 2 sampleStore 6 2 6 no o H1 H2 H3 H4 H5 H6 H7 H8).
Defined.

(** ** Adopting what is already one's own *)

Lemma adoptNode_own_detached (s : Store) this node no :
  s !! node = Some no ->
  _parentNode no = None -> _ownerDocument no = Some this ->
  nodeType (cls no) <> Document -> cls no <> ShadowRootC ->
  forall fuel, Document.adoptNode fuel this node s = (Ret node, s).
Proof.
  intros Ho Hp Hown Hnd Hnsr fuel.
  assert (Hrun : Node.Mutation_adoptNode fuel node this s = (Ret tt, s)).
  { unfold Node.Mutation_adoptNode, bind. rewrite (getObj_Some _ _ _ Ho), Hp.
    unfold ret at 1.
    destruct (decide (_ownerDocument no = Some this)); [reflexivity | contradiction]. }
  unfold Document.adoptNode, bind. rewrite (getObj_Some _ _ _ Ho).
  destruct (decide (nodeType (cls no) = Document)); [contradiction|].
  destruct (decide (cls no = ShadowRootC)); [contradiction|].
  rewrite Hrun. reflexivity.
Qed.

(** X9: adopting is idempotent.  After [adoptNode(node)] has returned, a
    second [adoptNode(node)] by the same document returns the node again and
    changes nothing, whatever the depth of the tree; and a node that is
    already detached and owned by the document is returned with the store
    as it was. *)
Theorem adoptNode_idempotent (fuel : nat) (s : Store) (this node : Ref) (no : NodeObj) :
  s !! node = Some no ->
  (forall p, _parentNode no = Some p -> is_Some (s !! p)) ->
  is_Some (subtreeRefs fuel s node) ->
  nodeType (cls no) <> Document -> cls no <> ShadowRootC ->
  exists s',
    Document.adoptNode fuel this node s = (Ret node, s')
    /\ (forall fuel', Document.adoptNode fuel' this node s' = (Ret node, s'))
    /\ (_parentNode no = None -> _ownerDocument no = Some this -> s' = s).
Proof.
  intros Ho Hpar Hwalk Hnd Hnsr.
  destruct (adoptNode_run fuel s this node no Ho Hpar Hwalk Hnd Hnsr)
    as (refs & Hrefs & Hrun).
  destruct (adopted_node fuel s this node no refs Ho Hpar Hrefs)
    as (no' & Hno' & Hp' & Hown' & Hc').
  eexists. split; [exact Hrun|]. split.
  - apply (adoptNode_own_detached _ this node no' Hno' Hp' Hown'); rewrite Hc'; assumption.
  - intros Hp Hown. destruct (decide (_ownerDocument no = Some this)); [|contradiction].
    apply (detach_noparent s node no Ho Hp).
Qed.

Lemma adoptNode_idempotent_witness :
  let no := mkNode ElementC (Some 0) (Some 0) [4; 5] [3] (ElementData None None "root") in
  (sampleStore !! 2 = Some no
   /\ (forall p, _parentNode no = Some p -> is_Some (sampleStore !! p))
   /\ is_Some (subtreeRefs 2 sampleStore 2)
   /\ nodeType (cls no) <> Document /\ cls no <> ShadowRootC)
  /\ exists s',
       Document.adoptNode 2 6 2 sampleStore = (Ret 2, s')
       /\ (forall fuel', Document.adoptNode fuel' 6 2 s' = (Ret 2, s'))
       /\ (_parentNode no = None -> _ownerDocument no = Some 6 -> s' = sampleStore).
Proof.
  intros no.
  assert (H1 : sampleStore !! 2 = Some no) by reflexivity.
  assert (H2 : forall p, _parentNode no = Some p -> is_Some (sampleStore !! p)).
  { intros p Hp. injection Hp as <-. eexists. reflexivity. }
  assert (H3 : is_Some (subtreeRefs 2 sampleStore 2)) by (eexists; reflexivity).
  assert (H4 : nodeType (cls no) <> Document) by discriminate.
  assert (H5 : cls no <> ShadowRootC) by discriminate.
  split; [repeat split; assumption|].
  exact (adoptNode_idempotent 2 sampleStore 6 2 no H1 H2 H3 H4 H5).
Defined.

(** ** importNode, continued *)

Lemma importNode_run (T : NodeType -> NodeType -> bool) (fuel h : nat)
    (s : Store) (this node : Ref) (deep : bool) (no : NodeObj) :
  s !! node = Some no ->
  valid_tree T s h node = true -> h <= fuel ->
  nodeType (cls no) <> Document -> cls no <> ShadowRootC ->
  exists s1 refs co,
    Cloned s node deep s s1
    /\ s1 !! length s = Some co
    /\ cls co = cls no /\ _parentNode co = None
    /\ subtreeRefs fuel s1 (length s) = Some refs
    /\ Forall (fun r => length s <= r < length s1) refs
    /\ length s ∈ refs
    /\ Document.importNode T fuel this node deep s
       = (Ret (length s), reassignAll this refs s1).
Proof.
  intros Hno Hv Hh Hnd Hnsr.
  destruct (Node_cloneNode_spec T s fuel h node deep [] Hv Hh) as [s1 [Hrun HCl]].
  rewrite app_nil_r in Hrun, HCl.
  pose proof HCl as HCl0.
  destruct HCl as ([ext Hext] & Hcl1 & (o & co & Ho & Hco & Hc & Hp & Hpar & _) & Hshape & _).
  rewrite Hno in Ho. injection Ho as <-.
  destruct (valid_tree_shape T s h node fuel Hv Hh) as [t Ht].
  pose proof (Hshape fuel t Ht) as Ht1.
  destruct (shape_subtreeRefs s1 fuel (length s) (ex_intro _ _ Ht1)) as [refs Hrefs].
  assert (Hclt : length s < length s1) by (eapply lookup_lt_Some; exact Hco).
  exists s1, refs, co.
  split; [exact HCl0|]. split; [exact Hco|]. split; [exact Hc|]. split; [exact Hpar|].
  split; [exact Hrefs|]. split; [|split].
  - apply (subtreeRefs_bounded (length s) (length s1) s1 Hcl1 fuel (length s));
      [lia | exact Hrefs].
  - apply (subtreeRefs_covers s1 _ _ (dos_self s1 (length s)) fuel refs Hrefs).
  - unfold Document.importNode, bind. rewrite (getObj_Some _ _ _ Hno).
    destruct (decide (nodeType (cls no) = Document)); [contradiction|].
    destruct (decide (cls no = ShadowRootC)); [contradiction|].
    rewrite Hrun.
    change (Node.forEachDescendant fuel (length s) true _ s1)
      with (Node.forEachDescendant fuel (length s) true (Node.reassignOwner this) s1).
    rewrite (forEachDescendant_reassign this fuel s1 (length s) refs Hrefs). reflexivity.
Qed.

(** X10: what [importNode] returns already belongs to the importing
    document: adopting it afterwards, by the same document, returns it and
    changes nothing. *)
Theorem importNode_then_adoptNode (T : NodeType -> NodeType -> bool) (fuel h : nat)
    (s : Store) (this node : Ref) (deep : bool) (no : NodeObj) :
  s !! node = Some no ->
  valid_tree T s h node = true -> h <= fuel ->
  nodeType (cls no) <> Document -> cls no <> ShadowRootC ->
  exists c s',
    Document.importNode T fuel this node deep s = (Ret c, s')
    /\ forall fuel', Document.adoptNode fuel' this c s' = (Ret c, s').
Proof.
  intros Hno Hv Hh Hnd Hnsr.
  destruct (importNode_run T fuel h s this node deep no Hno Hv Hh Hnd Hnsr)
    as (s1 & refs & co & _ & Hco & Hc & Hpar & _ & _ & Hin & Hrun).
  eexists _, _. split; [exact Hrun|].
  apply (adoptNode_own_detached _ this (length s) (set_ownerDocument (Some this) co)).
  - rewrite reassignAll_lookup, Hco. simpl.
    destruct (decide (length s ∈ refs)); [reflexivity | contradiction].
  - exact Hpar.
  - reflexivity.
  - simpl. rewrite Hc. exact Hnd.
  - simpl. rewrite Hc. exact Hnsr.
Qed.

Lemma importNode_then_adoptNode_witness :
  let no := mkNode ElementC (Some 0) (Some 0) [4; 5] [3] (ElementData None None "root") in
  (sampleStore !! 2 = Some no
   /\ valid_tree sampleTable sampleStore 2 2 = true /\ 2 <= 2
   /\ nodeType (cls no) <> Document /\ cls no <> ShadowRootC)
  /\ exists c s',
       Document.importNode sampleTable 2 6 2 true sampleStore = (Ret c, s')
       /\ forall fuel', Document.adoptNode fuel' 6 c s' = (Ret c, s').
Proof.
  intros no.
  assert (H1 : sampleStore !! 2 = Some no) by reflexivity.
  assert (H2 : valid_tree sampleTable sampleStore 2 2 = true) by reflexivity.
  assert (H3 : 2 <= 2) by lia.
  assert (H4 : nodeType (cls no) <> Document) by discriminate.
  assert (H5 : cls no <> ShadowRootC) by discriminate.
  split; [repeat split; assumption|].
  exact (importNode_then_adoptNode sampleTable 2 2 sampleStore 6 2 true no H1 H2 H3 H4 H5).
Defined.

(** X11: an import does not insert the clone anywhere, and leaves the tree
    it copies from in place: [documentElement] and [doctype] of every
    document answer after the import what they answered before. *)
Theorem importNode_keeps_roots (T : NodeType -> NodeType -> bool) (fuel h : nat)
    (s : Store) (this node d : Ref) (deep : bool) (no o : NodeObj) :
  s !! node = Some no ->
  valid_tree T s h node = true -> h <= fuel ->
  nodeType (cls no) <> Document -> cls no <> ShadowRootC ->
  s !! d = Some o ->
  allocated s (childNodes o) ->
  KeepsRoots d s (Document.importNode T fuel this node deep s).
Proof.
  intros Hno Hv Hh Hnd Hnsr Hd Ha.
  destruct (importNode_run T fuel h s this node deep no Hno Hv Hh Hnd Hnsr)
    as (s1 & refs & co & ([ext Hext] & _) & _ & _ & _ & _ & Hbound & _ & Hrun).
  unfold KeepsRoots. rewrite Hrun. simpl.
  apply (roots_preserved s _ d o Hd Ha).
  intros i Hi. rewrite reassignAll_outside.
  - rewrite Hext. apply lookup_app_l. exact Hi.
  - intros Hin. pose proof (proj1 (Forall_forall _ _) Hbound i Hin) as Hb.
    simpl in Hb. lia.
Qed.

Lemma importNode_keeps_roots_witness :
  let no := mkNode ElementC (Some 0) (Some 0) [4; 5] [3] (ElementData None None "root") in
  let o := mkNode DocumentC None None [1; 2] [] NoData in
  (sampleStore !! 2 = Some no
   /\ valid_tree sampleTable sampleStore 2 2 = true /\ 2 <= 2
   /\ nodeType (cls no) <> Document /\ cls no <> ShadowRootC
   /\ sampleStore !! 0 = Some o
   /\ allocated sampleStore (childNodes o))
  /\ KeepsRoots 0 sampleStore (Document.importNode sampleTable 2 6 2 true sampleStore).
Proof.
  intros no o.
  assert (H1 : sampleStore !! 2 = Some no) by reflexivity.
  assert (H2 : valid_tree sampleTable sampleStore 2 2 = true) by reflexivity.
  assert (H3 : 2 <= 2) by lia.
  assert (H4 : nodeType (cls no) <> Document) by discriminate.
  assert (H5 : cls no <> ShadowRootC) by discriminate.
  assert (H6 : sampleStore !! 0 = Some o) by reflexivity.
  assert (H7 : allocated sampleStore (childNodes o)) by solve_allocated.
  split; [repeat split; assumption|].
  exact (importNode_keeps_roots sampleTable 2 2 sampleStore 6 2 0 true no o
           H1 H2 H3 H4 H5 H6 H7).
Defined.

(** ** The roots of a cloned document *)

(** Child lists that correspond position by position, with equal tags, give
    roots at the same position. *)
Lemma documentElement_loop_related (s s' : Store) ks ks' :
  Forall2 (fun k k' => is_Some (s !! k) /\ tagOf s' k' = tagOf s k) ks ks' ->
  exists r r',
    Document.documentElement_loop ks s = (Ret r, s)
    /\ Document.documentElement_loop ks' s' = (Ret r', s')
    /\ ((r = None /\ r' = None)
        \/ exists i e e', ks !! i = Some e /\ ks' !! i = Some e'
                          /\ r = Some e /\ r' = Some e').
Proof.
  induction 1 as [|k k' ks ks' [[o Ho] Ht] _ IH]; simpl.
  - exists None, None. split; [reflexivity|]. split; [reflexivity|]. left. auto.
  - rewrite (tagOf_Some _ _ _ Ho) in Ht. unfold tagOf in Ht.
    destruct (s' !! k') as [o'|] eqn:Ho'; [|discriminate]. simpl in Ht.
    injection Ht as Ht.
    unfold bind. rewrite (getObj_Some _ _ _ Ho), (getObj_Some _ _ _ Ho'), Ht.
    destruct (decide (nodeType (cls o) = Element)).
    + exists (Some k), (Some k'). split; [reflexivity|]. split; [reflexivity|].
      right. exists 0, k, k'. auto.
    + destruct IH as (r & r' & H1 & H2 & H3). exists r, r'.
      split; [exact H1|]. split; [exact H2|].
      destruct H3 as [H3 | (i & e & e' & Hi & Hi' & Hr & Hr')]; [left; exact H3|].
      right. exists (S i), e, e'. auto.
Qed.

Lemma doctype_loop_related (s s' : Store) ks ks' :
  Forall2 (fun k k' => is_Some (s !! k) /\ tagOf s' k' = tagOf s k) ks ks' ->
  exists r r',
    Document.doctype_loop ks s = (Ret r, s)
    /\ Document.doctype_loop ks' s' = (Ret r', s')
    /\ ((r = None /\ r' = None)
        \/ exists i e e', ks !! i = Some e /\ ks' !! i = Some e'
                          /\ r = Some e /\ r' = Some e').
Proof.
  induction 1 as [|k k' ks ks' [[o Ho] Ht] _ IH]; simpl.
  - exists None, None. split; [reflexivity|]. split; [reflexivity|]. left. auto.
  - rewrite (tagOf_Some _ _ _ Ho) in Ht. unfold tagOf in Ht.
    destruct (s' !! k') as [o'|] eqn:Ho'; [|discriminate]. simpl in Ht.
    injection Ht as Ht.
    unfold bind. rewrite (getObj_Some _ _ _ Ho), (getObj_Some _ _ _ Ho'), Ht.
    destruct (decide (nodeType (cls o) = DocumentType)).
    + exists (Some k), (Some k'). split; [reflexivity|]. split; [reflexivity|].
      right. exists 0, k, k'. auto.
    + destruct IH as (r & r' & H1 & H2 & H3). exists r, r'.
      split; [exact H1|]. split; [exact H2|].
      destruct H3 as [H3 | (i & e & e' & Hi & Hi' & Hr & Hr')]; [left; exact H3|].
      right. exists (S i), e, e'. auto.
Qed.

Lemma Forall2_with_l {A B} (P : A -> Prop) (R : A -> B -> Prop) l k :
  Forall2 R l k -> Forall P l -> Forall2 (fun x y => P x /\ R x y) l k.
Proof.
  induction 1 as [|x y l k Hxy _ IH]; intros HP; [constructor|].
  inversion HP; subst. constructor; [split; assumption | apply IH; assumption].
Qed.

Lemma shape_of_cls f (s : Store) n t :
  shape_of f s n = Some t ->
  exists o, s !! n = Some o /\ match t with ShapeNode c _ _ _ => c = cls o end.
Proof.
  destruct f as [|f]; [discriminate|]. intros Ht.
  destruct (shape_of_S_inv _ _ _ _ Ht) as (o & attrs & children & Ho & _ & _ & ->).
  exists o. auto.
Qed.

(** X12: the roots of a cloned document.  After a deep [cloneNode] of a
    valid document, [documentElement] and [doctype] of the clone are null
    exactly when those of the original are, and otherwise are new nodes,
    children of the clone, with the shape of the original's; after a shallow
    [cloneNode] both are null. *)
Theorem Document_cloneNode_roots (T : NodeType -> NodeType -> bool) (fuel h : nat)
    (s : Store) (this : Ref) (o : NodeObj) :
  valid_tree T s h this = true ->
  h <= S fuel ->
  s !! this = Some o ->
  cls o = DocumentC ->
  (exists s' de dt de' dt',
     Document.cloneNode T fuel this true s = (Ret (length s), s')
     /\ Document.documentElement this s = (Ret de, s)
     /\ Document.doctype this s = (Ret dt, s)
     /\ Document.documentElement (length s) s' = (Ret de', s')
     /\ Document.doctype (length s) s' = (Ret dt', s')
     /\ RootCloned s s' de de'
     /\ RootCloned s s' dt dt')
  /\ (exists s',
     Document.cloneNode T fuel this false s = (Ret (length s), s')
     /\ Document.documentElement (length s) s' = (Ret None, s')
     /\ Document.doctype (length s) s' = (Ret None, s')).
Proof.
  intros Hv Hh Ho Hc.
  assert (Hclone : forall deep, exists s1 co,
    Document.cloneNode T fuel this deep s = (Ret (length s), s1)
    /\ s1 !! length s = Some co
    /\ Forall (fun k' => length s <= k' /\ parentOf s1 k' = Some (length s)) (childNodes co)
    /\ Forall2 (fun k k' => forall f t, shape_of f s k = Some t ->
                  shape_of f s1 k' = Some (cloneShape deep t))
         (if deep then childNodes o else []) (childNodes co)).
  { intros deep.
    destruct (Node_cloneNode_spec T s (S fuel) h this deep [] Hv Hh) as [s1 [Hrun HCl]].
    rewrite app_nil_r in Hrun, HCl.
    destruct HCl as (_ & Hcl & (o' & co & Ho' & Hco & _) & _ & Hparents & Hpairs).
    rewrite Ho in Ho'. injection Ho' as <-.
    exists s1, co.
    split; [rewrite (Document_cloneNode_dispatch T fuel s this deep o Ho Hc); exact Hrun|].
    split; [exact Hco|]. split; [|exact (Hpairs o co Ho Hco)].
    assert (Hlt : length s < length s1) by (eapply lookup_lt_Some; exact Hco).
    destruct (Hcl (length s) co (conj (Nat.le_refl _) Hlt) Hco) as [Hkids _].
    apply Forall_forall. intros k' Hk'. split.
    - exact (proj1 (proj1 (Forall_forall _ _) Hkids k' Hk')).
    - destruct (proj1 (Forall_forall _ _) (Hparents co Hco) k' Hk') as (ko & Hko & Hp).
      unfold parentOf. rewrite Hko. exact Hp. }
  split.
  - destruct (Hclone true) as (s1 & co & Hrun & Hco & Hfresh & Hpairs).
    destruct h as [|h']; [discriminate|].
    destruct (valid_tree_S T s h' this Hv) as (o' & Ho' & _ & _ & _ & Hkv).
    rewrite Ho in Ho'. injection Ho' as <-.
    assert (Hrel : Forall2 (fun k k' => is_Some (s !! k) /\ tagOf s1 k' = tagOf s k)
                     (childNodes o) (childNodes co)).
    { eapply Forall2_impl.
      - exact (Forall2_with_l (fun k => valid_tree T s h' k = true) _ _ _ Hpairs Hkv).
      - intros k k' [Hvk Hsh].
        destruct (valid_tree_shape T s h' k fuel Hvk ltac:(lia)) as [t Ht].
        pose proof (Hsh fuel t Ht) as Ht'. simpl in Ht'.
        destruct (shape_of_cls _ _ _ _ Ht) as (ko & Hko & Hck).
        destruct (shape_of_cls _ _ _ _ Ht') as (ko' & Hko' & Hck').
        split; [eauto|]. unfold tagOf. rewrite Hko, Hko'. simpl.
        destruct t. congruence. }
    destruct (documentElement_loop_related s s1 _ _ Hrel) as (de & de' & He1 & He2 & He3).
    destruct (doctype_loop_related s s1 _ _ Hrel) as (dt & dt' & Ht1 & Ht2 & Ht3).
    assert (Hroot : forall r r',
      ((r = None /\ r' = None)
       \/ exists i e e', childNodes o !! i = Some e /\ childNodes co !! i = Some e'
                         /\ r = Some e /\ r' = Some e') ->
      RootCloned s s1 r r').
    { intros r r' [[-> ->] | (i & e & e' & Hi & Hi' & -> & ->)]; simpl; [exact I|].
      assert (Hin : e' ∈ childNodes co) by (eapply list_elem_of_lookup_2; exact Hi').
      destruct (proj1 (Forall_forall _ _) Hfresh e' Hin) as [Hge Hpar].
      split; [exact Hge|]. split; [exact Hpar|].
      destruct (Forall2_lookup_l _ _ _ _ _ Hpairs Hi) as (e2 & Hi2 & Hsh).
      rewrite Hi' in Hi2. injection Hi2 as <-. exact Hsh. }
    exists s1, de, dt, de', dt'. split; [exact Hrun|].
    unfold Document.documentElement, Document.doctype, bind.
    rewrite (getObj_Some _ _ _ Ho), (getObj_Some _ _ _ Hco).
    repeat split; try assumption; apply Hroot; assumption.
  - destruct (Hclone false) as (s1 & co & Hrun & Hco & _ & Hpairs).
    apply Forall2_nil_inv_l in Hpairs.
    exists s1. split; [exact Hrun|].
    unfold Document.documentElement, Document.doctype, bind.
    rewrite (getObj_Some _ _ _ Hco), Hpairs. split; reflexivity.
Qed.

Lemma Document_cloneNode_roots_witness :
  let o := mkNode DocumentC None None [1; 2] [] NoData in
  (valid_tree sampleTable sampleStore 3 0 = true /\ 3 <= S 2
   /\ sampleStore !! 0 = Some o /\ cls o = DocumentC)
  /\ (exists s' de dt de' dt',
        Document.cloneNode sampleTable 2 0 true sampleStore = (Ret 7, s')
        /\ Document.documentElement 0 sampleStore = (Ret de, sampleStore)
        /\ Document.doctype 0 sampleStore = (Ret dt, sampleStore)
        /\ Document.documentElement 7 s' = (Ret de', s')
        /\ Document.doctype 7 s' = (Ret dt', s')
        /\ RootCloned sampleStore s' de de'
        /\ RootCloned sampleStore s' dt dt')
  /\ (exists s',
        Document.cloneNode sampleTable 2 0 false sampleStore = (Ret 7, s')
        /\ Document.documentElement 7 s' = (Ret None, s')
        /\ Document.doctype 7 s' = (Ret None, s')).
Proof.
  intros o.
  assert (H1 : valid_tree sampleTable sampleStore 3 0 = true) by reflexivity.
  assert (H2 : 3 <= S 2) by lia.
  assert (H3 : sampleStore !! 0 = Some o) by reflexivity.
  assert (H4 : cls o = DocumentC) by reflexivity.
  split; [repeat split; assumption|].
  exact (Document_cloneNode_roots sampleTable 2 3 sampleStore 0 o H1 H2 H3 H4).
Defined.

(** ** Creating, appending, reading back *)

Lemma hasChildOfType_true (s : Store) t l x :
  allocated s l -> x ∈ l -> tagOf s x = Some t ->
  Node.hasChildOfType t l s = (Ret true, s).
Proof.
  induction 1 as [|c rest [o Ho] _ IH]; intros Hx Ht; simpl.
  - apply elem_of_nil in Hx. contradiction.
  - unfold bind. rewrite (getObj_Some _ _ _ Ho).
    destruct (decide (nodeType (cls o) = t)) as [E|E]; [reflexivity|].
    apply IH; [|exact Ht]. apply elem_of_cons in Hx as [->|Hx]; [|exact Hx].
    rewrite (tagOf_Some _ _ _ Ho) in Ht. congruence.
Qed.

Lemma FirstChildOfType_snoc (s s' : Store) t children e r :
  (forall x, x ∈ children -> tagOf s' x = tagOf s x) ->
  tagOf s' e <> Some t ->
  FirstChildOfType s t children r ->
  FirstChildOfType s' t (children ++ [e]) r.
Proof.
  intros Htag He. destruct r as [c|]; simpl.
  - intros (pre & post & -> & Hc & Hpre). exists pre, (post ++ [e]).
    split; [rewrite <- app_assoc; reflexivity|]. split.
    + rewrite Htag; [exact Hc|]. apply elem_of_app. right. apply elem_of_cons. left.
      reflexivity.
    + apply Forall_forall. intros x Hx. rewrite Htag.
      * exact (proj1 (Forall_forall _ _) Hpre x Hx).
      * apply elem_of_app. left. exact Hx.
  - intros Hall. apply Forall_app. split.
    + apply Forall_forall. intros x Hx. rewrite (Htag x Hx).
      exact (proj1 (Forall_forall _ _) Hall x Hx).
    + constructor; [exact He | constructor].
Qed.

(** X13: creating an element, appending it and reading it back.  On a
    document without a document element, [createElement] followed by
    [appendChild] makes the new element the [documentElement] and leaves the
    [doctype]; after that, a second element is still created but refused by
    [appendChild] with HierarchyRequestError, and the [documentElement]
    stays the first one. *)
Theorem createElement_appendChild_documentElement
    (T : NodeType -> NodeType -> bool) (fuel : nat) (s : Store) (this : Ref)
    (o : NodeObj) (name name2 : string) :
  s !! this = Some o ->
  nodeType (cls o) = Document ->
  _parentNode o = None ->
  allocated s (childNodes o) ->
  Document.documentElement this s = (Ret None, s) ->
  XMLSpec.Name name = true ->
  XMLSpec.Name name2 = true ->
  exists s' dt,
    (e <- Document.createElement this name ;; Node.appendChild T fuel this e)%dom s
    = (Ret (length s), s')
    /\ Document.documentElement this s' = (Ret (Some (length s)), s')
    /\ Document.doctype this s = (Ret dt, s)
    /\ Document.doctype this s' = (Ret dt, s')
    /\ (e <- Document.createElement this name2 ;; Node.appendChild T fuel this e)%dom s'
       = (Throw (DOMError HierarchyRequestError),
          s' ++ [mkNode ElementC None (Some this) [] [] (ElementData None None name2)])
    /\ Document.documentElement this
         (s' ++ [mkNode ElementC None (Some this) [] [] (ElementData None None name2)])
       = (Ret (Some (length s)),
          s' ++ [mkNode ElementC None (Some this) [] [] (ElementData None None name2)]).
Proof.
  intros Ho Hdoc Hpar Hall Hnone Hname Hname2.
  set (eo := mkNode ElementC None (Some this) [] [] (ElementData None None name)).
  set (eo2 := mkNode ElementC None (Some this) [] [] (ElementData None None name2)).
  set (e := length s).
  set (s1 := s ++ [eo]).
  set (o2 := set_childNodes (childNodes o ++ [e]) o).
  set (s2 := <[this := o2]> (<[e := set_parentNode (Some this) eo]> s1)).
  assert (Hthis : this < length s) by (eapply lookup_lt_Some; exact Ho).
  assert (Hne : this <> e) by (unfold e; lia).
  assert (Hlen1 : length s1 = S (length s)).
  { unfold s1. rewrite length_app. simpl. lia. }
  assert (Hlen2 : length s2 = S (length s)).
  { unfold s2. rewrite !length_insert. exact Hlen1. }
  assert (Hs1this : s1 !! this = Some o).
  { unfold s1. rewrite lookup_app_l by exact Hthis. exact Ho. }
  assert (Hs1e : s1 !! e = Some eo).
  { unfold s1, e. apply list_lookup_middle. reflexivity. }
  assert (Hs2this : s2 !! this = Some o2).
  { unfold s2. apply list_lookup_insert_eq. rewrite length_insert, Hlen1. lia. }
  assert (Hs2e : s2 !! e = Some (set_parentNode (Some this) eo)).
  { unfold s2. rewrite list_lookup_insert_ne by exact Hne.
    apply list_lookup_insert_eq. rewrite Hlen1. unfold e. lia. }
  assert (Htag1 : forall x, x < length s -> tagOf s1 x = tagOf s x).
  { intros x Hx. unfold tagOf, s1. rewrite lookup_app_l by exact Hx. reflexivity. }
  assert (Htag2 : forall x, x < length s -> tagOf s2 x = tagOf s x).
  { intros x Hx. destruct (decide (x = this)) as [->|Hxt].
    - rewrite (tagOf_Some _ _ _ Hs2this), (tagOf_Some _ _ _ Ho). reflexivity.
    - rewrite <- (Htag1 x Hx). unfold tagOf, s2.
      rewrite list_lookup_insert_ne by congruence.
      rewrite list_lookup_insert_ne by (unfold e; lia). reflexivity. }
  assert (Hkids : forall x, x ∈ childNodes o -> x < length s).
  { intros x Hx. destruct (proj1 (Forall_forall _ _) Hall x Hx) as [xo Hxo].
    eapply lookup_lt_Some. exact Hxo. }
  destruct (documentElement_run s this o Ho Hall) as (de & Hde & Hfirst).
  rewrite Hde in Hnone. injection Hnone as ->. simpl in Hfirst.
  destruct (doctype_run s this o Ho Hall) as (dt & Hdt & Hdfirst).
  assert (Hall1 : allocated s1 (childNodes o)).
  { apply Forall_forall. intros x Hx. apply lookup_lt_is_Some_2.
    rewrite Hlen1. specialize (Hkids x Hx). lia. }
  assert (Hall2 : allocated s2 (childNodes o2)).
  { apply Forall_forall. intros x Hx. apply lookup_lt_is_Some_2. rewrite Hlen2.
    simpl in Hx. apply elem_of_app in Hx as [Hx|Hx].
    - specialize (Hkids x Hx). lia.
    - apply list_elem_of_singleton in Hx. subst x. unfold e. lia. }
  assert (Happend : Node.appendChild T fuel this e s1 = (Ret e, s2)).
  { apply (appendChild_fresh T fuel s1 this e o eo Hs1this Hs1e Hne Hpar eq_refl Hall1).
    rewrite Hdoc. unfold appendable. simpl.
    apply bool_decide_eq_true. intros Hin.
    apply list_elem_of_omap in Hin as (x & Hx & Htx).
    rewrite (Htag1 x (Hkids x Hx)) in Htx.
    exact (proj1 (Forall_forall _ _) Hfirst x Hx Htx). }
  assert (Hcreate : forall (st : Store) n,
            XMLSpec.Name n = true ->
            Document.createElement this n st
            = (Ret (length st),
               st ++ [mkNode ElementC None (Some this) [] [] (ElementData None None n)])).
  { intros st n Hn. unfold Document.createElement. rewrite Hn. reflexivity. }
  assert (Hde2 : Document.documentElement this s2 = (Ret (Some e), s2)).
  { destruct (documentElement_run s2 this o2 Hs2this Hall2) as (r & Hr & Hf).
    rewrite Hr. f_equal. f_equal.
    apply (FirstChildOfType_unique s2 Element (childNodes o2) r (Some e) Hf).
    exists (childNodes o), []. split; [reflexivity|]. split.
    - rewrite (tagOf_Some _ _ _ Hs2e). reflexivity.
    - apply Forall_forall. intros x Hx. rewrite (Htag2 x (Hkids x Hx)).
      exact (proj1 (Forall_forall _ _) Hfirst x Hx). }
  exists s2, dt. split; [|split; [|split; [|split; [|split]]]].
  - unfold bind. rewrite (Hcreate s name Hname). exact Happend.
  - exact Hde2.
  - exact Hdt.
  - destruct (doctype_run s2 this o2 Hs2this Hall2) as (r & Hr & Hf).
    rewrite Hr. f_equal. f_equal.
    apply (FirstChildOfType_unique s2 DocumentType (childNodes o2) r dt Hf).
    apply (FirstChildOfType_snoc s s2 DocumentType (childNodes o) e dt).
    + intros x Hx. apply Htag2, Hkids, Hx.
    + rewrite (tagOf_Some _ _ _ Hs2e). discriminate.
    + exact Hdfirst.
  - unfold bind. rewrite (Hcreate s2 name2 Hname2). fold eo2.
    set (s3 := s2 ++ [eo2]).
    assert (Hs3this : s3 !! this = Some o2).
    { unfold s3. rewrite lookup_app_l by (rewrite Hlen2; lia). exact Hs2this. }
    assert (Hs3e2 : s3 !! length s2 = Some eo2).
    { unfold s3. apply list_lookup_middle. reflexivity. }
    assert (Hall3 : allocated s3 (childNodes o2)).
    { eapply Forall_impl; [exact Hall2|]. simpl. intros x [xo Hxo].
      exists xo. unfold s3. apply lookup_app_l_Some. exact Hxo. }
    unfold Node.appendChild, Node.ensurePreInsertionValidity, bind.
    rewrite (isInclusiveAncestor_root fuel s3 (length s2) this o2);
      [|rewrite Hlen2; lia | exact Hs3this | exact Hpar].
    rewrite (getObj_Some _ _ _ Hs3this), (getObj_Some _ _ _ Hs3e2).
    change (nodeType (cls o2)) with (nodeType (cls o)). rewrite Hdoc. simpl.
    rewrite (hasChildOfType_true s3 Element (childNodes o ++ [e]) e Hall3).
    + reflexivity.
    + apply elem_of_app. right. apply elem_of_cons. left. reflexivity.
    + unfold tagOf, s3. rewrite lookup_app_l by (rewrite Hlen2; unfold e; lia).
      rewrite Hs2e. reflexivity.
  - fold eo2.
    destruct (roots_preserved s2 (s2 ++ [eo2]) this o2 Hs2this Hall2)
      as (de' & _ & He1 & He2 & _).
    { intros i Hi. apply lookup_app_l. exact Hi. }
    rewrite Hde2 in He1. injection He1 as <-. exact He2.
Qed.

Lemma createElement_appendChild_documentElement_witness :
  let o := mkNode DocumentC None None [] [] NoData in
  (sampleStore !! 6 = Some o
   /\ nodeType (cls o) = Document /\ _parentNode o = None
   /\ allocated sampleStore (childNodes o)
   /\ Document.documentElement 6 sampleStore = (Ret None, sampleStore)
   /\ XMLSpec.Name "root" = true /\ XMLSpec.Name "second" = true)
  /\ exists s' dt,
       (e <- Document.createElement 6 "root" ;; Node.appendChild sampleTable 1 6 e)%dom
         sampleStore
       = (Ret (length sampleStore), s')
       /\ Document.documentElement 6 s' = (Ret (Some (length sampleStore)), s')
       /\ Document.doctype 6 sampleStore = (Ret dt, sampleStore)
       /\ Document.doctype 6 s' = (Ret dt, s')
       /\ (e <- Document.createElement 6 "second" ;; Node.appendChild sampleTable 1 6 e)%dom s'
          = (Throw (DOMError HierarchyRequestError),
             s' ++ [mkNode ElementC None (Some 6) [] [] (ElementData None None "second")])
       /\ Document.documentElement 6
            (s' ++ [mkNode ElementC None (Some 6) [] [] (ElementData None None "second")])
          = (Ret (Some (length sampleStore)),
             s' ++ [mkNode ElementC None (Some 6) [] [] (ElementData None None "second")]).
Proof.
  intros o.
  assert (H1 : sampleStore !! 6 = Some o) by reflexivity.
  assert (H2 : nodeType (cls o) = Document) by reflexivity.
  assert (H3 : _parentNode o = None) by reflexivity.
  assert (H4 : allocated sampleStore (childNodes o)) by constructor.
  assert (H5 : Document.documentElement 6 sampleStore = (Ret None, sampleStore))
    by reflexivity.
  assert (H6 : XMLSpec.Name "root" = true) by reflexivity.
  assert (H7 : XMLSpec.Name "second" = true) by reflexivity.
  split; [repeat split; assumption|].
  exact (createElement_appendChild_documentElement sampleTable 1 sampleStore 6 o
           "root" "second" H1 H2 H3 H4 H5 H6 H7).
Defined.

(** ** The earlier revision, continued *)

Lemma forEach_children_reassign d f (s : Store) ks rest :
  Forall2 (fun k r => subtreeRefs f s k = Some r) ks rest ->
  forall acc,
    forEach ks (fun c => Node.forEachDescendant f c true (Node.reassignOwner d))
      (reassignAll d acc s)
    = (Ret tt, reassignAll d (acc ++ concat rest) s).
Proof.
  induction 1 as [|k r ks rest Hk _ IH]; intros acc.
  - simpl. rewrite app_nil_r. reflexivity.
  - simpl. unfold bind.
    rewrite (forEachDescendant_reassign d f (reassignAll d acc s) k r).
    + rewrite reassignAll_app, IH, <- app_assoc. reflexivity.
    + rewrite (subtreeRefs_struct s); [exact Hk| |].
      * apply reassignAll_length.
      * intros i. apply reassignAll_structure.
Qed.

(** The walk after the node itself has been given its owner, for either
    answer to whether the walk visits the node: the owner is set on a part
    of the references of the subtree that holds the references of the
    subtree of every child. *)
Lemma forEachDescendant_any_self d (self : bool) f (s : Store) n refs :
  subtreeRefs f s n = Some refs ->
  exists refs',
    Node.forEachDescendant f n self (Node.reassignOwner d) (reassignAll d [n] s)
    = (Ret tt, reassignAll d ([n] ++ refs') s)
    /\ (forall x, x ∈ refs' -> x ∈ refs)
    /\ (forall o k, s !! n = Some o -> k ∈ childNodes o ->
          exists r, subtreeRefs (pred f) s k = Some r /\ forall x, x ∈ r -> x ∈ refs').
Proof.
  intros Hrefs.
  assert (Hsame : forall g k, subtreeRefs g (reassignAll d [n] s) k = subtreeRefs g s k).
  { intros g k. apply subtreeRefs_struct.
    - apply reassignAll_length.
    - intros i. apply reassignAll_structure. }
  destruct f as [|f]; [discriminate|].
  destruct (subtreeRefs_S _ _ _ _ Hrefs) as (o & rest & Ho & Hattrs & Hrest & Hr).
  assert (Hcover : forall (R : list Ref),
            (forall x, x ∈ concat rest -> x ∈ R) ->
            forall o' k, s !! n = Some o' -> k ∈ childNodes o' ->
              exists r, subtreeRefs (pred (S f)) s k = Some r /\ forall x, x ∈ r -> x ∈ R).
  { intros R HR o' k Ho' Hk. rewrite Ho in Ho'. injection Ho' as <-.
    destruct (proj1 (list_elem_of_lookup _ _) Hk) as [i Hi].
    destruct (Forall2_lookup_l _ _ _ _ _ Hrest Hi) as (r & Hri & Hsub).
    exists r. split; [exact Hsub|]. intros x Hx. apply HR.
    apply elem_of_concat. exists r. split; [exact Hx|].
    eapply list_elem_of_lookup_2. exact Hri. }
  destruct self.
  - exists refs. split; [|split].
    + rewrite (forEachDescendant_reassign d (S f) _ n refs).
      * rewrite reassignAll_app. reflexivity.
      * rewrite Hsame. exact Hrefs.
    + auto.
    + apply Hcover. intros x Hx. rewrite Hr. apply elem_of_cons. right.
      apply elem_of_app. right. exact Hx.
  - exists (concat rest). split; [|split].
    + cbn [Node.forEachDescendant]. unfold bind at 1. unfold ret at 1.
      unfold bind at 1.
      assert (Ho' : exists o', reassignAll d [n] s !! n = Some o'
                               /\ childNodes o' = childNodes o).
      { rewrite reassignAll_lookup, Ho. simpl. eexists. split; [reflexivity|].
        destruct (decide (n ∈ [n])); reflexivity. }
      destruct Ho' as (o' & Ho' & Hk).
      rewrite (getObj_Some _ _ _ Ho'), Hk.
      apply (forEach_children_reassign d f s _ _ Hrest).
    + intros x Hx. rewrite Hr. apply elem_of_cons. right.
      apply elem_of_app. right. exact Hx.
    + apply Hcover. auto.
Qed.

(** X14: [adoptNode] of the earlier revision, whatever its traversal helper
    does about the node itself.  A Document is refused with
    NotSupportedError; any other node, a shadow root included, is returned
    after having been unlinked from its parent, owned by the adopting
    document, with nothing allocated; if its owner was another document,
    every node below it and every attribute of every element below it is
    owned by the adopting document as well. *)
Theorem EarlyDocument_adoptNode_any_self (self : bool) (fuel : nat) (s : Store)
    (this node : Ref) (no : NodeObj) :
  s !! node = Some no ->
  (forall p, _parentNode no = Some p -> is_Some (s !! p)) ->
  is_Some (subtreeRefs fuel s node) ->
  (nodeType (cls no) = Document ->
     EarlyDocument.adoptNode self fuel this node s
     = (Throw (DOMError NotSupportedError), s))
  /\ (nodeType (cls no) <> Document ->
      exists s' no',
        EarlyDocument.adoptNode self fuel this node s = (Ret node, s')
        /\ length s' = length s
        /\ s' !! node = Some no'
        /\ _parentNode no' = None
        /\ _ownerDocument no' = Some this
        /\ (_ownerDocument no = Some this -> s' = detach s node)
        /\ (_ownerDocument no <> Some this ->
              forall k, k ∈ childNodes no' ->
              forall x, descendantOrSelf s' k x ->
                ownerOf s' x = Some this
                /\ forall xo, s' !! x = Some xo -> nodeType (cls xo) = Element ->
                     forall a, a ∈ attributes xo -> ownerOf s' a = Some this)).
Proof.
  intros Ho Hpar Hwalk. split.
  - intros Hd. unfold EarlyDocument.adoptNode, bind. rewrite (getObj_Some _ _ _ Ho).
    destruct (decide (nodeType (cls no) = Document)); [reflexivity | contradiction].
  - intros Hnd.
    destruct (detach_thins s node no Ho Hpar) as [Hlen Hthin].
    destruct (subtreeRefs_thinned s (detach s node) Hlen Hthin fuel node Hwalk)
      as [refs Hrefs].
    destruct (detach_node s node no Ho Hpar) as (no1 & Hno1 & Hp1 & Hown1 & _).
    set (s1 := detach s node) in *.
    destruct (forEachDescendant_any_self this self fuel s1 node refs Hrefs)
      as (refs' & Hrun & Hsub & Hcover).
    assert (Hstep : EarlyDocument.adoptNode self fuel this node s
              = (Ret node,
                 if decide (_ownerDocument no = Some this) then s1
                 else reassignAll this ([node] ++ refs') s1)).
    { unfold EarlyDocument.adoptNode. unfold bind at 1.
      rewrite (getObj_Some _ _ _ Ho).
      destruct (decide (nodeType (cls no) = Document)); [contradiction|].
      unfold bind at 1. unfold EarlyDocument.ownerDocument at 1. unfold bind at 1.
      rewrite (getObj_Some _ _ _ Ho). unfold ret at 1.
      assert (Hdetach : (match _parentNode no with
                         | Some p => (Node.removeChild p node ;;; ret tt)%dom
                         | None => ret tt
                         end) s = (Ret tt, s1)).
      { unfold s1. destruct (_parentNode no) as [p|] eqn:Hp.
        - destruct (Hpar p eq_refl) as [po Hpo]. unfold bind.
          rewrite (removeChild_detach s node no p po Ho Hp Hpo). reflexivity.
        - rewrite (detach_noparent s node no Ho Hp). reflexivity. }
      unfold bind at 1. rewrite Hdetach. unfold bind at 1.
      destruct (decide (Some this <> _ownerDocument no)) as [Hd|Hd];
        destruct (decide (_ownerDocument no = Some this)) as [He|He].
      - congruence.
      - unfold bind at 1.
        rewrite modify_owner_reassign by (eapply lookup_lt_Some; exact Hno1).
        change (Node.forEachDescendant fuel node self _ (reassignAll this [node] s1))
          with (Node.forEachDescendant fuel node self (Node.reassignOwner this)
                  (reassignAll this [node] s1)).
        rewrite Hrun. reflexivity.
      - reflexivity.
      - exfalso. apply Hd. intros H. apply He. congruence. }
    destruct (decide (_ownerDocument no = Some this)) as [Hsame|Hdiff].
    + exists s1, no1. split; [exact Hstep|]. split; [exact Hlen|].
      split; [exact Hno1|]. split; [exact Hp1|].
      split; [rewrite Hown1; exact Hsame|].
      split; [reflexivity | intros Hne; contradiction].
    + set (s2 := reassignAll this ([node] ++ refs') s1) in *.
      assert (Hnin : node ∈ [node] ++ refs').
      { apply elem_of_app. left. apply list_elem_of_singleton. reflexivity. }
      pose proof (subtreeRefs_allocated s1 fuel node refs Hrefs) as Halloc.
      assert (Hlt : forall y, y ∈ [node] ++ refs' -> y < length s1).
      { intros y Hy. apply elem_of_app in Hy as [Hy|Hy].
        - apply list_elem_of_singleton in Hy. subst y. eapply lookup_lt_Some. exact Hno1.
        - exact (proj1 (Forall_forall _ _) Halloc y (Hsub y Hy)). }
      exists s2, (set_ownerDocument (Some this) no1).
      split; [exact Hstep|].
      split; [unfold s2; rewrite reassignAll_length; exact Hlen|].
      split.
      { unfold s2. rewrite reassignAll_lookup, Hno1. simpl.
        destruct (decide (node ∈ node :: refs')) as [|Hn]; [reflexivity|].
        exfalso. apply Hn. exact Hnin. }
      split; [exact Hp1|]. split; [reflexivity|].
      split; [intros Hsame; contradiction|].
      intros _ k Hk x Hx. simpl in Hk.
      destruct (Hcover no1 k Hno1 Hk) as (r & Hr & Hin).
      assert (Hr2 : subtreeRefs (pred fuel) s2 k = Some r).
      { unfold s2. rewrite (subtreeRefs_struct s1); [exact Hr| |].
        - apply reassignAll_length.
        - intros i. apply reassignAll_structure. }
      destruct (subtreeRefs_covers s2 k x Hx (pred fuel) r Hr2) as [Hxin Hattrs].
      assert (Hup : forall y, y ∈ r -> y ∈ [node] ++ refs').
      { intros y Hy. apply elem_of_app. right. apply Hin, Hy. }
      split.
      * apply ownerOf_reassigned; auto.
      * intros xo Hxo He a Ha.
        apply ownerOf_reassigned; [apply Hup; eapply Hattrs; eauto|].
        apply Hlt, Hup. eapply Hattrs; eauto.
Qed.

Lemma EarlyDocument_adoptNode_any_self_witness :
  let no := mkNode ElementC (Some 0) (Some 0) [4; 5] [3] (ElementData None None "root") in
  (sampleStore !! 2 = Some no
   /\ (forall p, _parentNode no = Some p -> is_Some (sampleStore !! p))
   /\ is_Some (subtreeRefs 2 sampleStore 2)
   /\ nodeType (cls no) <> Document)
  /\ exists s' no',
       EarlyDocument.adoptNode false 2 6 2 sampleStore = (Ret 2, s')
       /\ length s' = length sampleStore
       /\ s' !! 2 = Some no'
       /\ _parentNode no' = None
       /\ _ownerDocument no' = Some 6
       /\ (_ownerDocument no = Some 6 -> s' = detach sampleStore 2)
       /\ (_ownerDocument no <> Some 6 ->
             forall k, k ∈ childNodes no' ->
             forall x, descendantOrSelf s' k x ->
               ownerOf s' x = Some 6
               /\ forall xo, s' !! x = Some xo -> nodeType (cls xo) = Element ->
                    forall a, a ∈ attributes xo -> ownerOf s' a = Some 6).
Proof.
  intros no.
  assert (H1 : sampleStore !! 2 = Some no) by reflexivity.
  assert (H2 : forall p, _parentNode no = Some p -> is_Some (sampleStore !! p)).
  { intros p Hp. injection Hp as <-. eexists. reflexivity. }
  assert (H3 : is_Some (subtreeRefs 2 sampleStore 2)) by (eexists; reflexivity).
  assert (H4 : nodeType (cls no) <> Document) by discriminate.
  split; [repeat split; assumption|].
  exact (proj2 (EarlyDocument_adoptNode_any_self false 2 sampleStore 6 2 no H1 H2 H3) H4).
Defined.

(** X15: in the earlier revision the three [getElementsBy*] methods of a
    document hand the question to the document element, which is its first
    Element child, and answer with an empty collection when the document has
    none; the document itself searches nothing. *)
Theorem EarlyDocument_getElementsBy_delegate
    (Collection : Type) (emptyCollection : Collection)
    (Element_getElementsByTagName : Ref -> string -> M Collection)
    (Element_getElementsByTagNameNS : Ref -> string -> string -> M Collection)
    (Element_getElementsByClassName : Ref -> string -> M Collection)
    (s : Store) (this : Ref) (o : NodeObj) (str namespace : string) :
  s !! this = Some o ->
  allocated s (childNodes o) ->
  exists de,
    FirstChildOfType s Element (childNodes o) de
    /\ EarlyDocument.getElementsByTagName Collection emptyCollection
         Element_getElementsByTagName this str s
       = match de with
         | Some e => Element_getElementsByTagName e str s
         | None => (Ret emptyCollection, s)
         end
    /\ EarlyDocument.getElementsByTagNameNS Collection emptyCollection
         Element_getElementsByTagNameNS this namespace str s
       = match de with
         | Some e => Element_getElementsByTagNameNS e namespace str s
         | None => (Ret emptyCollection, s)
         end
    /\ EarlyDocument.getElementsByClassName Collection emptyCollection
         Element_getElementsByClassName this str s
       = match de with
         | Some e => Element_getElementsByClassName e str s
         | None => (Ret emptyCollection, s)
         end.
Proof.
  intros Ho Ha.
  destruct (documentElement_run s this o Ho Ha) as (de & Hde & Hfirst).
  exists de. split; [exact Hfirst|].
  unfold EarlyDocument.getElementsByTagName, EarlyDocument.getElementsByTagNameNS,
    EarlyDocument.getElementsByClassName, Document.onDocumentElement, bind.
  rewrite Hde. destruct de as [e|]; [rewrite Hde|]; repeat split; reflexivity.
Qed.

Lemma EarlyDocument_getElementsBy_delegate_witness :
  let o := mkNode DocumentC None None [1; 2] [] NoData in
  (sampleStore !! 0 = Some o /\ allocated sampleStore (childNodes o))
  /\ exists de,
       FirstChildOfType sampleStore Element (childNodes o) de
       /\ EarlyDocument.getElementsByTagName (list Ref) []
            (fun e _ => sampleElementCollection e) 0 "b" sampleStore
          = match de with
            | Some e => sampleElementCollection e sampleStore
            | None => (Ret [], sampleStore)
            end
       /\ EarlyDocument.getElementsByTagNameNS (list Ref) []
            (fun e _ _ => sampleElementCollection e) 0 "*" "b" sampleStore
          = match de with
            | Some e => sampleElementCollection e sampleStore
            | None => (Ret [], sampleStore)
            end
       /\ EarlyDocument.getElementsByClassName (list Ref) []
            (fun e _ => sampleElementCollection e) 0 "b" sampleStore
          = match de with
            | Some e => sampleElementCollection e sampleStore
            | None => (Ret [], sampleStore)
            end.
Proof.
  intros o.
  assert (H1 : sampleStore !! 0 = Some o) by reflexivity.
  assert (H2 : allocated sampleStore (childNodes o)) by solve_allocated.
  split; [split; assumption|].
  exact (EarlyDocument_getElementsBy_delegate (list Ref) []
           (fun e _ => sampleElementCollection e)
           (fun e _ _ => sampleElementCollection e)
           (fun e _ => sampleElementCollection e)
           sampleStore 0 o "b" "*" H1 H2).
Defined.

Lemma EarlyDocument_adoptNode_agrees_witness :
  let no := mkNode ElementC (Some 0) (Some 0) [4; 5] [3] (ElementData None None "root") in
  (sampleStore !! 2 = Some no
   /\ (forall p, _parentNode no = Some p -> is_Some (sampleStore !! p))
   /\ is_Some (subtreeRefs 2 sampleStore 2)
   /\ cls no <> ShadowRootC)
  /\ EarlyDocument.adoptNode true 2 6 2 sampleStore = Document.adoptNode 2 6 2 sampleStore.
Proof.
  intros no.
  assert (H1 : sampleStore !! 2 = Some no) by reflexivity.
  assert (H2 : forall p, _parentNode no = Some p -> is_Some (sampleStore !! p)).
  { intros p Hp. injection Hp as <-. eexists. reflexivity. }
  assert (H3 : is_Some (subtreeRefs 2 sampleStore 2)) by (eexists; reflexivity).
  assert (H4 : cls no <> ShadowRootC) by discriminate.
  split; [repeat split; assumption|].
  exact (EarlyDocument_adoptNode_agrees 2 sampleStore 6 2 no H1 H2 H3 H4).
Defined.

Lemma EarlyDocument_cloneNode_ignores_deep_witness :
  let o := mkNode DocumentC None None [1; 2] [] NoData in
  sampleStore !! 0 = Some o
  /\ EarlyDocument.cloneNode 0 (EarlyDocument.ADocument 6) true sampleStore
     = (Ret (length sampleStore),
        sampleStore ++ [mkNode DocumentC None None [] [] NoData]).
Proof.
  intros o.
  assert (H1 : sampleStore !! 0 = Some o) by reflexivity.
  split; [exact H1|].
  exact (EarlyDocument_cloneNode_ignores_deep sampleStore 0 o
           (EarlyDocument.ADocument 6) true H1).
Defined.

(** ** Importing and appending *)

(** Appending a detached element to a document that has no document element
    makes it the document element. *)
Lemma appendChild_documentElement (T : NodeType -> NodeType -> bool) (fuel : nat)
    (s : Store) (this ch : Ref) (o cho : NodeObj) :
  s !! this = Some o ->
  nodeType (cls o) = Document ->
  _parentNode o = None ->
  allocated s (childNodes o) ->
  Document.documentElement this s = (Ret None, s) ->
  s !! ch = Some cho ->
  nodeType (cls cho) = Element ->
  _parentNode cho = None ->
  Node.appendChild T fuel this ch s
  = (Ret ch,
     <[this := set_childNodes (childNodes o ++ [ch]) o]>
       (<[ch := set_parentNode (Some this) cho]> s))
  /\ Document.documentElement this
       (<[this := set_childNodes (childNodes o ++ [ch]) o]>
          (<[ch := set_parentNode (Some this) cho]> s))
     = (Ret (Some ch),
        <[this := set_childNodes (childNodes o ++ [ch]) o]>
          (<[ch := set_parentNode (Some this) cho]> s)).
Proof.
  intros Ho Hdoc Hpar Hall Hnone Hch Hel Hpch.
  set (o2 := set_childNodes (childNodes o ++ [ch]) o).
  set (s2 := <[this := o2]> (<[ch := set_parentNode (Some this) cho]> s)).
  assert (Hne : this <> ch).
  { intros ->. rewrite Ho in Hch. injection Hch as <-. congruence. }
  assert (Hthis : this < length s) by (eapply lookup_lt_Some; exact Ho).
  assert (Hchlt : ch < length s) by (eapply lookup_lt_Some; exact Hch).
  assert (Hlen2 : length s2 = length s).
  { unfold s2. rewrite !length_insert. reflexivity. }
  assert (Hs2this : s2 !! this = Some o2).
  { unfold s2. apply list_lookup_insert_eq. rewrite length_insert. exact Hthis. }
  assert (Hs2ch : s2 !! ch = Some (set_parentNode (Some this) cho)).
  { unfold s2. rewrite list_lookup_insert_ne by exact Hne.
    apply list_lookup_insert_eq. exact Hchlt. }
  assert (Htag2 : forall x, tagOf s2 x = tagOf s x).
  { intros x. destruct (decide (x = this)) as [->|Hxt].
    - rewrite (tagOf_Some _ _ _ Hs2this), (tagOf_Some _ _ _ Ho). reflexivity.
    - destruct (decide (x = ch)) as [->|Hxc].
      + rewrite (tagOf_Some _ _ _ Hs2ch), (tagOf_Some _ _ _ Hch). reflexivity.
      + unfold tagOf, s2. rewrite !list_lookup_insert_ne by congruence. reflexivity. }
  destruct (documentElement_run s this o Ho Hall) as (de & Hde & Hfirst).
  rewrite Hde in Hnone. injection Hnone as ->. simpl in Hfirst.
  assert (Hall2 : allocated s2 (childNodes o2)).
  { apply Forall_forall. intros x Hx. apply lookup_lt_is_Some_2. rewrite Hlen2.
    simpl in Hx. apply elem_of_app in Hx as [Hx|Hx].
    - destruct (proj1 (Forall_forall _ _) Hall x Hx) as [xo Hxo].
      eapply lookup_lt_Some. exact Hxo.
    - apply list_elem_of_singleton in Hx. subst x. exact Hchlt. }
  split.
  - apply (appendChild_fresh T fuel s this ch o cho Ho Hch Hne Hpar Hpch Hall).
    rewrite Hdoc, Hel. unfold appendable. simpl.
    apply bool_decide_eq_true. intros Hin.
    apply list_elem_of_omap in Hin as (x & Hx & Htx).
    exact (proj1 (Forall_forall _ _) Hfirst x Hx Htx).
  - fold o2. fold s2.
    destruct (documentElement_run s2 this o2 Hs2this Hall2) as (r & Hr & Hf).
    rewrite Hr. f_equal. f_equal.
    apply (FirstChildOfType_unique s2 Element (childNodes o2) r (Some ch) Hf).
    exists (childNodes o), []. split; [reflexivity|]. split.
    + rewrite (tagOf_Some _ _ _ Hs2ch). simpl. rewrite Hel. reflexivity.
    + apply Forall_forall. intros x Hx. rewrite Htag2.
      exact (proj1 (Forall_forall _ _) Hfirst x Hx).
Qed.

(** X16: importing an element and appending the clone.  When a document
    without a document element imports an element of a valid tree and
    appends the result, the clone is its [documentElement]; a child and
    owned by the document, it has the shape of the original (without the
    children for a shallow import), and the original object is as it was. *)
Theorem importNode_appendChild_documentElement
    (T : NodeType -> NodeType -> bool) (fuel h : nat) (s : Store)
    (this node : Ref) (deep : bool) (o no : NodeObj) :
  s !! node = Some no ->
  valid_tree T s h node = true -> h <= fuel ->
  nodeType (cls no) = Element ->
  s !! this = Some o ->
  nodeType (cls o) = Document ->
  _parentNode o = None ->
  allocated s (childNodes o) ->
  Document.documentElement this s = (Ret None, s) ->
  exists s',
    (c <- Document.importNode T fuel this node deep ;; Node.appendChild T fuel this c)%dom s
    = (Ret (length s), s')
    /\ Document.documentElement this s' = (Ret (Some (length s)), s')
    /\ parentOf s' (length s) = Some this
    /\ ownerOf s' (length s) = Some this
    /\ (forall f t, shape_of f s node = Some t ->
          shape_of f s' (length s) = Some (cloneShape deep t))
    /\ s' !! node = Some no.
Proof.
  intros Hno Hv Hh Hel Ho Hdoc Hpar Hall Hnone.
  assert (Hnd : nodeType (cls no) <> Document) by (rewrite Hel; discriminate).
  assert (Hnsr : cls no <> ShadowRootC).
  { intros E. rewrite E in Hel. discriminate. }
  destruct (importNode_run T fuel h s this node deep no Hno Hv Hh Hnd Hnsr)
    as (s1 & refs & co & HCl & Hco & Hc & Hcpar & Hrefs & Hbound & Hin & Hrun).
  destruct HCl as ([ext Hext] & Hcl1 & _ & Hshape & _).
  set (c := length s) in *.
  set (si := reassignAll this refs s1) in *.
  set (coi := set_ownerDocument (Some this) co).
  assert (Hthis : this < c) by (eapply lookup_lt_Some; exact Ho).
  assert (Hnode : node < c) by (eapply lookup_lt_Some; exact Hno).
  assert (Hclt : c < length s1) by (eapply lookup_lt_Some; exact Hco).
  assert (Hold : forall i, i < c -> si !! i = s !! i).
  { intros i Hi. unfold si. rewrite reassignAll_outside.
    - rewrite Hext. apply lookup_app_l. exact Hi.
    - intros Hi'. pose proof (proj1 (Forall_forall _ _) Hbound i Hi') as Hb.
      simpl in Hb. lia. }
  assert (Hsic : si !! c = Some coi).
  { unfold si. rewrite reassignAll_lookup, Hco. simpl.
    destruct (decide (c ∈ refs)); [reflexivity | contradiction]. }
  assert (Hsithis : si !! this = Some o) by (rewrite Hold; assumption).
  assert (Halli : allocated si (childNodes o)).
  { apply Forall_forall. intros x Hx.
    destruct (proj1 (Forall_forall _ _) Hall x Hx) as [xo Hxo].
    exists xo. rewrite Hold; [exact Hxo | eapply lookup_lt_Some; exact Hxo]. }
  assert (Hnonei : Document.documentElement this si = (Ret None, si)).
  { destruct (roots_preserved s si this o Ho Hall Hold) as (de & _ & H1 & H2 & _).
    rewrite Hnone in H1. injection H1 as <-. exact H2. }
  destruct (appendChild_documentElement T fuel si this c o coi
              Hsithis Hdoc Hpar Halli Hnonei Hsic)
    as [Happ Hde]; [simpl; rewrite Hc; exact Hel | exact Hcpar |].
  set (s2 := <[this := set_childNodes (childNodes o ++ [c]) o]>
               (<[c := set_parentNode (Some this) coi]> si)) in *.
  assert (Hs2c : s2 !! c = Some (set_parentNode (Some this) coi)).
  { unfold s2. rewrite list_lookup_insert_ne by lia.
    apply list_lookup_insert_eq. unfold si. rewrite reassignAll_length. exact Hclt. }
  exists s2. split; [|split; [|split; [|split; [|split]]]].
  - unfold bind. rewrite Hrun. exact Happ.
  - exact Hde.
  - unfold parentOf. rewrite Hs2c. reflexivity.
  - unfold ownerOf. rewrite Hs2c. reflexivity.
  - intros f t Ht.
    rewrite (shape_of_frame c (length s1) s1 s2 Hcl1); [apply Hshape, Ht| |lia].
    intros i Hi. destruct (decide (i = c)) as [->|Hic].
    + rewrite Hs2c, Hco. reflexivity.
    + unfold s2. rewrite !list_lookup_insert_ne by lia.
      apply reassignAll_structure.
  - unfold s2. rewrite !list_lookup_insert_ne by (try lia; intros ->;
      rewrite Ho in Hno; injection Hno as <-; congruence).
    rewrite Hold; assumption.
Qed.

Lemma importNode_appendChild_documentElement_witness :
  let no := mkNode ElementC (Some 0) (Some 0) [4; 5] [3] (ElementData None None "root") in
  let o := mkNode DocumentC None None [] [] NoData in
  (sampleStore !! 2 = Some no
   /\ valid_tree sampleTable sampleStore 2 2 = true /\ 2 <= 2
   /\ nodeType (cls no) = Element
   /\ sampleStore !! 6 = Some o
   /\ nodeType (cls o) = Document /\ _parentNode o = None
   /\ allocated sampleStore (childNodes o)
   /\ Document.documentElement 6 sampleStore = (Ret None, sampleStore))
  /\ exists s',
       (c <- Document.importNode sampleTable 2 6 2 true ;;
        Node.appendChild sampleTable 2 6 c)%dom sampleStore
       = (Ret (length sampleStore), s')
       /\ Document.documentElement 6 s' = (Ret (Some (length sampleStore)), s')
       /\ parentOf s' (length sampleStore) = Some 6
       /\ ownerOf s' (length sampleStore) = Some 6
       /\ (forall f t, shape_of f sampleStore 2 = Some t ->
             shape_of f s' (length sampleStore) = Some (cloneShape true t))
       /\ s' !! 2 = Some no.
Proof.
  intros no o.
  assert (H1 : sampleStore !! 2 = Some no) by reflexivity.
  assert (H2 : valid_tree sampleTable sampleStore 2 2 = true) by reflexivity.
  assert (H3 : 2 <= 2) by lia.
  assert (H4 : nodeType (cls no) = Element) by reflexivity.
  assert (H5 : sampleStore !! 6 = Some o) by reflexivity.
  assert (H6 : nodeType (cls o) = Document) by reflexivity.
  assert (H7 : _parentNode o = None) by reflexivity.
  assert (H8 : allocated sampleStore (childNodes o)) by constructor.
  assert (H9 : Document.documentElement 6 sampleStore = (Ret None, sampleStore))
    by reflexivity.
  split; [repeat split; assumption|].
  exact (importNode_appendChild_documentElement sampleTable 2 2 sampleStore 6 2 true o no
           H1 H2 H3 H4 H5 H6 H7 H8 H9).
Defined.

(** ** Adopting and appending *)

(** X20: moving an element into another document.  When a Document without
    a document element adopts an element that is not its child and appends
    it, the element itself, not a copy, is its [documentElement]: nothing
    is allocated, the element is a child of and owned by the document, and
    its old parent has lost it from its child list. *)
Theorem adoptNode_appendChild_documentElement
    (T : NodeType -> NodeType -> bool) (fuel : nat) (s : Store)
    (this node : Ref) (o no : NodeObj) :
  s !! node = Some no ->
  (forall p, _parentNode no = Some p -> is_Some (s !! p)) ->
  is_Some (subtreeRefs fuel s node) ->
  nodeType (cls no) = Element ->
  _parentNode no <> Some this ->
  s !! this = Some o ->
  nodeType (cls o) = Document ->
  _parentNode o = None ->
  allocated s (childNodes o) ->
  Document.documentElement this s = (Ret None, s) ->
  exists s',
    (n <- Document.adoptNode fuel this node ;; Node.appendChild T fuel this n)%dom s
    = (Ret node, s')
    /\ length s' = length s
    /\ Document.documentElement this s' = (Ret (Some node), s')
    /\ parentOf s' node = Some this
    /\ ownerOf s' node = Some this
    /\ (forall p po, _parentNode no = Some p -> s !! p = Some po ->
          exists po', s' !! p = Some po'
            /\ childNodes po' = filter (fun c => c <> node) (childNodes po)).
Proof.
  intros Hno Hpar Hwalk Hel Hnp Ho Hdoc Hopar Hall Hnone.
  assert (Hnd : nodeType (cls no) <> Document) by (rewrite Hel; discriminate).
  assert (Hnsr : cls no <> ShadowRootC).
  { intros E. rewrite E in Hel. discriminate. }
  assert (Hne : this <> node).
  { intros ->. rewrite Ho in Hno. injection Hno as <-. congruence. }
  destruct (adoptNode_lookup fuel s this node no Hno Hpar Hwalk Hnd Hnsr)
    as (s1 & Hrun & Hlen & Hlook).
  destruct (adoptNode_run fuel s this node no Hno Hpar Hwalk Hnd Hnsr)
    as (refs & Hrefs & Hrun').
  destruct (adopted_node fuel s this node no refs Hno Hpar Hrefs)
    as (no1 & Hno1 & Hp1 & Hown1 & Hc1).
  rewrite Hrun in Hrun'. injection Hrun' as Hs1. rewrite <- Hs1 in Hno1.
  destruct (Hlook this) as (g & Hthis1 & Hg). rewrite Ho in Hthis1. simpl in Hthis1.
  destruct (Hg o) as (Hgc & _ & _ & Hgp & Hgk).
  destruct (decide (this = node)); [contradiction|].
  destruct (decide (_parentNode no = Some this)); [contradiction|].
  assert (Htags : forall c, tagOf s1 c = tagOf s c).
  { intros c. unfold tagOf. destruct (Hlook c) as (gc & -> & Hgc').
    destruct (s !! c) as [co|]; [|reflexivity]. simpl.
    destruct (Hgc' co) as (-> & _). reflexivity. }
  assert (Hall1 : allocated s1 (childNodes (g o))).
  { rewrite Hgk. apply Forall_forall. intros x Hx.
    destruct (proj1 (Forall_forall _ _) Hall x Hx) as [xo Hxo].
    apply lookup_lt_is_Some_2. rewrite Hlen. eapply lookup_lt_Some. exact Hxo. }
  assert (Hnone1 : Document.documentElement this s1 = (Ret None, s1)).
  { destruct (roots_agree s s1 this o (g o) Ho Hthis1 Hgk Hall) as (de & dt & H1 & H2 & _).
    - intros c _. apply Htags.
    - rewrite Hnone in H1. injection H1 as <-. exact H2. }
  destruct (appendChild_documentElement T fuel s1 this node (g o) no1 Hthis1)
    as [Happ Hde]; try assumption.
  { rewrite Hgc. exact Hdoc. }
  { rewrite Hgp. exact Hopar. }
  { rewrite Hc1. exact Hel. }
  set (s2 := <[this := set_childNodes (childNodes (g o) ++ [node]) (g o)]>
               (<[node := set_parentNode (Some this) no1]> s1)) in *.
  assert (Hnlt : node < length s1) by (eapply lookup_lt_Some; exact Hno1).
  assert (Hs2n : s2 !! node = Some (set_parentNode (Some this) no1)).
  { unfold s2. rewrite list_lookup_insert_ne by exact Hne.
    apply list_lookup_insert_eq. exact Hnlt. }
  exists s2. split; [|split; [|split; [|split; [|split]]]].
  - unfold bind. rewrite Hrun. exact Happ.
  - unfold s2. rewrite !length_insert. exact Hlen.
  - exact Hde.
  - unfold parentOf. rewrite Hs2n. reflexivity.
  - unfold ownerOf. rewrite Hs2n. simpl. exact Hown1.
  - intros p po Hp Hpo.
    assert (Hpt : p <> this) by (intros ->; apply Hnp; exact Hp).
    destruct (Hlook p) as (gp & Hp1' & Hgp'). rewrite Hpo in Hp1'. simpl in Hp1'.
    destruct (Hgp' po) as (_ & _ & _ & _ & Hk).
    destruct (decide (_parentNode no = Some p)); [|contradiction].
    destruct (decide (p = node)) as [->|Hpn].
    + rewrite Hno1 in Hp1'. injection Hp1' as ->.
      exists (set_parentNode (Some this) (gp po)). split; [exact Hs2n|]. exact Hk.
    + exists (gp po). split; [|exact Hk].
      unfold s2. rewrite !list_lookup_insert_ne by congruence. exact Hp1'.
Qed.

Lemma adoptNode_appendChild_documentElement_witness :
  let no := mkNode ElementC (Some 0) (Some 0) [4; 5] [3] (ElementData None None "root") in
  let o := mkNode DocumentC None None [] [] NoData in
  (sampleStore !! 2 = Some no
   /\ (forall p, _parentNode no = Some p -> is_Some (sampleStore !! p))
   /\ is_Some (subtreeRefs 2 sampleStore 2)
   /\ nodeType (cls no) = Element
   /\ _parentNode no <> Some 6
   /\ sampleStore !! 6 = Some o
   /\ nodeType (cls o) = Document /\ _parentNode o = None
   /\ allocated sampleStore (childNodes o)
   /\ Document.documentElement 6 sampleStore = (Ret None, sampleStore))
  /\ exists s',
       (n <- Document.adoptNode 2 6 2 ;; Node.appendChild sampleTable 2 6 n)%dom sampleStore
       = (Ret 2, s')
       /\ length s' = length sampleStore
       /\ Document.documentElement 6 s' = (Ret (Some 2), s')
       /\ parentOf s' 2 = Some 6
       /\ ownerOf s' 2 = Some 6
       /\ (forall p po, _parentNode no = Some p -> sampleStore !! p = Some po ->
             exists po', s' !! p = Some po'
               /\ childNodes po' = filter (fun c => c <> 2) (childNodes po)).
Proof.
  intros no o.
  assert (H1 : sampleStore !! 2 = Some no) by reflexivity.
  assert (H2 : forall p, _parentNode no = Some p -> is_Some (sampleStore !! p)).
  { intros p Hp. injection Hp as <-. eexists. reflexivity. }
  assert (H3 : is_Some (subtreeRefs 2 sampleStore 2)) by (eexists; reflexivity).
  assert (H4 : nodeType (cls no) = Element) by reflexivity.
  assert (H5 : _parentNode no <> Some 6) by discriminate.
  assert (H6 : sampleStore !! 6 = Some o) by reflexivity.
  assert (H7 : nodeType (cls o) = Document) by reflexivity.
  assert (H8 : _parentNode o = None) by reflexivity.
  assert (H9 : allocated sampleStore (childNodes o)) by constructor.
  assert (H10 : Document.documentElement 6 sampleStore = (Ret None, sampleStore))
    by reflexivity.
  split; [repeat split; assumption|].
  exact (adoptNode_appendChild_documentElement sampleTable 2 sampleStore 6 2 o no
           H1 H2 H3 H4 H5 H6 H7 H8 H9 H10).
Defined.
